(** * IoTflow kernel: the configuration codec and the M24C08-R EEPROM driver

    A shallow embedding of [config_serializer.py] and [EEPROM_driver.py].
    The firmware runs on MicroPython (the modules import [machine] and
    [ujson]), so the pieces of the interpreter the two files rely on are
    modelled with MicroPython's behaviour, in [Module Py]:
    - [bytes] is a list of integers in 0..255;
    - [str] is held as its UTF-8 bytes, so [encode] exposes them and
      [decode] checks that they are well formed;
    - [struct.pack] stores the low bytes of an integer without a range
      check, [struct.unpack_from] raises when the buffer is too small;
    - [float] is IEEE binary64. *)

From Stdlib Require Import ZArith List Lia Bool Ascii String.
From Stdlib Require Import Floats.
From stdpp Require Import gmap strings.

Local Open Scope Z_scope.

(** ** The interpreter: exceptions, text, numbers, [struct] *)

Module Py.

Inductive exn : Type :=
| ValueError (msg : string)
| IndexError
| KeyError (key : string)
| OverflowError
| UnicodeError
| OSError
| RuntimeError (msg : string).

(** A call either returns or raises. *)
Inductive res (A : Type) : Type :=
| Ok (a : A)
| Raise (e : exn).
Arguments Ok {A} a.
Arguments Raise {A} e.

(** An exception raised by a call propagates to the caller. *)
#[global] Instance res_bind : MBind res := fun A B k r =>
  match r with
  | Ok a => k a
  | Raise e => Raise e
  end.

Definition is_ok {A} (r : res A) : bool :=
  match r with Ok _ => true | Raise _ => false end.

Definition bytes := list Z.

Definition is_byte (b : Z) : Prop := 0 <= b < 256.

(** [len(b)] *)
Definition len {A} (l : list A) : Z := Z.of_nat (List.length l).

(** *** Text *)

Definition byte_of_ascii (a : ascii) : Z := Z.of_N (N_of_ascii a).
Definition ascii_of_byte (b : Z) : ascii := ascii_of_N (Z.to_N b).

(** [s.encode("utf-8")]: the bytes the string is held as. *)
Definition encode (s : string) : bytes :=
  List.map byte_of_ascii (list_ascii_of_string s).

(** Well-formedness of a UTF-8 byte sequence as the decoder checks it:
    a lead byte announces one to three continuation bytes [10xxxxxx],
    and none may be pending at the end. *)
Fixpoint utf8_check (need : nat) (b : bytes) : bool :=
  match b with
  | [] => match need with O => true | S _ => false end
  | c :: rest =>
      match need with
      | S n => if (0x80 <=? c) && (c <? 0xC0) then utf8_check n rest else false
      | O =>
          if c <? 0x80 then utf8_check 0 rest
          else if c <? 0xC0 then false
          else if c <? 0xE0 then utf8_check 1 rest
          else if c <? 0xF0 then utf8_check 2 rest
          else if c <? 0xF8 then utf8_check 3 rest
          else false
      end
  end.

(** [b.decode("utf-8")] *)
Definition decode (b : bytes) : res string :=
  if utf8_check 0 b
  then Ok (string_of_list_ascii (List.map ascii_of_byte b))
  else Raise UnicodeError.

(** *** Integers from and to text

    [int(s, base)] for the literal forms the configuration uses: an
    optional sign, an optional [0b]/[0x] prefix matching the base, then
    at least one digit.  Surrounding white space and underscores between
    digits are not modelled: such a string raises [ValueError] here. *)

Definition digit_value (a : ascii) : option Z :=
  let c := byte_of_ascii a in
  if (48 <=? c) && (c <=? 57) then Some (c - 48)
  else if (97 <=? c) && (c <=? 122) then Some (c - 87)
  else if (65 <=? c) && (c <=? 90) then Some (c - 55)
  else None.

Fixpoint parse_digits (base : Z) (acc : Z) (s : string) : option Z :=
  match s with
  | EmptyString => Some acc
  | String a rest =>
      match digit_value a with
      | Some d => if d <? base then parse_digits base (acc * base + d) rest else None
      | None => None
      end
  end.

Definition strip_prefix (base : Z) (s : string) : string :=
  match s with
  | String "0" (String p rest) =>
      if (base =? 2) && (Ascii.eqb p "b" || Ascii.eqb p "B") then rest
      else if (base =? 16) && (Ascii.eqb p "x" || Ascii.eqb p "X") then rest
      else s
  | _ => s
  end.

Definition parse_unsigned (base : Z) (s : string) : option Z :=
  match strip_prefix base s with
  | EmptyString => None
  | body => parse_digits base 0 body
  end.

Definition int_of_str (base : Z) (s : string) : res Z :=
  let r :=
    match s with
    | String "-" rest => option_map Z.opp (parse_unsigned base rest)
    | String "+" rest => parse_unsigned base rest
    | _ => parse_unsigned base s
    end in
  match r with
  | Some n => Ok n
  | None => Raise (ValueError "invalid syntax for integer")
  end.

Definition digit_char (d : Z) : ascii :=
  if d <? 10 then ascii_of_byte (48 + d) else ascii_of_byte (87 + d).

(** The digits of a non-negative [n] in [base], most significant first;
    [fuel] bounds the number of digits. *)
Fixpoint digits_of (fuel : nat) (base n : Z) (acc : string) : string :=
  match fuel with
  | O => acc
  | S f =>
      let acc' := String (digit_char (n mod base)) acc in
      if n / base =? 0 then acc' else digits_of f base (n / base) acc'
  end.

Definition unsigned_repr (base n : Z) : string :=
  digits_of (S (Z.to_nat (Z.log2 n))) base n EmptyString.

Definition signed_repr (pre : string) (base n : Z) : string :=
  if n <? 0 then String "-" (pre +:+ unsigned_repr base (- n))
  else pre +:+ unsigned_repr base n.

(** [str(n)] *)
Definition str_of_int (n : Z) : string := signed_repr "" 10 n.

(** [hex(n)] *)
Definition hex (n : Z) : string := signed_repr "0x" 16 n.

Fixpoint zero_pad (k : nat) (s : string) : string :=
  match k with
  | O => s
  | S k' => String "0" (zero_pad k' s)
  end.

(** ["{:08b}".format(n)]: binary, zero-padded to at least eight
    characters, the sign first. *)
Definition format_08b (n : Z) : string :=
  if n <? 0 then
    let d := unsigned_repr 2 (- n) in
    String "-" (zero_pad (7 - String.length d) d)
  else
    let d := unsigned_repr 2 n in
    zero_pad (8 - String.length d) d.

(** *** [struct] *)

(** [struct.pack("B", v)]: the low byte. *)
Definition pack_B (v : Z) : bytes := [v mod 256].

(** [struct.pack(">H", v)]: the two low bytes, most significant first. *)
Definition pack_H (v : Z) : bytes := [(v / 256) mod 256; v mod 256].

(** [buf[i]] on a [bytes] object *)
Definition getitem (buf : bytes) (i : Z) : res Z :=
  let j := if i <? 0 then i + len buf else i in
  if (0 <=? j) && (j <? len buf)
  then Ok (List.nth (Z.to_nat j) buf 0)
  else Raise IndexError.

(** [buf[a:b]] for [0 <= a]: the bounds are clamped to the buffer. *)
Definition slice (buf : bytes) (a b : Z) : bytes :=
  List.firstn (Z.to_nat (b - a)) (List.skipn (Z.to_nat a) buf).

(** The [n] bytes [struct.unpack_from] reads at [offset]. *)
Definition read_exact (buf : bytes) (offset n : Z) : res bytes :=
  let o := if offset <? 0 then offset + len buf else offset in
  if (0 <=? o) && (o + n <=? len buf)
  then Ok (slice buf o (o + n))
  else Raise (ValueError "buffer too small").

Definition be_value (b : bytes) : Z :=
  List.fold_left (fun acc x => acc * 256 + x) b 0.

(** *** Floating point *)

(** [int(x)] on a float: truncation toward zero. *)
Definition int_of_float (x : float) : res Z :=
  match Prim2SF x with
  | S754_zero _ => Ok 0
  | S754_finite s m e =>
      let a := if 0 <=? e then Z.pos m * 2 ^ e else Z.pos m / 2 ^ (- e) in
      Ok (if s then - a else a)
  | S754_infinity _ => Raise OverflowError
  | S754_nan => Raise (ValueError "cannot convert float NaN to integer")
  end.

(** [float(n)] for an integer that fits 63 bits unsigned. *)
Definition float_of_int (n : Z) : float :=
  if n <? 0 then PrimFloat.opp (PrimFloat.of_uint63 (Uint63.of_Z (- n)))
  else PrimFloat.of_uint63 (Uint63.of_Z n).

(** Rounding to IEEE binary32 (to nearest, ties to even) and its bit
    pattern, as [struct.pack(">f", x)] stores it. *)
Definition to_binary32 (x : float) : spec_float :=
  match Prim2SF x with
  | S754_finite s m e => binary_round 24 128 s m e
  | other => other
  end.

Definition bits_of_binary32 (f : spec_float) : Z :=
  let sign (s : bool) := if s then 2 ^ 31 else 0 in
  match f with
  | S754_zero s => sign s
  | S754_infinity s => sign s + 0x7F800000
  | S754_nan => 0x7FC00000
  | S754_finite s m e =>
      if Z.pos m <? 2 ^ 23 then sign s + Z.pos m
      else sign s + (e + 150) * 2 ^ 23 + (Z.pos m - 2 ^ 23)
  end.

Definition binary32_of_bits (w : Z) : spec_float :=
  let s := 2 ^ 31 <=? w in
  let ex := (w / 2 ^ 23) mod 256 in
  let mant := w mod 2 ^ 23 in
  if ex =? 255 then (if mant =? 0 then S754_infinity s else S754_nan)
  else if ex =? 0 then
    match mant with
    | Z.pos m => S754_finite s m (-149)
    | _ => S754_zero s
    end
  else
    match mant + 2 ^ 23 with
    | Z.pos m => S754_finite s m (ex - 150)
    | _ => S754_nan
    end.

(** [struct.pack(">f", x)] *)
Definition pack_f (x : float) : bytes :=
  let w := bits_of_binary32 (to_binary32 x) in
  [(w / 2 ^ 24) mod 256; (w / 2 ^ 16) mod 256; (w / 2 ^ 8) mod 256; w mod 256].

(** The float that four big-endian bytes denote. *)
Definition float_of_f_bytes (b : bytes) : float :=
  SF2Prim (binary32_of_bits (be_value b)).

End Py.

(** ** [config_serializer.py] *)

Module config_serializer.
Import Py.

(** *** The configuration record

    The dictionaries are read with fixed keys, so they are records; a key
    that the code tests with [in] or reads with [.get] is an [option].
    [gpio_host_pins] is indexed with computed keys and stays a map. *)

Record Channel : Type := {
  name : string;
  channel_type : string;
  interface_type : string;
  channel_number : Z;
  actions : Z;
  measurement_range : option string;
  adc_hardware_gain : option float;
  shunt_resistance : option float;
  adc_offset : option float
}.

Record Network : Type := {
  wifi_ssid : string;
  wifi_password : string
}.

Record Mqtt : Type := {
  broker : string;
  port : Z;
  client_id : string;
  base_topic : string
}.

Record Hardware : Type := {
  mode : string;
  i2c_bus_id : Z;
  i2c_sda_pin : Z;
  i2c_scl_pin : Z;
  i2c_device_addr : string;
  eeprom_i2c_addr : string;
  eeprom_size : option Z;
  gpio_host_pins : gmap string Z;
  adc_i2c_addrs : option (list string);
  num_of_adcs : option Z;
  adc_sampling_rate : option Z
}.

Record Config : Type := {
  module_type : string;
  mezzanine_type : string;
  channels : list Channel;
  network : Network;
  mqtt : Mqtt;
  hardware : Hardware;
  pin_config : string;
  status_update_interval_s : Z
}.

(** [d[key]] on a key that may be absent *)
Definition getkey {A} (key : string) (o : option A) : res A :=
  match o with
  | Some v => Ok v
  | None => Raise (KeyError key)
  end.

(** [key in d] *)
Definition has_key {A} (o : option A) : bool :=
  match o with Some _ => true | None => false end.

(** *** Helpers *)

Definition pack_string (s : string) : res bytes :=
  let b := encode s in
  if len b >? 255
  then Raise (ValueError "String too long for 1-byte length prefix")
  else Ok (pack_B (len b) ++ b).

Definition unpack_string (buf : bytes) (offset : Z) : res (string * Z) :=
  length_ ← getitem buf offset;
  s ← decode (slice buf (offset + 1) (offset + 1 + length_));
  Ok (s, offset + 1 + length_).

(** *** Serializer *)

Definition adc_fields_present (ch : Channel) : Z :=
  let f0 := 0 in
  let f1 := if has_key (measurement_range ch) then Z.lor f0 0x01 else f0 in
  let f2 := if has_key (adc_hardware_gain ch) then Z.lor f1 0x02 else f1 in
  let f3 := if has_key (shunt_resistance ch) then Z.lor f2 0x04 else f2 in
  if has_key (adc_offset ch) then Z.lor f3 0x08 else f3.

(** [int(v * 1000)] then [struct.pack(">H", ...)]: the 2-byte fixed point *)
Definition pack_fixed_point (v : float) : res bytes :=
  n ← int_of_float (PrimFloat.mul v 1000%float);
  Ok (pack_H n).

(** The body of [for ch in channels] *)
Definition pack_channel (ch : Channel) : res bytes :=
  b_name ← pack_string (name ch);
  ct ← int_of_str 10 (channel_type ch);
  it ← int_of_str 10 (interface_type ch);
  let out := b_name ++ pack_B ct ++ pack_B it
             ++ pack_B (channel_number ch) ++ pack_B (actions ch) in
  let present := adc_fields_present ch in
  let out := out ++ pack_B present in
  out ← (if Z.land present 0x01 =? 0 then Ok out else
            r ← getkey "measurement_range" (measurement_range ch);
            v ← int_of_str 2 r;
            Ok (out ++ pack_B v));
  out ← (if Z.land present 0x02 =? 0 then Ok out else
            g ← getkey "adc_hardware_gain" (adc_hardware_gain ch);
            Ok (out ++ pack_f g));
  out ← (if Z.land present 0x04 =? 0 then Ok out else
            v ← getkey "shunt_resistance" (shunt_resistance ch);
            b ← pack_fixed_point v;
            Ok (out ++ b));
  (if Z.land present 0x08 =? 0 then Ok out else
     v ← getkey "adc_offset" (adc_offset ch);
     b ← pack_fixed_point v;
     Ok (out ++ b)).

Fixpoint pack_channels (chs : list Channel) : res bytes :=
  match chs with
  | [] => Ok []
  | ch :: rest =>
      b ← pack_channel ch;
      bs ← pack_channels rest;
      Ok (b ++ bs)
  end.

(** One step of [for i in range(0, 8, 2)] *)
Definition pack_gpio_pair (pins : gmap string Z) (i : Z) : res bytes :=
  hi ← getkey (str_of_int (i + 1)) (pins !! str_of_int (i + 1));
  lo ← getkey (str_of_int (i + 2)) (pins !! str_of_int (i + 2));
  Ok (pack_B (Z.lor (Z.shiftl (Z.land hi 0x0F) 4) (Z.land lo 0x0F))).

Fixpoint pack_gpio (pins : gmap string Z) (range : list Z) : res bytes :=
  match range with
  | [] => Ok []
  | i :: rest =>
      b ← pack_gpio_pair pins i;
      bs ← pack_gpio pins rest;
      Ok (b ++ bs)
  end.

Fixpoint pack_adc_addrs (addrs : list string) : res bytes :=
  match addrs with
  | [] => Ok []
  | addr :: rest =>
      a ← int_of_str 16 addr;
      bs ← pack_adc_addrs rest;
      Ok (pack_B a ++ bs)
  end.

Definition pack_hardware (hw : Hardware) : res bytes :=
  b_mode ← pack_string (mode hw);
  dev ← int_of_str 16 (i2c_device_addr hw);
  ee ← int_of_str 16 (eeprom_i2c_addr hw);
  let out := b_mode ++ pack_B (i2c_bus_id hw) ++ pack_B (i2c_sda_pin hw)
             ++ pack_B (i2c_scl_pin hw) ++ pack_B dev ++ pack_B ee in
  let out := out ++ pack_H (default 0 (eeprom_size hw)) in
  b_gpio ← pack_gpio (gpio_host_pins hw) [0; 2; 4; 6];
  let adc_addrs := default [] (adc_i2c_addrs hw) in
  b_adc ← pack_adc_addrs adc_addrs;
  Ok (out ++ b_gpio ++ pack_B (len adc_addrs) ++ b_adc
      ++ pack_H (default 0 (adc_sampling_rate hw))).

Definition pack_config (cfg : Config) : res bytes :=
  b_module ← pack_string (module_type cfg);
  b_mezz ← pack_string (mezzanine_type cfg);
  b_chs ← pack_channels (channels cfg);
  b_ssid ← pack_string (wifi_ssid (network cfg));
  b_pwd ← pack_string (wifi_password (network cfg));
  b_broker ← pack_string (broker (mqtt cfg));
  b_client ← pack_string (client_id (mqtt cfg));
  b_topic ← pack_string (base_topic (mqtt cfg));
  b_hw ← pack_hardware (hardware cfg);
  pc ← int_of_str 2 (pin_config cfg);
  Ok (b_module ++ b_mezz
      ++ pack_B (len (channels cfg)) ++ b_chs
      ++ b_ssid ++ b_pwd
      ++ b_broker ++ pack_H (port (mqtt cfg)) ++ b_client ++ b_topic
      ++ b_hw
      ++ pack_B pc ++ pack_B (Z.min (status_update_interval_s cfg) 255)).

(** *** Deserializer *)

(** [struct.unpack_from(">H", buf, offset)[0]] *)
Definition unpack_H (buf : bytes) (offset : Z) : res Z :=
  b ← read_exact buf offset 2;
  Ok (be_value b).

(** [struct.unpack_from(">H", buf, offset)[0] / 1000.0] *)
Definition unpack_fixed_point (buf : bytes) (offset : Z) : res float :=
  n ← unpack_H buf offset;
  Ok (PrimFloat.div (float_of_int n) 1000%float).

(** The body of [for _ in range(num_channels)] *)
Definition unpack_channel (buf : bytes) (offset : Z) : res (Channel * Z) :=
  '(nm, offset) ← unpack_string buf offset;
  quad ← read_exact buf offset 4;
  let ch_type := List.nth 0 quad 0 in
  let if_type := List.nth 1 quad 0 in
  let ch_num := List.nth 2 quad 0 in
  let acts := List.nth 3 quad 0 in
  let offset := offset + 4 in
  present ← getitem buf offset;
  let offset := offset + 1 in
  '(mr, offset) ←
    (if Z.land present 0x01 =? 0 then Ok (None, offset) else
       b ← getitem buf offset;
       Ok (Some ("0b" +:+ format_08b b), offset + 1));
  '(gain, offset) ←
    (if Z.land present 0x02 =? 0 then Ok (None, offset) else
       b ← read_exact buf offset 4;
       Ok (Some (float_of_f_bytes b), offset + 4));
  '(shunt, offset) ←
    (if Z.land present 0x04 =? 0 then Ok (None, offset) else
       v ← unpack_fixed_point buf offset;
       Ok (Some v, offset + 2));
  '(offset_val, offset) ←
    (if Z.land present 0x08 =? 0 then Ok (None, offset) else
       v ← unpack_fixed_point buf offset;
       Ok (Some v, offset + 2));
  Ok ({| name := nm;
         channel_type := str_of_int ch_type;
         interface_type := str_of_int if_type;
         channel_number := ch_num;
         actions := acts;
         measurement_range := mr;
         adc_hardware_gain := gain;
         shunt_resistance := shunt;
         adc_offset := offset_val |}, offset).

Fixpoint unpack_channels (n : nat) (buf : bytes) (offset : Z)
  : res (list Channel * Z) :=
  match n with
  | O => Ok ([], offset)
  | S n' =>
      '(ch, offset) ← unpack_channel buf offset;
      '(chs, offset) ← unpack_channels n' buf offset;
      Ok (ch :: chs, offset)
  end.

(** [for i in range(0, 8, 2)]: two pins per byte *)
Fixpoint unpack_gpio (range : list Z) (gpio : gmap string Z)
    (buf : bytes) (offset : Z) : res (gmap string Z * Z) :=
  match range with
  | [] => Ok (gpio, offset)
  | i :: rest =>
      packed ← getitem buf offset;
      let offset := offset + 1 in
      let gpio := <[str_of_int (i + 1) := Z.land (Z.shiftr packed 4) 0x0F]> gpio in
      let gpio := <[str_of_int (i + 2) := Z.land packed 0x0F]> gpio in
      unpack_gpio rest gpio buf offset
  end.

(** [for _ in range(num_adcs)] *)
Fixpoint unpack_adc_addrs (n : nat) (buf : bytes) (offset : Z)
  : res (list string * Z) :=
  match n with
  | O => Ok ([], offset)
  | S n' =>
      addr ← getitem buf offset;
      let offset := offset + 1 in
      '(rest, offset) ← unpack_adc_addrs n' buf offset;
      Ok (hex addr :: rest, offset)
  end.

(** [unpack_config] with the offset it stops at *)
Definition unpack_config_at (buf : bytes) : res (Config * Z) :=
  let offset := 0 in
  '(module, offset) ← unpack_string buf offset;
  '(mezz, offset) ← unpack_string buf offset;
  num_channels ← getitem buf offset;
  let offset := offset + 1 in
  '(chs, offset) ← unpack_channels (Z.to_nat num_channels) buf offset;
  '(ssid, offset) ← unpack_string buf offset;
  '(pwd, offset) ← unpack_string buf offset;
  '(brk, offset) ← unpack_string buf offset;
  prt ← unpack_H buf offset;
  let offset := offset + 2 in
  '(cid, offset) ← unpack_string buf offset;
  '(topic, offset) ← unpack_string buf offset;
  '(md, offset) ← unpack_string buf offset;
  five ← read_exact buf offset 5;
  let bus_id := List.nth 0 five 0 in
  let sda := List.nth 1 five 0 in
  let scl := List.nth 2 five 0 in
  let dev_addr := List.nth 3 five 0 in
  let eeprom_addr := List.nth 4 five 0 in
  let offset := offset + 5 in
  ee_size ← unpack_H buf offset;
  let offset := offset + 2 in
  '(gpio, offset) ← unpack_gpio [0; 2; 4; 6] ∅ buf offset;
  num_adcs ← getitem buf offset;
  let offset := offset + 1 in
  '(adc_addrs, offset) ← unpack_adc_addrs (Z.to_nat num_adcs) buf offset;
  rate ← unpack_H buf offset;
  let offset := offset + 2 in
  two ← read_exact buf offset 2;
  let pin_cfg := List.nth 0 two 0 in
  let status_int := List.nth 1 two 0 in
  let offset := offset + 2 in
  Ok ({| module_type := module;
         mezzanine_type := mezz;
         channels := chs;
         network := {| wifi_ssid := ssid; wifi_password := pwd |};
         mqtt := {| broker := brk; port := prt;
                    client_id := cid; base_topic := topic |};
         hardware := {| mode := md;
                        i2c_bus_id := bus_id;
                        i2c_sda_pin := sda;
                        i2c_scl_pin := scl;
                        i2c_device_addr := hex dev_addr;
                        eeprom_i2c_addr := hex eeprom_addr;
                        eeprom_size := Some ee_size;
                        gpio_host_pins := gpio;
                        adc_i2c_addrs := Some adc_addrs;
                        num_of_adcs := Some num_adcs;
                        adc_sampling_rate := Some rate |};
         pin_config := "0b" +:+ format_08b pin_cfg;
         status_update_interval_s := status_int |}, offset).

Definition unpack_config (buf : bytes) : res Config :=
  '(cfg, _) ← unpack_config_at buf;
  Ok cfg.

(** *** Vocabulary of the properties *)

(** The exceptions that stand for the specification's DecodingError. *)
Definition decoding_error (e : exn) : Prop :=
  e = IndexError \/ e = ValueError "buffer too small" \/ e = UnicodeError.


(** What a successful call that moves the offset tells: the offset did not
    go back, and if it stayed inside the buffer the call reads the same
    from any longer buffer. *)
Definition stays {A} (p : bytes -> Z -> res (A * Z)) (buf : bytes) (o : Z)
    (v : A) (o' : Z) : Prop :=
  o <= o'
  /\ (o' <= len buf -> forall tail, p (buf ++ tail) o = Ok (v, o')).

(** [rest] is what of [buf] lies at offset [o] and after. *)
Definition cursor (buf : bytes) (o : Z) (rest : bytes) : Prop :=
  exists pre, buf = pre ++ rest /\ o = len pre.


Definition text_ok (s : string) : bool :=
  utf8_check 0 (encode s) && (len (encode s) <=? 255).

Definition byte_ok (v : Z) : bool := (0 <=? v) && (v <=? 255).

Definition word_ok (v : Z) : bool := (0 <=? v) && (v <=? 65535).

(** [s] is the text that [render] gives for the byte that [s] denotes. *)
Definition rendered (base : Z) (render : Z -> string) (s : string) : bool :=
  match int_of_str base s with
  | Ok a => byte_ok a && String.eqb (render a) s
  | Raise _ => false
  end.

(** ["0b" + "{:08b}".format(a)] *)
Definition bin8 (a : Z) : string := "0b" +:+ format_08b a.

(** The thousandfold of [v] has an integer part that fits 16 bits. *)
Definition fixed_ok (v : float) : bool :=
  match int_of_float (PrimFloat.mul v 1000) with
  | Ok n => word_ok n
  | Raise _ => false
  end.

Definition option_ok {A} (f : A -> bool) (o : option A) : bool :=
  match o with
  | Some a => f a
  | None => true
  end.

Definition channel_ok (ch : Channel) : bool :=
  text_ok (name ch)
  && rendered 10 str_of_int (channel_type ch)
  && rendered 10 str_of_int (interface_type ch)
  && byte_ok (channel_number ch)
  && byte_ok (actions ch)
  && option_ok (rendered 2 bin8) (measurement_range ch)
  && option_ok fixed_ok (shunt_resistance ch)
  && option_ok fixed_ok (adc_offset ch).

(** What a fixed-point field holds after a round trip: [int(v * 1000) /
    1000.0]. *)
Definition stored_fixed_point (v : float) : float :=
  match int_of_float (PrimFloat.mul v 1000) with
  | Ok n => PrimFloat.div (float_of_int (n mod 65536)) 1000
  | Raise _ => v
  end.

(** What a gain holds after a round trip: its nearest 32-bit float. *)
Definition stored_gain (g : float) : float := float_of_f_bytes (pack_f g).

Definition stored_channel (ch : Channel) : Channel :=
  {| name := name ch;
     channel_type := channel_type ch;
     interface_type := interface_type ch;
     channel_number := channel_number ch;
     actions := actions ch;
     measurement_range := measurement_range ch;
     adc_hardware_gain := stored_gain <$> adc_hardware_gain ch;
     shunt_resistance := stored_fixed_point <$> shunt_resistance ch;
     adc_offset := stored_fixed_point <$> adc_offset ch |}.
Definition pin_ok (pins : gmap string Z) (i : Z) : bool :=
  match pins !! str_of_int i with
  | Some v => (0 <=? v) && (v <=? 15)
  | None => false
  end.

(** The keys are "1" to "8" and nothing else, the values fit four bits. *)
Definition gpio_ok (pins : gmap string Z) : bool :=
  forallb (pin_ok pins) [1; 2; 3; 4; 5; 6; 7; 8] && (size pins =? 8)%nat.
Definition hardware_ok (hw : Hardware) : bool :=
  text_ok (mode hw)
  && byte_ok (i2c_bus_id hw) && byte_ok (i2c_sda_pin hw) && byte_ok (i2c_scl_pin hw)
  && rendered 16 hex (i2c_device_addr hw)
  && rendered 16 hex (eeprom_i2c_addr hw)
  && match eeprom_size hw with Some e => word_ok e | None => false end
  && gpio_ok (gpio_host_pins hw)
  && match adc_i2c_addrs hw with
     | Some addrs =>
         (len addrs <=? 255) && forallb (rendered 16 hex) addrs
         && match num_of_adcs hw with
            | Some n => n =? len addrs
            | None => false
            end
     | None => false
     end
  && match adc_sampling_rate hw with Some r => word_ok r | None => false end.

(** The record is in the form [unpack_config] produces: texts are valid
    UTF-8 of at most 255 bytes, integers fit their fields, numeric texts are
    written as the decoder writes them, there are at most 255 channels and
    ADC addresses, and every hardware key is present. *)
Definition config_ok (cfg : Config) : bool :=
  text_ok (module_type cfg)
  && text_ok (mezzanine_type cfg)
  && (len (channels cfg) <=? 255)
  && forallb channel_ok (channels cfg)
  && text_ok (wifi_ssid (network cfg))
  && text_ok (wifi_password (network cfg))
  && text_ok (broker (mqtt cfg))
  && word_ok (port (mqtt cfg))
  && text_ok (client_id (mqtt cfg))
  && text_ok (base_topic (mqtt cfg))
  && hardware_ok (hardware cfg)
  && rendered 2 bin8 (pin_config cfg)
  && byte_ok (status_update_interval_s cfg).

(** The record after a round trip: the gains and the fixed-point fields of
    the channels hold what was stored, everything else is unchanged. *)
Definition stored (cfg : Config) : Config :=
  {| module_type := module_type cfg;
     mezzanine_type := mezzanine_type cfg;
     channels := List.map stored_channel (channels cfg);
     network := network cfg;
     mqtt := mqtt cfg;
     hardware := hardware cfg;
     pin_config := pin_config cfg;
     status_update_interval_s := status_update_interval_s cfg |}.
(** *** Records to try the codec on *)

(** The keys of a hardware dictionary. *)
Definition hardware_keys (hw : Hardware) : list string :=
["mode"; "i2c_bus_id"; "i2c_sda_pin"; "i2c_scl_pin"; "i2c_device_addr";
 "eeprom_i2c_addr"; "gpio_host_pins"]
++ (if has_key (eeprom_size hw) then ["eeprom_size"] else [])
++ (if has_key (adc_i2c_addrs hw) then ["adc_i2c_addrs"] else [])
++ (if has_key (num_of_adcs hw) then ["num_of_adcs"] else [])
++ (if has_key (adc_sampling_rate hw) then ["adc_sampling_rate"] else []).

Definition with_num_of_adcs (v : option Z) (cfg : Config) : Config :=
let hw := hardware cfg in
{| module_type := module_type cfg;
   mezzanine_type := mezzanine_type cfg;
   channels := channels cfg;
   network := network cfg;
   mqtt := mqtt cfg;
   hardware := {| mode := mode hw;
                  i2c_bus_id := i2c_bus_id hw;
                  i2c_sda_pin := i2c_sda_pin hw;
                  i2c_scl_pin := i2c_scl_pin hw;
                  i2c_device_addr := i2c_device_addr hw;
                  eeprom_i2c_addr := eeprom_i2c_addr hw;
                  eeprom_size := eeprom_size hw;
                  gpio_host_pins := gpio_host_pins hw;
                  adc_i2c_addrs := adc_i2c_addrs hw;
                  num_of_adcs := v;
                  adc_sampling_rate := adc_sampling_rate hw |};
   pin_config := pin_config cfg;
   status_update_interval_s := status_update_interval_s cfg |}.

Definition with_shunt_resistance (v : option float) (ch : Channel) : Channel :=
{| name := name ch;
   channel_type := channel_type ch;
   interface_type := interface_type ch;
   channel_number := channel_number ch;
   actions := actions ch;
   measurement_range := measurement_range ch;
   adc_hardware_gain := adc_hardware_gain ch;
   shunt_resistance := v;
   adc_offset := adc_offset ch |}.

Definition with_adc_offset (v : option float) (ch : Channel) : Channel :=
{| name := name ch;
   channel_type := channel_type ch;
   interface_type := interface_type ch;
   channel_number := channel_number ch;
   actions := actions ch;
   measurement_range := measurement_range ch;
   adc_hardware_gain := adc_hardware_gain ch;
   shunt_resistance := shunt_resistance ch;
   adc_offset := v |}.

(** The configuration of [Debugging/test_eeprom.py]. *)
Definition sensor (nm range : string) (number : Z) : Channel :=
{| name := nm;
   channel_type := "2";
   interface_type := "01";
   channel_number := number;
   actions := 0;
   measurement_range := Some range;
   adc_hardware_gain := Some 0x1.e6a4d0b3719d8p-3%float; (* 0.23761904761904762 *)
   shunt_resistance := Some 0x1.fdf3b645a1cacp-3%float; (* 0.249 *)
   adc_offset := Some 0%float |}.

Definition test_cfg : Config :=
{| module_type := "IoTbase PICO";
   mezzanine_type := "IoTextra Analog V2";
   channels := [sensor "Sensor A" "0b10000011" 0;
                sensor "Sensor B" "0b10100001" 1;
                sensor "Sensor C" "0b10000011" 2;
                sensor "Sensor D" "0b10100001" 3];
   network := {| wifi_ssid := "vodafone0D3826";
                 wifi_password := "hRZPPZZmygccaP76" |};
   mqtt := {| broker := "Schrodinger.local";
              port := 1883;
              client_id := "pico-iotextra-controller-1";
              base_topic := "iotextra/device_1" |};
   hardware := {| mode := "i2c";
                  i2c_bus_id := 0;
                  i2c_sda_pin := 20;
                  i2c_scl_pin := 21;
                  i2c_device_addr := "0x3f";
                  eeprom_i2c_addr := "0x57";
                  eeprom_size := Some 1024;
                  gpio_host_pins :=
                    list_to_map [("1", 10); ("2", 11); ("3", 12); ("4", 13);
                                 ("5", 14); ("6", 15); ("7", 18); ("8", 19)]%string;
                  adc_i2c_addrs := Some ["0x49"; "0x4B"]%string;
                  num_of_adcs := Some 2;
                  adc_sampling_rate := Some 128 |};
   pin_config := "0b00001111";
   status_update_interval_s := 30 |}.

(** A fixed-point field that may be absent. *)
Definition pack_optional_fixed_point (o : option float) : res bytes :=
  match o with
  | Some v => pack_fixed_point v
  | None => Ok []
  end.

(** The fields of a channel that come before the fixed-point fields. *)
Definition pack_channel_head (ch : Channel) : res bytes :=
  b_name ← pack_string (name ch);
  ct ← int_of_str 10 (channel_type ch);
  it ← int_of_str 10 (interface_type ch);
  b_range ← match measurement_range ch with
            | Some r => v ← int_of_str 2 r; Ok (pack_B v)
            | None => Ok []
            end;
  Ok (b_name ++ pack_B ct ++ pack_B it
      ++ pack_B (channel_number ch) ++ pack_B (actions ch)
      ++ pack_B (adc_fields_present ch)
      ++ b_range
      ++ match adc_hardware_gain ch with
         | Some g => pack_f g
         | None => []
         end).

(** The first test channel with its shunt resistance negated. *)
Definition analog : Channel :=
  with_shunt_resistance (Some (-0x1.fdf3b645a1cacp-3)%float)
    (sensor "Sensor A" "0b10000011" 0).

(** The record with other channels. *)
Definition with_channels (chs : list Channel) (cfg : Config) : Config :=
  {| module_type := module_type cfg;
     mezzanine_type := mezzanine_type cfg;
     channels := chs;
     network := network cfg;
     mqtt := mqtt cfg;
     hardware := hardware cfg;
     pin_config := pin_config cfg;
     status_update_interval_s := status_update_interval_s cfg |}.

(** The test configuration with the shunt resistance of its second
    channel negated. *)
Definition negated_cfg : Config :=
  with_channels [sensor "Sensor A" "0b10000011" 0;
                 with_shunt_resistance (Some (-0x1.fdf3b645a1cacp-3)%float)
                   (sensor "Sensor B" "0b10100001" 1);
                 sensor "Sensor C" "0b10000011" 2;
                 sensor "Sensor D" "0b10100001" 3] test_cfg.

(** The first test channel with a shunt resistance of -1e306, whose
    thousandfold is not finite. *)
Definition steep : Channel :=
  with_shunt_resistance (Some (-0x1.6c8e5ca239029p+1016)%float)
    (sensor "Sensor A" "0b10000011" 0).

(** 0.0005 *)
Definition tolerance : float := 0x1.0624dd2f1a9fcp-11.

(** [|decoded - original| < tol], as a test would compute it. *)
Definition close (tol original decoded : float) : bool :=
  PrimFloat.ltb (PrimFloat.abs (PrimFloat.sub decoded original)) tol.

Definition option_agrees {A} (eq : A -> A -> bool) (o o' : option A) : bool :=
  match o, o' with
  | Some a, Some a' => eq a a'
  | None, None => true
  | _, _ => false
  end.

Fixpoint list_agrees {A} (eq : A -> A -> bool) (l l' : list A) : bool :=
  match l, l' with
  | [], [] => true
  | a :: r, a' :: r' => eq a a' && list_agrees eq r r'
  | _, _ => false
  end.

(** Field for field, with the fixed-point fields within [tol]. *)
Definition channel_agrees (tol : float) (ch ch' : Channel) : bool :=
  String.eqb (name ch) (name ch')
  && String.eqb (channel_type ch) (channel_type ch')
  && String.eqb (interface_type ch) (interface_type ch')
  && (channel_number ch =? channel_number ch')
  && (actions ch =? actions ch')
  && option_agrees String.eqb (measurement_range ch) (measurement_range ch')
  && option_agrees PrimFloat.eqb (adc_hardware_gain ch) (adc_hardware_gain ch')
  && option_agrees (close tol) (shunt_resistance ch) (shunt_resistance ch')
  && option_agrees (close tol) (adc_offset ch) (adc_offset ch').

Definition hardware_agrees (hw hw' : Hardware) : bool :=
  String.eqb (mode hw) (mode hw')
  && (i2c_bus_id hw =? i2c_bus_id hw')
  && (i2c_sda_pin hw =? i2c_sda_pin hw')
  && (i2c_scl_pin hw =? i2c_scl_pin hw')
  && String.eqb (i2c_device_addr hw) (i2c_device_addr hw')
  && String.eqb (eeprom_i2c_addr hw) (eeprom_i2c_addr hw')
  && option_agrees Z.eqb (eeprom_size hw) (eeprom_size hw')
  && bool_decide (gpio_host_pins hw = gpio_host_pins hw')
  && option_agrees (list_agrees String.eqb) (adc_i2c_addrs hw) (adc_i2c_addrs hw')
  && option_agrees Z.eqb (num_of_adcs hw) (num_of_adcs hw')
  && option_agrees Z.eqb (adc_sampling_rate hw) (adc_sampling_rate hw').

Definition agrees (tol : float) (cfg cfg' : Config) : bool :=
  String.eqb (module_type cfg) (module_type cfg')
  && String.eqb (mezzanine_type cfg) (mezzanine_type cfg')
  && list_agrees (channel_agrees tol) (channels cfg) (channels cfg')
  && String.eqb (wifi_ssid (network cfg)) (wifi_ssid (network cfg'))
  && String.eqb (wifi_password (network cfg)) (wifi_password (network cfg'))
  && String.eqb (broker (mqtt cfg)) (broker (mqtt cfg'))
  && (port (mqtt cfg) =? port (mqtt cfg'))
  && String.eqb (client_id (mqtt cfg)) (client_id (mqtt cfg'))
  && String.eqb (base_topic (mqtt cfg)) (base_topic (mqtt cfg'))
  && hardware_agrees (hardware cfg) (hardware cfg')
  && String.eqb (pin_config cfg) (pin_config cfg')
  && (status_update_interval_s cfg =? status_update_interval_s cfg').

(** The test configuration written the way the decoder writes it, with a
    shunt resistance of 0.0009 in its only channel. *)
Definition fine_cfg : Config :=
  {| module_type := "IoTbase PICO";
     mezzanine_type := "IoTextra Analog V2";
     channels := [ {| name := "Sensor A";
                      channel_type := "2";
                      interface_type := "1";
                      channel_number := 0;
                      actions := 0;
                      measurement_range := Some "0b10000011"%string;
                      adc_hardware_gain := Some 0.5%float;
                      shunt_resistance := Some 0x1.d7dbf487fcb92p-11%float; (* 0.0009 *)
                      adc_offset := Some 0%float |} ];
     network := network test_cfg;
     mqtt := mqtt test_cfg;
     hardware := {| mode := "i2c";
                    i2c_bus_id := 0;
                    i2c_sda_pin := 20;
                    i2c_scl_pin := 21;
                    i2c_device_addr := "0x3f";
                    eeprom_i2c_addr := "0x57";
                    eeprom_size := Some 1024;
                    gpio_host_pins :=
                      list_to_map [("1", 10); ("2", 11); ("3", 12); ("4", 13);
                                   ("5", 14); ("6", 15); ("7", 2); ("8", 3)]%string;
                    adc_i2c_addrs := Some ["0x49"; "0x4b"]%string;
                    num_of_adcs := Some 2;
                    adc_sampling_rate := Some 128 |};
     pin_config := "0b00001111";
     status_update_interval_s := 30 |}.

Definition packed_test_cfg : bytes :=
  Eval vm_compute in
    match pack_config test_cfg with
    | Ok b => b
    | Raise _ => []
    end.

(** The test configuration with a shunt resistance of 0.0 in its second
    channel, and its bytes. *)
Definition zeroed_cfg : Config :=
  with_channels [sensor "Sensor A" "0b10000011" 0;
                 with_shunt_resistance (Some 0%float)
                   (sensor "Sensor B" "0b10100001" 1);
                 sensor "Sensor C" "0b10000011" 2;
                 sensor "Sensor D" "0b10100001" 3] test_cfg.

Definition packed_zeroed_cfg : bytes :=
  Eval vm_compute in
    match pack_config zeroed_cfg with
    | Ok b => b
    | Raise _ => []
    end.

(** What [unpack_config] returns for these bytes. *)
Definition decoded_test_cfg : Config :=
Eval vm_compute in
  match unpack_config packed_test_cfg with
  | Ok cfg => cfg
  | Raise _ => test_cfg
  end.

(** The test configuration without [num_of_adcs]. *)
Definition bare_cfg : Config := with_num_of_adcs None test_cfg.

(** The record with another status interval. *)
Definition with_status_update_interval_s (v : Z) (cfg : Config) : Config :=
  {| module_type := module_type cfg;
     mezzanine_type := mezzanine_type cfg;
     channels := channels cfg;
     network := network cfg;
     mqtt := mqtt cfg;
     hardware := hardware cfg;
     pin_config := pin_config cfg;
     status_update_interval_s := v |}.

(** The low four bits of a pin number. *)
Definition low_nibble (v : Z) : Z := Z.land v 0x0F.

Definition bytes_ok (b : bytes) : bool :=
  forallb (fun x => (0 <=? x) && (x <? 256)) b.

(** A text of [n] letters "a". *)
Fixpoint letters (n : nat) : string :=
  match n with
  | O => EmptyString
  | S n' => String "a" (letters n')
  end.

End config_serializer.

(** ** [EEPROM_driver.py] *)

Module EEPROM_driver.
Import Py.

(** *** The host platform

    [machine.I2C] and [time] are provided by the board.  A transaction
    that is not acknowledged raises [OSError]; here [i2c_writeto] answers
    whether it was acknowledged and [i2c_readfrom] answers [None] when it
    was not. *)
Class Machine (world : Type) : Type := {
  i2c_writeto : Z -> bytes -> world -> bool * world;
  i2c_readfrom : Z -> Z -> world -> option bytes * world;
  ticks_ms : world -> Z * world;
  ticks_diff : Z -> Z -> Z;
  sleep_ms : Z -> world -> world
}.

(** What the driver does on the bus and with the clock, in order. *)
Inductive event : Type :=
| Writeto (addr : Z) (buf : bytes) (ack : bool)
| Readfrom (addr : Z) (nbytes : Z) (data : option bytes)
| Ticks (t : Z)
| Sleep (ms : Z).

(** How a call ends; [More] stands for a polling loop that is still
    running when the iterations granted to it are used up. *)
Inductive outcome (A : Type) : Type :=
| Ret (a : A)
| Exc (e : exn)
| More.
Arguments Ret {A} a.
Arguments Exc {A} e.
Arguments More {A}.

Record EEPROM : Type := {
  base_address : Z;
  e2_bit : Z
}.

(** Constants *)
Definition MEMORY_SIZE : Z := 1024.
Definition PAGE_SIZE : Z := 16.
Definition MAX_WRITE_TIME_MS : Z := 10.

Definition _get_device_address (self : EEPROM) (memory_address : Z) : Z :=
  let a9_a8 := Z.land (Z.shiftr memory_address 8) 0x03 in
  let device_addr := Z.lor (Z.lor 0x57 (Z.shiftl (e2_bit self) 2)) a9_a8 in
  device_addr.

(** The message of the first error leaves out the formatted address. *)
Definition _validate_address (address length_ : Z) : res unit :=
  if (address <? 0) || (address >=? MEMORY_SIZE)
  then Raise (ValueError "Address out of range (0x000-0x3FF)")
  else if address + length_ >? MEMORY_SIZE
  then Raise (ValueError "Address + length exceeds memory size")
  else Ok tt.

Section Driver.
Context {world : Type} {machine : Machine world}.

(** A driver call: from a state of the world to an outcome, the state
    it leaves and the events it caused. *)
Definition M (A : Type) : Type := world -> outcome A * world * list event.

Definition ret {A} (a : A) : M A := fun w => (Ret a, w, []).
Definition raise {A} (e : exn) : M A := fun w => (Exc e, w, []).
Definition more {A} : M A := fun w => (More, w, []).

#[global] Instance M_bind : MBind M := fun A B k m w =>
  match m w with
  | (Ret a, w1, t1) => let '(o, w2, t2) := k a w1 in (o, w2, t1 ++ t2)
  | (Exc e, w1, t1) => (Exc e, w1, t1)
  | (More, w1, t1) => (More, w1, t1)
  end.

Definition lift {A} (r : res A) : M A :=
  match r with
  | Ok a => ret a
  | Raise e => raise e
  end.

(** One write transaction; answers whether it was acknowledged. *)
Definition writeto_ack (addr : Z) (buf : bytes) : M bool := fun w =>
  let '(ack, w') := i2c_writeto addr buf w in
  (Ret ack, w', [Writeto addr buf ack]).

(** [self.i2c.writeto(addr, buf)] *)
Definition writeto (addr : Z) (buf : bytes) : M unit :=
  ack ← writeto_ack addr buf;
  if ack : bool then ret tt else raise OSError.

(** [self.i2c.readfrom(addr, nbytes)] *)
Definition readfrom (addr nbytes : Z) : M bytes := fun w =>
  let '(r, w') := i2c_readfrom addr nbytes w in
  (match r with Some d => Ret d | None => Exc OSError end,
   w', [Readfrom addr nbytes r]).

Definition time_ticks_ms : M Z := fun w =>
  let '(t, w') := ticks_ms w in (Ret t, w', [Ticks t]).

Definition time_sleep_ms (ms : Z) : M unit := fun w =>
  (Ret tt, sleep_ms ms w, [Sleep ms]).

Definition _is_device_present (self : EEPROM) : M bool :=
  let device_addr := _get_device_address self 0 in
  writeto_ack device_addr [].

Definition init (address e2 : Z) : M EEPROM :=
  let self := {| base_address := address; e2_bit := Z.land e2 1 |} in
  present ← _is_device_present self;
  if present : bool then ret self
  else raise (RuntimeError "M24C08-R EEPROM not found").

(** The [while] loop of [_wait_write_complete], for at most [fuel]
    iterations. *)
Fixpoint poll_ack (fuel : nat) (device_addr timeout : Z) : M unit :=
  match fuel with
  | O => more
  | S fuel' =>
      now ← time_ticks_ms;
      if ticks_diff timeout now >? 0 then
        ack ← writeto_ack device_addr [];
        if ack : bool then ret tt
        else (_ ← time_sleep_ms 1; poll_ack fuel' device_addr timeout)
      else raise (RuntimeError "Write cycle timeout")
  end.

Definition _wait_write_complete (fuel : nat) (self : EEPROM)
    (memory_address : Z) : M unit :=
  let device_addr := _get_device_address self memory_address in
  t ← time_ticks_ms;
  let timeout := t + MAX_WRITE_TIME_MS * 3 in
  poll_ack fuel device_addr timeout.

Definition read_byte (self : EEPROM) (address : Z) : M Z :=
  _ ← lift (_validate_address address 1);
  let device_addr := _get_device_address self address in
  let addr_byte := Z.land address 0xFF in
  _ ← writeto device_addr [addr_byte];
  data ← readfrom device_addr 1;
  lift (getitem data 0).

(** The [while remaining > 0] loop of [read_bytes]; every iteration
    reads at least one byte, so [n] iterations suffice for [n] bytes. *)
Fixpoint read_loop (n : nat) (self : EEPROM) (data : bytes)
    (remaining current_addr : Z) : M bytes :=
  if remaining >? 0 then
    match n with
    | O => more
    | S n' =>
        let current_device_addr := _get_device_address self current_addr in
        let current_addr_byte := Z.land current_addr 0xFF in
        let bytes_to_read := Z.min remaining (256 - current_addr_byte) in
        _ ← writeto current_device_addr [current_addr_byte];
        chunk ← readfrom current_device_addr bytes_to_read;
        read_loop n' self (data ++ chunk)
          (remaining - bytes_to_read) (current_addr + bytes_to_read)
    end
  else ret data.

Definition read_bytes (self : EEPROM) (address length_ : Z) : M bytes :=
  _ ← lift (_validate_address address length_);
  read_loop (Z.to_nat length_) self [] length_ address.

Definition write_byte (fuel : nat) (self : EEPROM) (address value : Z)
  : M unit :=
  _ ← lift (_validate_address address 1);
  if (0 <=? value) && (value <=? 255) then
    let device_addr := _get_device_address self address in
    let addr_byte := Z.land address 0xFF in
    _ ← writeto device_addr [addr_byte; value];
    _wait_write_complete fuel self address
  else raise (ValueError "Value must be 0-255").

(** The [while offset < len(data)] loop of [write_bytes]; every
    iteration writes at least one byte. *)
Fixpoint write_loop (n : nat) (fuel : nat) (self : EEPROM)
    (address : Z) (data : bytes) (offset : Z) : M unit :=
  if offset <? len data then
    match n with
    | O => more
    | S n' =>
        let current_addr := address + offset in
        let page_start := (current_addr / PAGE_SIZE) * PAGE_SIZE in
        let bytes_left_in_page := PAGE_SIZE - (current_addr - page_start) in
        let chunk_size := Z.min bytes_left_in_page (len data - offset) in
        let chunk_data := slice data offset (offset + chunk_size) in
        let device_addr := _get_device_address self current_addr in
        let addr_byte := Z.land current_addr 0xFF in
        let write_data := [addr_byte] ++ chunk_data in
        _ ← writeto device_addr write_data;
        _ ← _wait_write_complete fuel self current_addr;
        write_loop n' fuel self address data (offset + chunk_size)
    end
  else ret tt.

(** [fuel] bounds the iterations of each wait for write completion. *)
Definition write_bytes (fuel : nat) (self : EEPROM) (address : Z)
    (data : bytes) : M unit :=
  _ ← lift (_validate_address address (len data));
  write_loop (List.length data) fuel self address data 0.

Definition erase_page (fuel : nat) (self : EEPROM) (page_number : Z)
  : M unit :=
  if (0 <=? page_number) && (page_number <? MEMORY_SIZE / PAGE_SIZE) then
    let address := page_number * PAGE_SIZE in
    let erase_data := List.repeat 0xFF (Z.to_nat PAGE_SIZE) in
    write_bytes fuel self address erase_data
  else raise (ValueError "Page number out of range (0-63)").

(** The [for page in range(...)] loop of [erase_all]. *)
Fixpoint erase_pages (fuel : nat) (self : EEPROM) (pages : list Z) : M unit :=
  match pages with
  | [] => ret tt
  | page :: rest =>
      _ ← erase_page fuel self page;
      erase_pages fuel self rest
  end.

(** [erase_all], without the progress messages it prints. *)
Definition erase_all (fuel : nat) (self : EEPROM) : M unit :=
  erase_pages fuel self
    (List.map Z.of_nat (List.seq 0 (Z.to_nat (MEMORY_SIZE / PAGE_SIZE)))).

(** The bus contract: a read of [n] bytes that succeeds returns [n]
    bytes. *)
Definition reads_in_full : Prop :=
  forall addr n w d w',
    0 <= n -> i2c_readfrom addr n w = (Some d, w') -> len d = n.

(** The clock contract: [ticks_ms] reads a time [now] that no operation
    sets back and that a sleep advances by at least the time slept, and
    [ticks_diff] is the difference (no wrap-around within the wait). *)
Definition steady_clock (now : world -> Z) : Prop :=
  (forall w, (ticks_ms w).1 = now w /\ now w <= now (ticks_ms w).2)
  /\ (forall ms w, now w + ms <= now (sleep_ms ms w))
  /\ (forall addr buf w, now w <= now (i2c_writeto addr buf w).2)
  /\ (forall a b, ticks_diff a b = a - b).

End Driver.

(** *** Reading a trace *)

(** The transactions that carry an address byte and data. *)
Fixpoint data_writes (tr : list event) : list (Z * bytes) :=
  match tr with
  | [] => []
  | Writeto addr (b :: payload) _ :: rest => (addr, b :: payload) :: data_writes rest
  | _ :: rest => data_writes rest
  end.

(** The read transactions, with the number of bytes asked for. *)
Fixpoint reads (tr : list event) : list (Z * Z) :=
  match tr with
  | [] => []
  | Readfrom addr n _ :: rest => (addr, n) :: reads rest
  | _ :: rest => reads rest
  end.

(** The bytes the read transactions returned, in order. *)
Fixpoint read_data (tr : list event) : bytes :=
  match tr with
  | [] => []
  | Readfrom _ _ (Some d) :: rest => d ++ read_data rest
  | _ :: rest => read_data rest
  end.

(** A transaction that was not acknowledged. *)
Definition failed (e : event) : Prop :=
  match e with
  | Writeto _ _ ack => ack = false
  | Readfrom _ _ d => d = None
  | _ => False
  end.

(** Nothing but the clock and zero-length probes of [dev]. *)
Definition probes_only (dev : Z) (tr : list event) : Prop :=
  Forall (fun e => match e with
                   | Writeto a b _ => a = dev /\ b = []
                   | Readfrom _ _ _ => False
                   | _ => True
                   end) tr.

(** Scans a trace of writes: [ready] tells whether the device has
    acknowledged a probe since the last data transaction.  The trace is
    in order when no data transaction is sent to a device that is not
    ready. *)
Fixpoint in_order (ready : bool) (tr : list event) : bool :=
  match tr with
  | [] => true
  | Writeto _ [] ack :: rest => in_order (ready || ack) rest
  | Writeto _ (_ :: _) _ :: rest => ready && in_order false rest
  | _ :: rest => in_order ready rest
  end.

Fixpoint ready_after (ready : bool) (tr : list event) : bool :=
  match tr with
  | [] => ready
  | Writeto _ [] ack :: rest => ready_after (ready || ack) rest
  | Writeto _ (_ :: _) _ :: rest => ready_after false rest
  | _ :: rest => ready_after ready rest
  end.

(** The number of zero-length probes. *)
Fixpoint probes (tr : list event) : nat :=
  match tr with
  | [] => O
  | Writeto _ [] _ :: rest => S (probes rest)
  | _ :: rest => probes rest
  end.

(** The page write that fills page [page_number] with 0xFF. *)
Definition page_erase (self : EEPROM) (page_number : Z) : Z * bytes :=
  (_get_device_address self (page_number * PAGE_SIZE),
   Z.land (page_number * PAGE_SIZE) 0xFF :: List.repeat 0xFF 16).

(** The sixteen page writes that fill the first 256-byte block with 0xFF. *)
Definition first_block_erase : list (Z * bytes) :=
  List.map (fun q => (0x57, 16 * Z.of_nat q :: List.repeat 0xFF 16))
    (List.seq 0 16).

(** *** Chunks, as the specification words them

    [block_ranges B addr n] cuts the [n] addresses from [addr] on at
    every multiple of [B]: the pairs are the start and the size of each
    run of addresses that share a block. *)
Fixpoint block_ranges (B addr : Z) (n : nat) : list (Z * Z) :=
  match n with
  | O => []
  | S n' =>
      match block_ranges B (addr + 1) n' with
      | (a, k) :: more_ =>
          if (addr + 1) mod B =? 0 then (addr, 1) :: (a, k) :: more_
          else (addr, k + 1) :: more_
      | [] => [(addr, 1)]
      end
  end.

(** What makes a list of ranges the cut of [n] addresses from [addr] at
    the multiples of [B]: the ranges follow one another from [addr], none
    is empty, none crosses a multiple of [B], and each one that is
    followed by another ends at a multiple of [B]. *)
Fixpoint tiles (B addr n : Z) (l : list (Z * Z)) : Prop :=
  match l with
  | [] => n = 0
  | (a, k) :: rest =>
      a = addr /\ 1 <= k <= n /\ (addr + k - 1) / B = addr / B
      /\ (rest <> [] -> (addr + k) mod B = 0)
      /\ tiles B (addr + k) (n - k) rest
  end.

(** The transactions expected of a read of [n] bytes at [address]: for
    each range a write of its address byte, then a read of its size. *)
Definition read_requests (self : EEPROM) (address : Z) (n : nat)
  : list (Z * Z) :=
  List.map (fun '(a, k) => (_get_device_address self a, k))
    (block_ranges 256 address n).

Definition set_address_requests (self : EEPROM) (address : Z) (n : nat)
  : list (Z * bytes) :=
  List.map (fun '(a, _) => (_get_device_address self a, [Z.land a 0xFF]))
    (block_ranges 256 address n).

(** The transaction that carries a range of the [data] written at
    [address]: the low address byte, then the bytes of the range. *)
Definition page_write (self : EEPROM) (address : Z) (data : bytes)
    (range : Z * Z) : Z * bytes :=
  let '(a, k) := range in
  (_get_device_address self a,
   Z.land a 0xFF :: slice data (a - address) (a - address + k)).

Definition page_writes (self : EEPROM) (address : Z) (data : bytes)
    (from : Z) : list (Z * bytes) :=
  List.map (page_write self address data)
    (block_ranges PAGE_SIZE (address + from) (Z.to_nat (len data - from))).

(** *** A bench device

    A device that acknowledges everything except the [cycle] probes that
    follow a write of data, on a clock that advances one millisecond per
    reading and per millisecond slept.  Reads return erased cells. *)
Record bench : Type := {
  clock : Z;
  cycle : nat;
  busy : nat
}.

#[global] Instance bench_machine : Machine bench := {|
  i2c_writeto addr buf w :=
    match buf, busy w with
    | [], S b => (false, {| clock := clock w; cycle := cycle w; busy := b |})
    | [], O => (true, w)
    | [_], _ => (true, w)
    | _ :: _ :: _, _ =>
        (true, {| clock := clock w; cycle := cycle w; busy := cycle w |})
    end;
  i2c_readfrom addr n w := (Some (List.repeat 0xFF (Z.to_nat n)), w);
  ticks_ms w := (clock w, {| clock := clock w + 1; cycle := cycle w; busy := busy w |});
  ticks_diff a b := a - b;
  sleep_ms ms w := {| clock := clock w + ms; cycle := cycle w; busy := busy w |}
|}.

Definition chip : EEPROM := {| base_address := 0x57; e2_bit := 0 |}.
Definition idle : bench := {| clock := 0; cycle := 2; busy := 0 |}.

(** A device that is still busy after a hundred probes. *)
Definition dead : bench := {| clock := 0; cycle := 2; busy := 100 |}.

End EEPROM_driver.

(** ** [analog_driver.py] *)

Module analog_driver.
Import Py.

(** [l[i]] on a list *)
Definition list_getitem {A} (l : list A) (i : Z) : res A :=
  let j := if i <? 0 then i + len l else i in
  if j <? 0 then Raise IndexError
  else match List.nth_error l (Z.to_nat j) with
       | Some a => Ok a
       | None => Raise IndexError
       end.

(** [_get_adc_for_channel] on the list of ADC instances: the ADC and the
    pair of its inputs that measure a channel; [None] stands for the pair
    [(None, None)] it returns when there is no such ADC. *)
Definition _get_adc_for_channel {A} (adcs : list A) (channel_number : Z)
  : res (option (A * (Z * Z))) :=
  let adc_index := channel_number / 2 in
  let pair_index := channel_number mod 2 in
  if adc_index >=? len adcs then Ok None
  else
    adc ← list_getitem adcs adc_index;
    if pair_index =? 0 then Ok (Some (adc, (0, 1)))
    else Ok (Some (adc, (2, 3))).

End analog_driver.

(** * Properties *)

(** ** The interpreter, on examples *)

Example py_hex_63 : Py.hex 63 = "0x3f"%string.
Proof. reflexivity. Qed.
Example py_fmt : Py.format_08b 131 = "10000011"%string /\ Py.format_08b 5 = "00000101"%string.
Proof. split; reflexivity. Qed.
Example py_str : Py.str_of_int 0 = "0"%string /\ Py.str_of_int 255 = "255"%string /\ Py.str_of_int 21 = "21"%string.
Proof. repeat split; reflexivity. Qed.
Example py_int : Py.int_of_str 10 "01" = Py.Ok 1 /\ Py.int_of_str 2 "0b10000011" = Py.Ok 131
  /\ Py.int_of_str 16 "0x4B" = Py.Ok 75 /\ Py.is_ok (Py.int_of_str 16 "0x") = false.
Proof. repeat split; reflexivity. Qed.

(** ** Device addressing *)

Section Addressing.
Import Py EEPROM_driver.

Lemma land_1_cases (x : Z) : Z.land x 1 = 0 \/ Z.land x 1 = 1.
Proof.
  assert (H : Z.land x 1 = x mod 2) by apply (Z.land_ones x 1 ltac:(lia)).
  rewrite H. pose proof (Z.mod_pos_bound x 2). lia.
Qed.

Lemma land_3_cases (x : Z) :
  Z.land x 3 = 0 \/ Z.land x 3 = 1 \/ Z.land x 3 = 2 \/ Z.land x 3 = 3.
Proof.
  assert (H : Z.land x 3 = x mod 4) by apply (Z.land_ones x 2 ltac:(lia)).
  rewrite H. pose proof (Z.mod_pos_bound x 4). lia.
Qed.

Lemma land_255_mod (x : Z) : Z.land x 0xFF = x mod 256.
Proof. change 0xFF with (Z.ones 8). rewrite Z.land_ones by lia. reflexivity. Qed.

(** Whatever the address, a driver built by [init] selects 0x57. *)
Lemma device_address_constant (self : EEPROM) (memory_address : Z) :
  e2_bit self = 0 \/ e2_bit self = 1 ->
  _get_device_address self memory_address = 0x57.
Proof.
  intros He. unfold _get_device_address.
  destruct (land_3_cases (Z.shiftr memory_address 8)) as [H|[H|[H|H]]];
    rewrite H; destruct He as [-> | ->]; reflexivity.
Qed.

(** C1: the select code is [0x57 | e2_bit << 2 | bits 8-9], but the base
    0x57 has its three low bits set already, so the code is 0x57 for every
    address: 255 and 256, whose bits 8-9 differ, get the same one. *)
Theorem device_select_same_across_blocks :
  (forall address e2 memory_address,
      _get_device_address
        {| base_address := address; e2_bit := Z.land e2 1 |} memory_address
      = 0x57)
  /\ _get_device_address {| base_address := 0x57; e2_bit := 0 |} 255
     = _get_device_address {| base_address := 0x57; e2_bit := 0 |} 256
  /\ Z.land (Z.shiftr 255 8) 0x03 <> Z.land (Z.shiftr 256 8) 0x03.
Proof.
  split; [|split].
  - intros. apply device_address_constant. cbn [e2_bit]. apply land_1_cases.
  - reflexivity.
  - discriminate.
Qed.

End Addressing.

(** ** Chunks and traces *)

Section Chunks.
Import Py EEPROM_driver.

Lemma succ_mod (B a : Z) :
  0 < B ->
  ((a + 1) mod B = 0 /\ a mod B = B - 1)
  \/ ((a + 1) mod B <> 0 /\ (a + 1) mod B = a mod B + 1).
Proof.
  intros HB. pose proof (Z.mod_pos_bound a B HB) as Ha.
  rewrite <- (Zplus_mod_idemp_l a 1 B).
  destruct (Z.eq_dec (a mod B + 1) B) as [E|E].
  - left. rewrite E, Z_mod_same_full. lia.
  - right. rewrite Z.mod_small by lia. lia.
Qed.

(** The first range ends at the next multiple of [B] or with the data,
    whichever comes first. *)
Lemma block_ranges_step (B addr : Z) (n : nat) :
  0 < B -> (0 < n)%nat ->
  let k := Z.min (Z.of_nat n) (B - addr mod B) in
  block_ranges B addr n
  = (addr, k) :: block_ranges B (addr + k) (n - Z.to_nat k).
Proof.
  intros HB. revert addr. induction n as [|n IH]; intros addr Hn; [lia|].
  pose proof (Z.mod_pos_bound addr B HB) as Ha.
  cbn [block_ranges]. destruct n as [|n'].
  - cbn [block_ranges]. cbv zeta.
    replace (Z.min (Z.of_nat 1) (B - addr mod B)) with 1 by lia.
    reflexivity.
  - specialize (IH (addr + 1) ltac:(lia)). cbv zeta in IH |- *.
    rewrite IH.
    destruct (succ_mod B addr HB) as [[E1 E2]|[E1 E2]].
    + destruct (Z.eqb_spec ((addr + 1) mod B) 0) as [_|]; [|contradiction].
      replace (Z.min (Z.of_nat (S (S n'))) (B - addr mod B)) with 1 by lia.
      replace (S (S n') - Z.to_nat 1)%nat with (S n') by lia.
      rewrite IH. reflexivity.
    + destruct (Z.eqb_spec ((addr + 1) mod B) 0) as [|_]; [contradiction|].
      rewrite E2.
      set (k' := Z.min (Z.of_nat (S n')) (B - (addr mod B + 1))).
      replace (Z.min (Z.of_nat (S (S n'))) (B - addr mod B)) with (k' + 1)
        by (unfold k'; lia).
      replace (addr + 1 + k') with (addr + (k' + 1)) by lia.
      replace (S (S n') - Z.to_nat (k' + 1))%nat with (S n' - Z.to_nat k')%nat
        by (unfold k'; lia).
      reflexivity.
Qed.

Lemma block_ranges_nil (B addr : Z) (n : nat) :
  block_ranges B addr n = [] -> n = O.
Proof.
  destruct n as [|n]; [reflexivity|]. cbn [block_ranges].
  destruct (block_ranges B (addr + 1) n) as [|[a k] l]; [discriminate|].
  destruct (_ =? _); discriminate.
Qed.

Lemma block_ranges_tiles (B : Z) (n : nat) :
  0 < B -> forall addr, tiles B addr (Z.of_nat n) (block_ranges B addr n).
Proof.
  intros HB. induction n as [n IH] using lt_wf_ind. intros addr.
  destruct n as [|n]; [reflexivity|].
  rewrite block_ranges_step by lia. cbv zeta.
  set (k := Z.min (Z.of_nat (S n)) (B - addr mod B)).
  pose proof (Z.mod_pos_bound addr B HB) as Ha.
  assert (Hk : 1 <= k <= Z.of_nat (S n)) by (unfold k; lia).
  cbn [tiles]. repeat split; try lia.
  - symmetry. apply (Z.div_unique _ _ _ (addr mod B + k - 1)); [unfold k; lia|].
    pose proof (Z.div_mod addr B ltac:(lia)). lia.
  - intros Hne.
    assert (S n - Z.to_nat k <> 0)%nat
      by (intros E; apply Hne; rewrite E; reflexivity).
    assert (k = B - addr mod B) by (unfold k; lia).
    replace (addr + k) with (addr mod B + k + B * (addr / B))
      by (pose proof (Z.div_mod addr B ltac:(lia)); lia).
    rewrite Z.mul_comm, Z_mod_plus_full.
    replace (addr mod B + k) with B by lia. apply Z_mod_same_full.
  - replace (Z.of_nat (S n) - k) with (Z.of_nat (S n - Z.to_nat k)) by lia.
    apply IH. lia.
Qed.

End Chunks.

Section Traces.
Import Py EEPROM_driver.

Lemma data_writes_app (t1 t2 : list event) :
  data_writes (t1 ++ t2) = data_writes t1 ++ data_writes t2.
Proof.
  induction t1 as [|[a [|b p] k | | |] t1 IH]; cbn; rewrite ?IH; reflexivity.
Qed.

Lemma reads_app (t1 t2 : list event) :
  reads (t1 ++ t2) = reads t1 ++ reads t2.
Proof.
  induction t1 as [|[| | |] t1 IH]; cbn; rewrite ?IH; reflexivity.
Qed.

Lemma ready_after_app (r : bool) (t1 t2 : list event) :
  ready_after r (t1 ++ t2) = ready_after (ready_after r t1) t2.
Proof.
  revert r. induction t1 as [|[a [|b p] k | | |] t1 IH]; intros r; cbn;
    rewrite ?IH; reflexivity.
Qed.

Lemma in_order_app (r : bool) (t1 t2 : list event) :
  in_order r (t1 ++ t2) = in_order r t1 && in_order (ready_after r t1) t2.
Proof.
  revert r. induction t1 as [|[a [|b p] k | | |] t1 IH]; intros r; cbn;
    rewrite ?IH; try reflexivity.
  rewrite andb_assoc. reflexivity.
Qed.

End Traces.

(** ** Reading *)

Section Reading.
Import Py EEPROM_driver.
Context {world : Type} {machine : Machine world}.

Lemma run_bind {A B} (m : M A) (k : A -> M B) (w : world) :
  (m ≫= k) w =
  match m w with
  | (Ret a, w1, t1) => let '(o, w2, t2) := k a w1 in (o, w2, t1 ++ t2)
  | (Exc e, w1, t1) => (Exc e, w1, t1)
  | (More, w1, t1) => (More, w1, t1)
  end.
Proof. reflexivity. Qed.

Lemma run_writeto (addr : Z) (buf : bytes) (w : world) :
  writeto addr buf w =
  let '(ack, w') := i2c_writeto addr buf w in
  (if ack then Ret tt else Exc OSError, w', [Writeto addr buf ack]).
Proof.
  unfold writeto. rewrite run_bind. unfold writeto_ack.
  destruct (i2c_writeto addr buf w) as [[|] w']; reflexivity.
Qed.

Lemma read_loop_spec (self : EEPROM) (n : nat) :
  forall data remaining current_addr w,
    0 <= remaining <= Z.of_nat n ->
    let '(o, _, tr) := read_loop n self data remaining current_addr w in
    reads tr `prefix_of` read_requests self current_addr (Z.to_nat remaining)
    /\ match o with
       | Ret d =>
           reads tr = read_requests self current_addr (Z.to_nat remaining)
           /\ data_writes tr
              = set_address_requests self current_addr (Z.to_nat remaining)
           /\ d = data ++ read_data tr
           /\ (reads_in_full -> len (read_data tr) = remaining)
       | Exc e => e = OSError /\ exists ev, last tr = Some ev /\ failed ev
       | More => False
       end.
Proof.
  induction n as [|n IH]; intros data remaining cur w Hrem.
  - assert (remaining = 0) as -> by lia. cbn. split; [reflexivity|].
    rewrite app_nil_r. auto.
  - cbn [read_loop]. destruct (Z.gtb_spec remaining 0) as [Hpos|Hz].
    2:{ assert (remaining = 0) as -> by lia. cbn. split; [reflexivity|].
        rewrite app_nil_r. auto. }
    unfold read_requests, set_address_requests.
    rewrite (block_ranges_step 256 cur (Z.to_nat remaining)) by lia.
    cbv zeta. rewrite land_255_mod.
    set (k := Z.min remaining (256 - cur mod 256)).
    replace (Z.min (Z.of_nat (Z.to_nat remaining)) (256 - cur mod 256))
      with k by (unfold k; lia).
    pose proof (Z.mod_pos_bound cur 256 ltac:(lia)) as Hm.
    assert (Hk : 1 <= k <= remaining) by (unfold k; lia).
    cbn [List.map].
    rewrite run_bind, run_writeto.
    destruct (i2c_writeto _ _ w) as [[|] w1].
    2:{ split; [apply prefix_nil | split; [reflexivity|]].
        eexists. split; [reflexivity | reflexivity]. }
    rewrite run_bind. unfold readfrom at 1.
    destruct (i2c_readfrom _ k w1) as [[d|] w2] eqn:Er.
    2:{ cbn. split; [apply prefix_cons, prefix_nil|]. split; [reflexivity|].
        eexists. split; reflexivity. }
    specialize (IH (data ++ d) (remaining - k) (cur + k) w2 ltac:(lia)).
    destruct (read_loop n self (data ++ d) (remaining - k) (cur + k) w2)
      as [[o w3] tr].
    replace (Z.to_nat remaining - Z.to_nat k)%nat
      with (Z.to_nat (remaining - k)) by lia.
    fold (read_requests self (cur + k) (Z.to_nat (remaining - k))).
    fold (set_address_requests self (cur + k) (Z.to_nat (remaining - k))).
    destruct IH as [Hp Ho]. cbn. split; [apply prefix_cons, Hp|].
    destruct o as [r|e|]; [| |exact Ho].
    + destruct Ho as (-> & -> & -> & Hlen). rewrite land_255_mod.
      repeat split; [rewrite app_assoc; reflexivity|].
      intros Hfull. pose proof (Hfull _ k _ _ _ ltac:(lia) Er) as Hd.
      specialize (Hlen Hfull). unfold len in *. rewrite length_app. lia.
    + destruct Ho as (-> & ev & Hl & Hf). split; [reflexivity|].
      exists ev. split; [|exact Hf].
      destruct tr as [|x tr]; [discriminate|]. exact Hl.
Qed.

End Reading.

(** ** Writing *)

Section Writing.
Import Py EEPROM_driver.
Context {world : Type} {machine : Machine world}.

Lemma probes_only_data_writes dev tr : probes_only dev tr -> data_writes tr = [].
Proof.
  induction 1 as [|[a b k| | |] tr H _ IH]; cbn; auto; try contradiction.
  destruct H as [_ ->]. exact IH.
Qed.

Lemma probes_only_in_order dev tr :
  probes_only dev tr -> forall r, in_order r tr = true.
Proof.
  induction 1 as [|[a b k| | |] tr H _ IH]; intros r; cbn; auto;
    try contradiction.
  destruct H as [_ ->]. apply IH.
Qed.

Lemma ready_after_acked (r : bool) (tr : list event) (dev : Z) :
  last tr = Some (Writeto dev [] true) -> ready_after r tr = true.
Proof.
  intros H. apply last_Some in H as [l ->].
  rewrite ready_after_app. cbn. apply orb_true_r.
Qed.

Lemma last_cons_cons {A} (x y : A) (l : list A) : last (x :: y :: l) = last (y :: l).
Proof. reflexivity. Qed.

Lemma poll_ack_spec (fuel : nat) (dev timeout : Z) :
  forall w,
    let '(o, _, tr) := poll_ack fuel dev timeout w in
    probes_only dev tr
    /\ match o with
       | Ret _ => last tr = Some (Writeto dev [] true)
       | Exc e =>
           e = RuntimeError "Write cycle timeout"
           /\ exists t, last tr = Some (Ticks t) /\ ticks_diff timeout t <= 0
       | More => (fuel = O /\ tr = []) \/ last tr = Some (Sleep 1)
       end.
Proof.
  induction fuel as [|fuel IH]; intros w.
  - cbn. split; [constructor | left; split; reflexivity].
  - cbn [poll_ack]. rewrite run_bind. unfold time_ticks_ms at 1.
    destruct (ticks_ms w) as [t w1].
    destruct (Z.gtb_spec (ticks_diff timeout t) 0) as [Hlt|Hge].
    2:{ cbn. split; [repeat constructor|]. split; [reflexivity|].
        exists t. split; [reflexivity | lia]. }
    rewrite run_bind. unfold writeto_ack at 1.
    destruct (i2c_writeto dev [] w1) as [[|] w2].
    { cbn. split; [repeat constructor | reflexivity]. }
    rewrite run_bind. unfold time_sleep_ms at 1.
    specialize (IH (sleep_ms 1 w2)).
    destruct (poll_ack fuel dev timeout (sleep_ms 1 w2)) as [[o w3] tr].
    destruct IH as [Hp Ho]. cbn. split; [repeat constructor; exact Hp|].
    destruct o as [[]|e|].
    + destruct tr as [|x tr]; [discriminate|]. exact Ho.
    + destruct Ho as (-> & t' & Hl & Ht). split; [reflexivity|].
      exists t'. split; [|exact Ht].
      destruct tr as [|x tr]; [discriminate|]. exact Hl.
    + right. destruct Ho as [[_ ->]|Hl]; [reflexivity|].
      destruct tr as [|x tr]; [discriminate|]. exact Hl.
Qed.

Lemma wait_write_complete_spec (fuel : nat) (self : EEPROM) (memory_address : Z) :
  forall w,
    let '(o, _, tr) := _wait_write_complete fuel self memory_address w in
    let dev := _get_device_address self memory_address in
    probes_only dev tr
    /\ exists t0 tr',
        tr = Ticks t0 :: tr'
        /\ match o with
           | Ret _ => last tr = Some (Writeto dev [] true)
           | Exc e =>
               e = RuntimeError "Write cycle timeout"
               /\ exists t, last tr = Some (Ticks t)
                            /\ ticks_diff (t0 + MAX_WRITE_TIME_MS * 3) t <= 0
           | More => fuel = O \/ last tr = Some (Sleep 1)
           end.
Proof.
  intros w. unfold _wait_write_complete. rewrite run_bind.
  unfold time_ticks_ms at 1. destruct (ticks_ms w) as [t0 w1].
  pose proof (poll_ack_spec fuel (_get_device_address self memory_address)
                (t0 + MAX_WRITE_TIME_MS * 3) w1) as H.
  destruct (poll_ack fuel _ _ w1) as [[o w2] tr]. destruct H as [Hp Ho].
  cbn. split; [constructor; [exact I | exact Hp]|].
  exists t0, tr. split; [reflexivity|].
  destruct o as [[]|e|].
  - destruct tr as [|x tr]; [discriminate|]. exact Ho.
  - destruct Ho as (-> & t & Hl & Ht). split; [reflexivity|].
    exists t. split; [|exact Ht].
    destruct tr as [|x tr]; [discriminate|]. exact Hl.
  - destruct Ho as [[-> _]|Hl]; [left; reflexivity|right].
    destruct tr as [|x tr]; [discriminate|]. exact Hl.
Qed.

Lemma write_loop_spec (self : EEPROM) (fuel : nat) (address : Z) (data : bytes)
    (n : nat) :
  forall offset w,
    0 <= offset -> len data - offset <= Z.of_nat n ->
    let '(o, _, tr) := write_loop n fuel self address data offset w in
    data_writes tr `prefix_of` page_writes self address data offset
    /\ in_order true tr = true
    /\ match o with
       | Ret _ =>
           data_writes tr = page_writes self address data offset
           /\ ready_after true tr = true
       | Exc e =>
           (e = OSError
            /\ exists a b, last tr = Some (Writeto a b false) /\ b <> [])
           \/ (e = RuntimeError "Write cycle timeout"
               /\ exists t, last tr = Some (Ticks t))
       | More => fuel = O \/ last tr = Some (Sleep 1)
       end.
Proof.
  induction n as [|n IH]; intros offset w Ho Hn.
  - cbn [write_loop]. destruct (Z.ltb_spec offset (len data)); [lia|].
    unfold page_writes. replace (Z.to_nat (len data - offset)) with O by lia.
    cbn. repeat split; reflexivity.
  - cbn [write_loop]. destruct (Z.ltb_spec offset (len data)) as [Hlt|Hge].
    2:{ unfold page_writes. replace (Z.to_nat (len data - offset)) with O by lia.
        cbn. repeat split; reflexivity. }
    unfold page_writes.
    rewrite (block_ranges_step PAGE_SIZE (address + offset)) by (unfold PAGE_SIZE; lia).
    cbv zeta.
    set (cur := address + offset).
    replace (PAGE_SIZE - (cur - cur / PAGE_SIZE * PAGE_SIZE))
      with (PAGE_SIZE - cur mod PAGE_SIZE)
      by (rewrite (Z.mod_eq cur PAGE_SIZE) by (unfold PAGE_SIZE; lia); lia).
    pose proof (Z.mod_pos_bound cur PAGE_SIZE ltac:(unfold PAGE_SIZE; lia)) as Hm.
    set (k := Z.min (PAGE_SIZE - cur mod PAGE_SIZE) (len data - offset)).
    replace (Z.min (Z.of_nat (Z.to_nat (len data - offset)))
               (PAGE_SIZE - cur mod PAGE_SIZE)) with k by (unfold k; lia).
    assert (Hk : 1 <= k <= len data - offset) by (unfold k; lia).
    cbn [List.map page_write].
    replace (cur - address) with offset by (unfold cur; lia).
    rewrite run_bind, run_writeto.
    destruct (i2c_writeto _ _ w) as [[|] w1].
    2:{ cbn. split; [apply prefix_cons, prefix_nil|]. split; [reflexivity|].
        left. split; [reflexivity|]. eexists _, _. split; [reflexivity|discriminate]. }
    rewrite run_bind.
    pose proof (wait_write_complete_spec fuel self cur w1) as Hw.
    destruct (_wait_write_complete fuel self cur w1) as [[ow w2] trw].
    cbv zeta in Hw. destruct Hw as (Hp & t0 & tr' & Htr & Hlast).
    pose proof (probes_only_data_writes _ _ Hp) as Hdw.
    pose proof (probes_only_in_order _ _ Hp) as Hio.
    destruct ow as [[]|e|].
    2:{ cbn. rewrite Hdw, Hio. split; [apply prefix_cons, prefix_nil|].
        split; [reflexivity|]. right. destruct Hlast as (-> & t & Hl & _).
        split; [reflexivity|]. exists t. rewrite Htr in *. exact Hl. }
    2:{ cbn. rewrite Hdw, Hio. split; [apply prefix_cons, prefix_nil|].
        split; [reflexivity|]. destruct Hlast as [->|Hl]; [left; reflexivity|].
        right. rewrite Htr in *. exact Hl. }
    specialize (IH (offset + k) w2 ltac:(lia) ltac:(lia)).
    destruct (write_loop n fuel self address data (offset + k) w2) as [[o w3] tr].
    unfold page_writes in IH.
    replace (address + (offset + k)) with (cur + k) in IH by (unfold cur; lia).
    replace (Z.to_nat (len data - (offset + k)))
      with (Z.to_nat (len data - offset) - Z.to_nat k)%nat in IH by lia.
    destruct IH as (Hpre & Hord & Hout).
    cbn. rewrite data_writes_app, in_order_app, Hdw, Hio.
    rewrite (ready_after_acked false trw _ Hlast), Hord. cbn.
    split; [apply prefix_cons, Hpre|]. split; [reflexivity|].
    assert (Hl : tr <> [] -> last (Writeto (_get_device_address self cur)
                   (Z.land cur 255 :: slice data offset (offset + k)) true
                   :: trw ++ tr) = last tr).
    { intros Hne. rewrite Htr. cbn [app]. rewrite !last_cons_cons.
      change (Ticks t0 :: tr' ++ tr) with ((Ticks t0 :: tr') ++ tr).
      rewrite last_app. destruct (last tr) eqn:E; [reflexivity|].
      apply last_None in E. contradiction. }
    destruct o as [[]|e|].
    + destruct Hout as [-> Hr]. split; [reflexivity|].
      rewrite ready_after_app, (ready_after_acked false trw _ Hlast). exact Hr.
    + destruct Hout as [(-> & a & b & Hla & Hb)|(-> & t & Hla)].
      * left. split; [reflexivity|]. exists a, b. split; [|exact Hb].
        rewrite Hl; [exact Hla|]. intros ->. discriminate.
      * right. split; [reflexivity|]. exists t.
        rewrite Hl; [exact Hla|]. intros ->. discriminate.
    + destruct Hout as [->|Hla]; [left; reflexivity|right].
      rewrite Hl; [exact Hla|]. intros ->. discriminate.
Qed.

End Writing.

(** ** The driver's claims *)

Section DriverClaims.
Import Py EEPROM_driver.
Context {world : Type} {machine : Machine world}.

Lemma run_lift_ok {A B} (r : res A) (a : A) (k : A -> M B) (w : world) :
  r = Ok a -> (lift r ≫= k) w = k a w.
Proof.
  intros ->. rewrite run_bind. cbn. destruct (k a w) as [[o w'] tr]. reflexivity.
Qed.

Lemma run_lift_raise {A B} (r : res A) (e : exn) (k : A -> M B) (w : world) :
  r = Raise e -> (lift r ≫= k) w = (Exc e, w, []).
Proof. intros ->. reflexivity. Qed.

Lemma validate_rejects (address length_ : Z) :
  address + length_ > MEMORY_SIZE ->
  exists msg, _validate_address address length_ = Raise (ValueError msg).
Proof.
  intros H. unfold _validate_address.
  destruct ((address <? 0) || (address >=? MEMORY_SIZE)); [eauto|].
  destruct (Z.gtb_spec (address + length_) MEMORY_SIZE); [eauto | lia].
Qed.

Lemma validate_accepts (address length_ : Z) :
  0 <= address < MEMORY_SIZE -> address + length_ <= MEMORY_SIZE ->
  _validate_address address length_ = Ok tt.
Proof.
  intros H1 H2. unfold _validate_address.
  destruct (Z.ltb_spec address 0); [lia|].
  destruct (Z.geb_spec address MEMORY_SIZE); [lia|]. cbn [orb].
  destruct (Z.gtb_spec (address + length_) MEMORY_SIZE); [lia | reflexivity].
Qed.

(** C4 (amended): a transfer that would end past the last cell is refused
    with [ValueError] before anything is sent; a transfer that starts
    inside the memory and ends exactly at its end passes the check, so
    neither [read_bytes] nor [write_bytes] raises [ValueError]. *)
Theorem range_check (fuel : nat) (self : EEPROM) (address length_ : Z)
    (data : bytes) (w : world) :
  (address + length_ > MEMORY_SIZE ->
   exists msg, read_bytes self address length_ w = (Exc (ValueError msg), w, []))
  /\ (address + len data > MEMORY_SIZE ->
      exists msg,
        write_bytes fuel self address data w = (Exc (ValueError msg), w, []))
  /\ (0 <= address < MEMORY_SIZE ->
      (address + length_ = MEMORY_SIZE ->
       forall msg, (read_bytes self address length_ w).1.1 <> Exc (ValueError msg))
      /\ (address + len data = MEMORY_SIZE ->
          forall msg,
            (write_bytes fuel self address data w).1.1 <> Exc (ValueError msg))).
Proof.
  split; [|split].
  - intros H. destruct (validate_rejects _ _ H) as [msg E]. exists msg.
    unfold read_bytes. apply run_lift_raise. exact E.
  - intros H. destruct (validate_rejects _ _ H) as [msg E]. exists msg.
    unfold write_bytes. apply run_lift_raise. exact E.
  - intros Ha. split; intros He msg.
    + unfold read_bytes.
      rewrite (run_lift_ok _ tt) by (apply validate_accepts; lia).
      pose proof (read_loop_spec self (Z.to_nat length_) [] length_ address w
                    ltac:(unfold MEMORY_SIZE in *; lia)) as H.
      destruct (read_loop _ _ _ _ _ w) as [[o w'] tr]. cbn.
      destruct H as [_ H]. destruct o as [d|e|]; [discriminate| |discriminate].
      destruct H as [-> _]. discriminate.
    + unfold write_bytes.
      rewrite (run_lift_ok _ tt) by (apply validate_accepts; lia).
      pose proof (write_loop_spec self fuel address data (List.length data) 0 w
                    ltac:(lia) ltac:(unfold len; lia)) as H.
      destruct (write_loop _ _ _ _ _ _ w) as [[o w'] tr]. cbn.
      destruct H as (_ & _ & H). destruct o as [d|e|]; [discriminate| |discriminate].
      destruct H as [[-> _]|[-> _]]; discriminate.
Qed.

(** C5: the data transactions of [write_bytes] are, in order, the ranges
    that cut the written addresses at the multiples of the page size, each
    sent once with its address byte; a failure stops the sequence but never
    changes it.  Twenty bytes at address 10 are cut into 6 bytes at 10 and
    14 bytes at 16. *)
Theorem write_bytes_page_chunks (fuel : nat) (self : EEPROM) (address : Z)
    (data : bytes) (w : world) :
  let ranges := block_ranges PAGE_SIZE address (List.length data) in
  let '(o, _, tr) := write_bytes fuel self address data w in
  tiles PAGE_SIZE address (len data) ranges
  /\ data_writes tr `prefix_of` List.map (page_write self address data) ranges
  /\ match o with
     | Ret _ => data_writes tr = List.map (page_write self address data) ranges
     | Exc e =>
         (exists msg, e = ValueError msg /\ tr = []
                      /\ _validate_address address (len data) = Raise e)
         \/ (e = OSError
             /\ exists a b, last tr = Some (Writeto a b false) /\ b <> [])
         \/ (e = RuntimeError "Write cycle timeout"
             /\ exists t, last tr = Some (Ticks t))
     | More => fuel = O \/ last tr = Some (Sleep 1)
     end
  /\ block_ranges PAGE_SIZE 10 20 = [(10, 6); (16, 14)].
Proof.
  cbv zeta. unfold write_bytes.
  pose proof (block_ranges_tiles PAGE_SIZE (List.length data) ltac:(reflexivity)
                address) as Ht.
  destruct (_validate_address address (len data)) as [[]|e] eqn:Ev.
  - rewrite (run_lift_ok _ tt) by reflexivity.
    pose proof (write_loop_spec self fuel address data (List.length data) 0 w
                  ltac:(lia) ltac:(unfold len; lia)) as H.
    destruct (write_loop _ _ _ _ _ _ w) as [[o w'] tr].
    unfold page_writes in H. rewrite Z.add_0_r, Z.sub_0_r in H.
    unfold len in H at 1 2. rewrite Nat2Z.id in H.
    destruct H as (Hp & _ & Ho). split; [exact Ht|]. split; [exact Hp|].
    split; [|reflexivity].
    destruct o as [[]|e|]; [apply Ho| |exact Ho].
    right. exact Ho.
  - rewrite (run_lift_raise _ e) by reflexivity.
    split; [exact Ht|]. split; [apply prefix_nil|]. split; [|reflexivity].
    left. unfold _validate_address in Ev.
    destruct (_ || _); [injection Ev as <-; eauto|].
    destruct (_ >? _); [injection Ev as <-; eauto | discriminate].
Qed.

(** C6: the read transactions of [read_bytes] are, in order, the ranges
    that cut the addresses read at the multiples of 256, each after a write
    of its address byte; when the bus returns what is asked for, the result
    is the chunks in that order, [length_] bytes in all.  Ten bytes at
    address 252 are cut into 4 bytes at 252 and 6 bytes at 256. *)
Theorem read_bytes_blocks (self : EEPROM) (address length_ : Z) (w : world) :
  reads_in_full -> 0 <= length_ ->
  let ranges := block_ranges 256 address (Z.to_nat length_) in
  let '(o, _, tr) := read_bytes self address length_ w in
  tiles 256 address length_ ranges
  /\ reads tr `prefix_of` read_requests self address (Z.to_nat length_)
  /\ match o with
     | Ret d =>
         reads tr = read_requests self address (Z.to_nat length_)
         /\ data_writes tr = set_address_requests self address (Z.to_nat length_)
         /\ d = read_data tr
         /\ len d = length_
     | Exc e =>
         (exists msg, e = ValueError msg /\ tr = []
                      /\ _validate_address address length_ = Raise e)
         \/ (e = OSError /\ exists ev, last tr = Some ev /\ failed ev)
     | More => False
     end
  /\ block_ranges 256 252 10 = [(252, 4); (256, 6)].
Proof.
  intros Hfull Hlen. cbv zeta. unfold read_bytes.
  pose proof (block_ranges_tiles 256 (Z.to_nat length_) ltac:(reflexivity)
                address) as Ht.
  rewrite Z2Nat.id in Ht by lia.
  destruct (_validate_address address length_) as [[]|e] eqn:Ev.
  - rewrite (run_lift_ok _ tt) by reflexivity.
    pose proof (read_loop_spec self (Z.to_nat length_) [] length_ address w
                  ltac:(lia)) as H.
    destruct (read_loop _ _ _ _ _ w) as [[o w'] tr].
    destruct H as (Hp & Ho). split; [exact Ht|]. split; [exact Hp|].
    split; [|reflexivity].
    destruct o as [d|e|]; [| right; exact Ho | exact Ho].
    destruct Ho as (H1 & H2 & H3 & H4). cbn in H3. subst d.
    repeat split; auto.
  - rewrite (run_lift_raise _ e) by reflexivity.
    split; [exact Ht|]. split; [apply prefix_nil|]. split; [|reflexivity].
    left. unfold _validate_address in Ev.
    destruct (_ || _); [injection Ev as <-; eauto|].
    destruct (_ >? _); [injection Ev as <-; eauto | discriminate].
Qed.

End DriverClaims.

Section Bench.
Import Py EEPROM_driver.

(** C4 (counterexample): address 1024 with length 0 ends exactly at the
    end of the memory, and both transfers are refused. *)
Lemma range_check_end_address :
  1024 + 0 = MEMORY_SIZE
  /\ 1024 + len ([] : bytes) = MEMORY_SIZE
  /\ read_bytes chip 1024 0 idle
     = (Exc (ValueError "Address out of range (0x000-0x3FF)"), idle, [])
  /\ write_bytes 1 chip 1024 [] idle
     = (Exc (ValueError "Address out of range (0x000-0x3FF)"), idle, []).
Proof. repeat split. Qed.

Lemma range_check_witness :
  (exists msg, read_bytes chip 1000 25 idle = (Exc (ValueError msg), idle, []))
  /\ (exists msg,
        write_bytes 3 chip 1020 [1; 2; 3; 4; 5] idle
        = (Exc (ValueError msg), idle, []))
  /\ (forall msg, (read_bytes chip 1000 24 idle).1.1 <> Exc (ValueError msg))
  /\ (forall msg,
        (write_bytes 3 chip 1020 [1; 2; 3; 4] idle).1.1 <> Exc (ValueError msg)).
Proof.
  pose proof (range_check 3 chip 1000 25 [] idle) as (H1 & _ & _).
  pose proof (range_check 3 chip 1020 0 [1; 2; 3; 4; 5] idle) as (_ & H2 & _).
  pose proof (range_check 3 chip 1000 24 [] idle) as (_ & _ & H3).
  pose proof (range_check 3 chip 1020 0 [1; 2; 3; 4] idle) as (_ & _ & H4).
  split; [apply H1; reflexivity|]. split; [apply H2; reflexivity|].
  split; [apply H3; [vm_compute; split; [discriminate|reflexivity] | reflexivity]|].
  apply H4; [vm_compute; split; [discriminate|reflexivity] | reflexivity].
Defined.

Lemma bench_reads_in_full : reads_in_full (machine := bench_machine).
Proof.
  intros addr n w d w' Hn H. cbn in H. injection H as <- _.
  unfold len. rewrite List.repeat_length. lia.
Qed.

(** Twenty bytes at address 10, on a device that needs two probes. *)
Lemma write_bytes_page_chunks_witness :
  let run := write_bytes 5 chip 10 (List.map Z.of_nat (List.seq 0 20)) idle in
  run.1.1 = Ret tt
  /\ data_writes run.2
     = [(0x57, [10; 0; 1; 2; 3; 4; 5]);
        (0x57, [16; 6; 7; 8; 9; 10; 11; 12; 13; 14; 15; 16; 17; 18; 19])].
Proof.
  pose proof (write_bytes_page_chunks 5 chip 10
                (List.map Z.of_nat (List.seq 0 20)) idle) as H.
  vm_compute in H. destruct H as (_ & _ & H & _).
  split; [reflexivity | exact H].
Defined.

Lemma read_bytes_blocks_witness :
  let run := read_bytes chip 252 10 idle in
  run.1.1 = Ret (List.repeat 0xFF 10)
  /\ reads run.2 = [(0x57, 4); (0x57, 6)]
  /\ data_writes run.2 = [(0x57, [252]); (0x57, [0])].
Proof.
  pose proof (read_bytes_blocks chip 252 10 idle bench_reads_in_full
                ltac:(lia)) as H.
  vm_compute in H. destruct H as (_ & _ & (H1 & H2 & _) & _).
  split; [reflexivity|]. split; [exact H1 | exact H2].
Defined.

End Bench.

(** ** More of the driver *)

Section DriverExtras.
Import Py EEPROM_driver.
Context {world : Type} {machine : Machine world}.

(** X4: a transfer of no bytes at a valid address touches nothing. *)
Theorem empty_transfers (fuel : nat) (self : EEPROM) (address length_ : Z)
    (w : world) :
  0 <= address < MEMORY_SIZE ->
  (length_ <= 0 -> read_bytes self address length_ w = (Ret [], w, []))
  /\ write_bytes fuel self address [] w = (Ret tt, w, []).
Proof.
  intros Ha. split.
  - intros Hl. unfold read_bytes.
    rewrite (run_lift_ok _ tt) by (apply validate_accepts; lia).
    destruct (Z.to_nat length_) as [|n]; cbn [read_loop];
      destruct (Z.gtb_spec length_ 0); try lia; reflexivity.
  - unfold write_bytes.
    rewrite (run_lift_ok _ tt)
      by (apply validate_accepts; [lia | unfold len; cbn; unfold MEMORY_SIZE in *; lia]).
    reflexivity.
Qed.

Lemma erase_ranges (page_number : Z) :
  block_ranges PAGE_SIZE (page_number * PAGE_SIZE) 16
  = [(page_number * PAGE_SIZE, 16)].
Proof.
  rewrite (block_ranges_step PAGE_SIZE _ 16) by (unfold PAGE_SIZE; lia).
  cbv zeta. rewrite Z_mod_mult. reflexivity.
Qed.

Lemma erase_page_spec (fuel : nat) (self : EEPROM) (page_number : Z)
    (w : world) :
  0 <= page_number < 64 ->
  let '(o, _, tr) := erase_page fuel self page_number w in
  data_writes tr `prefix_of` [page_erase self page_number]
  /\ in_order true tr = true
  /\ match o with
     | Ret _ =>
         data_writes tr = [page_erase self page_number]
         /\ ready_after true tr = true
     | Exc e => e = OSError \/ e = RuntimeError "Write cycle timeout"
     | More => fuel = O \/ last tr = Some (Sleep 1)
     end.
Proof.
  intros Hp. unfold erase_page.
  destruct (Z.leb_spec 0 page_number) as [H0|H0]; [|lia].
  destruct (Z.ltb_spec page_number (MEMORY_SIZE / PAGE_SIZE)) as [H1|H1];
    [|change (MEMORY_SIZE / PAGE_SIZE) with 64 in H1; lia].
  cbn [andb]. unfold write_bytes.
  rewrite (run_lift_ok _ tt)
    by (apply validate_accepts;
        [ unfold MEMORY_SIZE, PAGE_SIZE; lia
        | change (len (List.repeat 255 (Z.to_nat PAGE_SIZE))) with 16;
          unfold MEMORY_SIZE, PAGE_SIZE; lia ]).
  pose proof (write_loop_spec self fuel (page_number * PAGE_SIZE)
                (List.repeat 0xFF (Z.to_nat PAGE_SIZE)) 16 0 w ltac:(lia)
                ltac:(change (len (List.repeat 255 (Z.to_nat PAGE_SIZE))) with 16;
                      lia)) as H.
  change (List.length (List.repeat 255 (Z.to_nat PAGE_SIZE))) with 16%nat.
  destruct (write_loop 16 fuel self (page_number * PAGE_SIZE)
              (List.repeat 0xFF (Z.to_nat PAGE_SIZE)) 0 w) as [[o w'] tr].
  unfold page_writes in H.
  change (len (List.repeat 255 (Z.to_nat PAGE_SIZE)) - 0) with 16 in H.
  rewrite Z.add_0_r in H. change (Z.to_nat 16) with 16%nat in H.
  rewrite erase_ranges in H. cbn [List.map page_write] in H.
  replace (page_number * PAGE_SIZE - page_number * PAGE_SIZE) with 0 in H by lia.
  change (slice (List.repeat 255 (Z.to_nat PAGE_SIZE)) 0 (0 + 16))
    with (List.repeat 255 16) in H.
  fold (page_erase self page_number) in H.
  destruct H as (Hpre & Hord & Ho).
  split; [exact Hpre|]. split; [exact Hord|].
  destruct o as [[]|e|]; [exact Ho | | exact Ho].
  destruct Ho as [[-> _]|[-> _]]; auto.
Qed.

(** X5: [erase_page] refuses a page outside 0..63 before touching the bus,
    and otherwise sends at most one data transaction: the address byte
    of the page start followed by sixteen bytes 0xFF. *)
Theorem erase_page_one_write (fuel : nat) (self : EEPROM) (page_number : Z)
    (w : world) :
  let '(o, w', tr) := erase_page fuel self page_number w in
  (~ 0 <= page_number < 64 ->
   o = Exc (ValueError "Page number out of range (0-63)") /\ w' = w /\ tr = [])
  /\ (0 <= page_number < 64 ->
      data_writes tr `prefix_of` [page_erase self page_number]
      /\ in_order true tr = true
      /\ (o = Ret tt -> data_writes tr = [page_erase self page_number])
      /\ forall msg, o <> Exc (ValueError msg)).
Proof.
  destruct (Z_le_dec 0 page_number) as [H0|H0];
    [destruct (Z_lt_dec page_number 64) as [H1|H1]|].
  - pose proof (erase_page_spec fuel self page_number w ltac:(lia)) as H.
    destruct (erase_page fuel self page_number w) as [[o w'] tr].
    destruct H as (Hpre & Hord & Ho).
    split; [intros; lia|]. intros _.
    split; [exact Hpre|]. split; [exact Hord|]. split.
    + intros ->. apply Ho.
    + intros msg ->. destruct Ho as [E|E]; discriminate.
  - unfold erase_page.
    destruct (Z.ltb_spec page_number (MEMORY_SIZE / PAGE_SIZE)) as [H2|H2];
      [change (MEMORY_SIZE / PAGE_SIZE) with 64 in H2; lia|].
    rewrite andb_false_r. split; [auto | intros; lia].
  - unfold erase_page.
    destruct (Z.leb_spec 0 page_number) as [H2|H2]; [lia|].
    cbn [andb]. split; [auto | intros; lia].
Qed.

Lemma erase_pages_spec (fuel : nat) (self : EEPROM) (pages : list Z) :
  List.Forall (fun p => 0 <= p < 64) pages ->
  forall w,
    let '(o, _, tr) := erase_pages fuel self pages w in
    data_writes tr `prefix_of` List.map (page_erase self) pages
    /\ (o = Ret tt -> data_writes tr = List.map (page_erase self) pages).
Proof.
  induction 1 as [|p pages Hp _ IH]; intros w.
  - cbn. split; [reflexivity | auto].
  - cbn [erase_pages List.map]. rewrite run_bind.
    pose proof (erase_page_spec fuel self p w Hp) as H.
    destruct (erase_page fuel self p w) as [[o w1] t1].
    destruct H as (Hpre & _ & Ho).
    destruct o as [[]|e|].
    + specialize (IH w1).
      destruct (erase_pages fuel self pages w1) as [[o2 w2] t2].
      destruct IH as [Hpre2 Ho2]. destruct Ho as [Ho _].
      rewrite data_writes_app, Ho. cbn [app].
      split; [apply prefix_cons, Hpre2|]. intros ->. rewrite Ho2; reflexivity.
    + split; [|discriminate].
      apply (prefix_app_r _ [page_erase self p] (List.map (page_erase self) pages)).
      exact Hpre.
    + split; [|discriminate].
      apply (prefix_app_r _ [page_erase self p] (List.map (page_erase self) pages)).
      exact Hpre.
Qed.

(** X6: the driver selects 0x57 whatever the address, so [erase_all]
    sends the sixteen page writes of the first 256-byte block four times
    over, and nothing else. *)
Theorem erase_all_one_block (fuel : nat) (self : EEPROM) (w : world) :
  e2_bit self = 0 \/ e2_bit self = 1 ->
  let '(o, _, tr) := erase_all fuel self w in
  let expected := concat (List.repeat first_block_erase 4) in
  data_writes tr `prefix_of` expected
  /\ (o = Ret tt -> data_writes tr = expected).
Proof.
  intros He. unfold erase_all.
  set (pages := List.map Z.of_nat (List.seq 0 (Z.to_nat (MEMORY_SIZE / PAGE_SIZE)))).
  assert (Hp : List.Forall (fun p => 0 <= p < 64) pages).
  { apply List.Forall_forall. intros p Hin. apply in_map_iff in Hin as (n & <- & Hn).
    apply in_seq in Hn. change (Z.to_nat (MEMORY_SIZE / PAGE_SIZE)) with 64%nat in Hn.
    lia. }
  assert (E : List.map (page_erase self) pages
              = concat (List.repeat first_block_erase 4)).
  { transitivity (List.map (fun p => (0x57, Z.land (p * PAGE_SIZE) 0xFF
                                              :: List.repeat 0xFF 16)) pages).
    - apply List.map_ext. intros p. unfold page_erase.
      rewrite (device_address_constant self _ He). reflexivity.
    - vm_compute. reflexivity. }
  pose proof (erase_pages_spec fuel self pages Hp w) as H.
  destruct (erase_pages fuel self pages w) as [[o w'] tr].
  rewrite E in H. exact H.
Qed.

Lemma validate_out_of_range (address length_ : Z) :
  ~ 0 <= address < MEMORY_SIZE ->
  exists msg, _validate_address address length_ = Raise (ValueError msg).
Proof.
  intros H. unfold _validate_address.
  destruct (Z.ltb_spec address 0); [eauto|].
  destruct (Z.geb_spec address MEMORY_SIZE); [eauto | lia].
Qed.

(** X2: [read_byte] refuses an address outside the memory before touching
    the bus; otherwise it writes the low address byte, reads one byte from
    the same device and returns the first byte it got; a transaction that
    is not acknowledged ends it with [OSError], and an empty answer with
    [IndexError]. *)
Theorem read_byte_transactions (self : EEPROM) (address : Z) (w : world) :
  let '(o, w', tr) := read_byte self address w in
  let dev := _get_device_address self address in
  let set_address ack := Writeto dev [Z.land address 0xFF] ack in
  (~ 0 <= address < MEMORY_SIZE ->
   exists msg, o = Exc (ValueError msg) /\ w' = w /\ tr = [])
  /\ (0 <= address < MEMORY_SIZE ->
      (tr = [set_address false] /\ o = Exc OSError)
      \/ (tr = [set_address true; Readfrom dev 1 None] /\ o = Exc OSError)
      \/ exists d,
           tr = [set_address true; Readfrom dev 1 (Some d)]
           /\ o = match d with
                  | b :: _ => Ret b
                  | [] => Exc IndexError
                  end).
Proof.
  unfold read_byte. cbv zeta.
  destruct (Z_le_dec 0 address) as [H0|H0];
    [destruct (Z_lt_dec address MEMORY_SIZE) as [H1|H1]|].
  - rewrite (run_lift_ok _ tt) by (apply validate_accepts; lia).
    rewrite run_bind, run_writeto.
    destruct (i2c_writeto _ _ w) as [[|] w1].
    2:{ split; [intros; lia|]. intros _. left. auto. }
    rewrite run_bind. unfold readfrom at 1.
    destruct (i2c_readfrom _ 1 w1) as [[d|] w2].
    2:{ split; [intros; lia|]. intros _. right. left. auto. }
    destruct d as [|b d]; cbn; (split; [intros; lia|]); intros _; right; right;
      eexists; split; reflexivity.
  - destruct (validate_out_of_range address 1 ltac:(lia)) as [msg E].
    rewrite (run_lift_raise _ _ _ _ E). split; [eauto|]. intros; lia.
  - destruct (validate_out_of_range address 1 ltac:(lia)) as [msg E].
    rewrite (run_lift_raise _ _ _ _ E). split; [eauto|]. intros; lia.
Qed.

(** X3: [write_byte] checks the address, then the value: a value outside
    0..255 is refused with [ValueError] and nothing is sent.  Otherwise the
    only data transaction is the address byte followed by the value, and a
    call that returns has seen the device acknowledge a probe after it. *)
Theorem write_byte_checks (fuel : nat) (self : EEPROM) (address value : Z)
    (w : world) :
  let '(o, w', tr) := write_byte fuel self address value w in
  (~ 0 <= address < MEMORY_SIZE ->
   exists msg, o = Exc (ValueError msg) /\ w' = w /\ tr = [])
  /\ (0 <= address < MEMORY_SIZE -> ~ 0 <= value <= 255 ->
      o = Exc (ValueError "Value must be 0-255") /\ w' = w /\ tr = [])
  /\ (0 <= address < MEMORY_SIZE -> 0 <= value <= 255 ->
      data_writes tr
      = [(_get_device_address self address, [Z.land address 0xFF; value])]
      /\ in_order true tr = true
      /\ (o = Ret tt -> ready_after true tr = true)
      /\ forall msg, o <> Exc (ValueError msg)).
Proof.
  unfold write_byte.
  destruct (Z_le_dec 0 address) as [H0|H0];
    [destruct (Z_lt_dec address MEMORY_SIZE) as [H1|H1]|].
  2,3: destruct (validate_out_of_range address 1 ltac:(lia)) as [msg E];
       rewrite (run_lift_raise _ _ _ _ E);
       (split; [eauto|]); split; intros; lia.
  rewrite (run_lift_ok _ tt) by (apply validate_accepts; lia).
  destruct (Z.leb_spec 0 value) as [V0|V0];
    [destruct (Z.leb_spec value 255) as [V1|V1]|]; cbn [andb].
  2,3: cbn; (split; [intros; lia|]); split; [auto | intros; lia].
  rewrite run_bind, run_writeto.
  destruct (i2c_writeto _ _ w) as [[|] w1].
  2:{ cbn. split; [intros; lia|]. split; [intros; lia|].
      intros _ _. repeat split; discriminate. }
  pose proof (wait_write_complete_spec fuel self address w1) as Hw.
  destruct (_wait_write_complete fuel self address w1) as [[o w2] tr].
  cbv zeta in Hw. destruct Hw as (Hp & t0 & tr' & Htr & Hlast).
  cbn. rewrite (probes_only_data_writes _ _ Hp), (probes_only_in_order _ _ Hp).
  split; [intros; lia|]. split; [intros; lia|]. intros _ _.
  split; [reflexivity|]. split; [reflexivity|]. split.
  - intros ->. exact (ready_after_acked false tr _ Hlast).
  - intros msg ->. destruct Hlast as [E _]. discriminate.
Qed.

(** X1: [init] probes the device once, with a zero-length write to 0x57
    whatever base address it is given; it returns the driver, its [e2_bit]
    reduced to 0 or 1, when the probe is acknowledged and raises
    [RuntimeError] when it is not. *)
Theorem init_probes_once (address e2 : Z) (w : world) :
  let '(o, _, tr) := init address e2 w in
  exists ack,
    tr = [Writeto 0x57 [] ack]
    /\ if ack
       then exists self,
              o = Ret self /\ base_address self = address
              /\ (e2_bit self = 0 \/ e2_bit self = 1)
              /\ e2_bit self = e2 mod 2
       else exists msg, o = Exc (RuntimeError msg).
Proof.
  unfold init. rewrite run_bind. unfold _is_device_present, writeto_ack.
  rewrite device_address_constant by (cbn [e2_bit]; apply land_1_cases).
  destruct (i2c_writeto 87 [] w) as [[|] w1]; cbn.
  - exists true. split; [reflexivity|]. eexists. split; [reflexivity|].
    cbn [base_address e2_bit]. split; [reflexivity|].
    split; [apply land_1_cases|]. apply (Z.land_ones e2 1). lia.
  - exists false. split; [reflexivity|]. eauto.
Qed.

End DriverExtras.

Section Termination.
Import Py EEPROM_driver.
Context {world : Type} {machine : Machine world}.
Variable now : world -> Z.
Hypothesis Hclock : steady_clock now.

Lemma poll_ack_ends (dev timeout : Z) (fuel : nat) :
  forall w,
    Z.max 0 (timeout - now w) < Z.of_nat fuel ->
    let '(o, _, tr) := poll_ack fuel dev timeout w in
    o <> More /\ Z.of_nat (probes tr) <= Z.max 0 (timeout - now w).
Proof.
  destruct Hclock as (Hticks & Hsleep & Hwrite & Hdiff).
  induction fuel as [|fuel IH]; intros w Hf; [lia|].
  cbn [poll_ack]. rewrite run_bind. unfold time_ticks_ms at 1.
  pose proof (Hticks w) as [Ht Hw1].
  destruct (ticks_ms w) as [t w1] eqn:Et. cbn [fst snd] in Ht, Hw1.
  rewrite Hdiff.
  destruct (Z.gtb_spec (timeout - t) 0) as [Hlt|Hge].
  2:{ cbn. split; [discriminate | lia]. }
  rewrite run_bind. unfold writeto_ack at 1.
  pose proof (Hwrite dev [] w1) as Hw2.
  destruct (i2c_writeto dev [] w1) as [[|] w2] eqn:Ew; cbn [snd] in Hw2.
  { cbn. split; [discriminate | lia]. }
  rewrite run_bind. unfold time_sleep_ms at 1.
  pose proof (Hsleep 1 w2) as Hw3.
  assert (Hfuel : Z.max 0 (timeout - now (sleep_ms 1 w2)) < Z.of_nat fuel) by lia.
  specialize (IH (sleep_ms 1 w2) Hfuel).
  destruct (poll_ack fuel dev timeout (sleep_ms 1 w2)) as [[o w3] tr].
  destruct IH as [Ho Hn]. cbn. split; [exact Ho | lia].
Qed.

Lemma wait_ends (fuel : nat) (self : EEPROM) (memory_address : Z) (w : world) :
  (31 <= fuel)%nat ->
  let '(o, _, tr) := _wait_write_complete fuel self memory_address w in
  o <> More /\ (probes tr <= 30)%nat.
Proof.
  intros Hf. unfold _wait_write_complete. rewrite run_bind.
  unfold time_ticks_ms at 1.
  destruct Hclock as (Hticks & _).
  pose proof (Hticks w) as [Ht Hw1].
  destruct (ticks_ms w) as [t0 w1] eqn:Et. cbn [fst snd] in Ht, Hw1.
  pose proof (poll_ack_ends (_get_device_address self memory_address)
                (t0 + MAX_WRITE_TIME_MS * 3) fuel w1
                ltac:(unfold MAX_WRITE_TIME_MS; lia)) as H.
  destruct (poll_ack fuel _ _ w1) as [[o w2] tr].
  destruct H as [Ho Hn]. cbn. split; [exact Ho|].
  unfold MAX_WRITE_TIME_MS in Hn. lia.
Qed.

Lemma write_loop_ends (fuel : nat) (self : EEPROM) (address : Z) (data : bytes)
    (n : nat) :
  (31 <= fuel)%nat ->
  forall offset w,
    len data - offset <= Z.of_nat n ->
    (write_loop n fuel self address data offset w).1.1 <> More.
Proof.
  intros Hf. induction n as [|n IH]; intros offset w Hn; cbn [write_loop];
    destruct (Z.ltb_spec offset (len data)) as [Hlt|Hge];
    try (cbn; discriminate); [lia|].
  cbv zeta. rewrite run_bind, run_writeto.
  destruct (i2c_writeto _ _ w) as [[|] w1]; [|cbn; discriminate].
  rewrite run_bind.
  pose proof (wait_ends fuel self (address + offset) w1 Hf) as Hw.
  destruct (_wait_write_complete fuel self (address + offset) w1)
    as [[ow w2] trw].
  destruct Hw as [Hw _].
  destruct ow as [[]|e|]; [|cbn; discriminate|contradiction].
  set (cur := address + offset).
  pose proof (Z.mod_pos_bound cur PAGE_SIZE ltac:(unfold PAGE_SIZE; lia)) as Hm.
  pose proof (Z.mod_eq cur PAGE_SIZE ltac:(unfold PAGE_SIZE; lia)) as Hq.
  match goal with
  | |- context [write_loop n fuel self address data ?o' w2] =>
      specialize (IH o' w2 ltac:(lia));
      destruct (write_loop n fuel self address data o' w2) as [[o w3] tr]
  end.
  cbn in IH |- *. exact IH.
Qed.

Lemma write_bytes_ends (fuel : nat) (self : EEPROM) (address : Z) (data : bytes)
    (w : world) :
  (31 <= fuel)%nat -> (write_bytes fuel self address data w).1.1 <> More.
Proof.
  intros Hf. unfold write_bytes.
  destruct (_validate_address address (len data)) as [[]|e] eqn:Ev.
  - rewrite (run_lift_ok _ tt) by reflexivity.
    apply write_loop_ends; [exact Hf | unfold len; lia].
  - rewrite (run_lift_raise _ e) by reflexivity. discriminate.
Qed.

Lemma erase_page_ends (fuel : nat) (self : EEPROM) (page_number : Z) (w : world) :
  (31 <= fuel)%nat -> (erase_page fuel self page_number w).1.1 <> More.
Proof.
  intros Hf. unfold erase_page. destruct (_ && _); [|discriminate].
  apply write_bytes_ends. exact Hf.
Qed.

Lemma erase_pages_ends (fuel : nat) (self : EEPROM) (pages : list Z) :
  (31 <= fuel)%nat ->
  forall w, (erase_pages fuel self pages w).1.1 <> More.
Proof.
  intros Hf. induction pages as [|p pages IH]; intros w; [discriminate|].
  cbn [erase_pages]. rewrite run_bind.
  pose proof (erase_page_ends fuel self p w Hf) as H.
  destruct (erase_page fuel self p w) as [[o w1] t1]. cbn in H.
  destruct o as [[]|e|]; [|discriminate|contradiction].
  specialize (IH w1). destruct (erase_pages fuel self pages w1) as [[o2 w2] t2].
  exact IH.
Qed.

(** X7: on a steady clock the wait for write completion ends within thirty
    probes, so with room for thirty-one iterations no write is left
    waiting: each returns or raises. *)
Theorem writes_terminate (fuel : nat) (self : EEPROM)
    (address value page_number : Z) (data : bytes) (w : world) :
  (31 <= fuel)%nat ->
  (let '(o, _, tr) := _wait_write_complete fuel self address w in
   o <> More /\ (probes tr <= 30)%nat)
  /\ (write_byte fuel self address value w).1.1 <> More
  /\ (write_bytes fuel self address data w).1.1 <> More
  /\ (erase_page fuel self page_number w).1.1 <> More
  /\ (erase_all fuel self w).1.1 <> More.
Proof.
  intros Hf. split; [apply wait_ends; exact Hf|].
  split; [|split; [apply write_bytes_ends; exact Hf|
           split; [apply erase_page_ends; exact Hf|
                   apply erase_pages_ends; exact Hf]]].
  unfold write_byte.
  destruct (_validate_address address 1) as [[]|e] eqn:Ev.
  - rewrite (run_lift_ok _ tt) by reflexivity.
    destruct (_ && _); [|discriminate].
    rewrite run_bind, run_writeto.
    destruct (i2c_writeto _ _ w) as [[|] w1]; [|cbn; discriminate].
    pose proof (wait_ends fuel self address w1 Hf) as Hw.
    destruct (_wait_write_complete fuel self address w1) as [[o w2] tr].
    cbn. apply Hw.
  - rewrite (run_lift_raise _ e) by reflexivity. discriminate.
Qed.

End Termination.

Section BenchExtras.
Import Py EEPROM_driver.

Lemma bench_clock_steady : steady_clock (machine := bench_machine) clock.
Proof.
  split; [|split; [|split]].
  - intros w. cbn. lia.
  - intros ms w. cbn. lia.
  - intros addr buf w. cbn. destruct buf as [|? [|? ?]], (busy w); cbn; lia.
  - reflexivity.
Qed.

Lemma writes_terminate_witness :
  (let '(o, _, tr) := _wait_write_complete 31 chip 10 idle in
   o <> More /\ (probes tr <= 30)%nat)
  /\ (write_byte 31 chip 10 7 idle).1.1 <> More
  /\ (write_bytes 31 chip 10 [1; 2; 3] idle).1.1 <> More
  /\ (erase_page 31 chip 3 idle).1.1 <> More
  /\ (erase_all 31 chip idle).1.1 <> More.
Proof.
  exact (writes_terminate clock bench_clock_steady 31 chip 10 7 3 [1; 2; 3] idle
           (le_n 31)).
Defined.

Lemma empty_transfers_witness :
  read_bytes chip 5 (-3) idle = (Ret [], idle, [])
  /\ write_bytes 1 chip 5 [] idle = (Ret tt, idle, []).
Proof.
  destruct (empty_transfers 1 chip 5 (-3) idle
              ltac:(unfold MEMORY_SIZE; lia)) as [H1 H2].
  split; [apply H1; lia | exact H2].
Defined.

Lemma erase_all_one_block_witness :
  (erase_all 5 chip idle).1.1 = Ret tt
  /\ data_writes (erase_all 5 chip idle).2
     = concat (List.repeat first_block_erase 4).
Proof.
  pose proof (erase_all_one_block 5 chip idle (or_introl eq_refl)) as H.
  destruct (erase_all 5 chip idle) as [[o w'] tr] eqn:E.
  assert (Ho : o = Ret tt).
  { apply (f_equal (fun x => x.1.1)) in E. vm_compute in E. congruence. }
  split; [exact Ho | exact (proj2 H Ho)].
Defined.

End BenchExtras.

(** ** Waiting for the write cycle *)

Section WriteCompletion.
Import Py EEPROM_driver.
Context {world : Type} {machine : Machine world}.

(** A clock reading at or past the deadline is the last thing the polling
    loop does, and it ends the loop with the timeout. *)
Lemma poll_ack_deadline (dev timeout : Z) (fuel : nat) :
  forall w,
    let '(o, _, tr) := poll_ack fuel dev timeout w in
    forall pre t post,
      tr = pre ++ Ticks t :: post -> ticks_diff timeout t <= 0 ->
      post = [] /\ o = Exc (RuntimeError "Write cycle timeout").
Proof.
  induction fuel as [|fuel IH]; intros w.
  - cbn. intros [|x pre] t post H; discriminate.
  - cbn [poll_ack]. rewrite run_bind. unfold time_ticks_ms at 1.
    destruct (ticks_ms w) as [t1 w1].
    destruct (Z.gtb_spec (ticks_diff timeout t1) 0) as [Hlt|Hge].
    2:{ cbn. intros [|x [|y pre]] t post H Ht; try discriminate.
        injection H as -> <-. auto. }
    rewrite run_bind. unfold writeto_ack at 1.
    destruct (i2c_writeto dev [] w1) as [[|] w2].
    { cbn. intros [|x [|y [|z pre]]] t post H Ht; try discriminate.
      injection H as -> _. lia. }
    rewrite run_bind. unfold time_sleep_ms at 1.
    specialize (IH (sleep_ms 1 w2)).
    destruct (poll_ack fuel dev timeout (sleep_ms 1 w2)) as [[o w3] tr].
    cbn. intros [|x [|y [|z pre]]] t post H Ht; try discriminate.
    + injection H as -> _. lia.
    + injection H as _ _ _ H. exact (IH pre t post H Ht).
Qed.

(** C8: [_wait_write_complete] reads the clock, then only probes the
    device with zero-length writes.  It returns right after a probe that is
    acknowledged; a clock reading at or past the 30 ms deadline is the last
    thing it does and ends it with "Write cycle timeout", and that is the
    only way it raises.  On a steady clock it ends within thirty probes, by
    returning or by raising.  In [write_bytes] a data transaction is
    therefore sent only when the device has acknowledged a probe since the
    previous one, a write that returns leaves the device ready, and on a
    steady clock every write ends. *)
Theorem write_waits_for_completion (fuel : nat) (self : EEPROM)
    (address memory_address : Z) (data : bytes) (w : world) :
  (let '(o, _, tr) := _wait_write_complete fuel self memory_address w in
   let dev := _get_device_address self memory_address in
   probes_only dev tr
   /\ exists t0 tr',
       tr = Ticks t0 :: tr'
       /\ match o with
          | Ret _ => last tr = Some (Writeto dev [] true)
          | Exc e =>
              e = RuntimeError "Write cycle timeout"
              /\ exists t, last tr = Some (Ticks t)
                           /\ ticks_diff (t0 + MAX_WRITE_TIME_MS * 3) t <= 0
          | More => fuel = O \/ last tr = Some (Sleep 1)
          end
       /\ (forall pre t post,
             tr' = pre ++ Ticks t :: post ->
             ticks_diff (t0 + MAX_WRITE_TIME_MS * 3) t <= 0 ->
             post = [] /\ o = Exc (RuntimeError "Write cycle timeout"))
       /\ (forall now,
             steady_clock now -> (31 <= fuel)%nat ->
             o <> More /\ (probes tr <= 30)%nat))
  /\ (let '(o, _, tr) := write_bytes fuel self address data w in
      in_order true tr = true
      /\ (o = Ret tt -> ready_after true tr = true)
      /\ (forall now, steady_clock now -> (31 <= fuel)%nat -> o <> More)).
Proof.
  split.
  - pose proof (wait_write_complete_spec fuel self memory_address w) as Hs.
    pose proof (fun now Hc Hf =>
                  wait_ends now Hc fuel self memory_address w Hf) as He.
    unfold _wait_write_complete in *. rewrite run_bind in *.
    unfold time_ticks_ms in Hs, He |- * at 1.
    destruct (ticks_ms w) as [t0 w1].
    pose proof (poll_ack_deadline (_get_device_address self memory_address)
                  (t0 + MAX_WRITE_TIME_MS * 3) fuel w1) as Hd.
    destruct (poll_ack fuel _ _ w1) as [[o w2] tr].
    cbn in Hs, He |- *. destruct Hs as (Hp & t0' & tr' & [= <- <-] & Ho).
    split; [exact Hp|]. exists t0, tr. split; [reflexivity|].
    split; [exact Ho|]. split; [exact Hd | exact He].
  - pose proof (fun now Hc Hf =>
                  write_bytes_ends now Hc fuel self address data w Hf) as He.
    unfold write_bytes in *.
    destruct (_validate_address address (len data)) as [[]|e] eqn:Ev.
    + rewrite (run_lift_ok _ tt) in * by reflexivity.
      pose proof (write_loop_spec self fuel address data (List.length data) 0 w
                    ltac:(lia) ltac:(unfold len; lia)) as H.
      destruct (write_loop _ _ _ _ _ _ w) as [[o w'] tr].
      destruct H as (_ & Hord & Ho). split; [exact Hord|].
      split; [intros ->; apply Ho | exact He].
    + rewrite (run_lift_raise _ e) by reflexivity.
      split; [reflexivity|]. split; discriminate.
Qed.

End WriteCompletion.

Section WriteCompletionBench.
Import Py EEPROM_driver.

(** Twenty bytes at address 10 on a device that needs two probes, and a
    wait on a device that never answers. *)
Lemma write_waits_for_completion_witness :
  let run := write_bytes 31 chip 10 (List.map Z.of_nat (List.seq 0 20)) idle in
  let wait := _wait_write_complete 31 chip 10 dead in
  (in_order true run.2 = true /\ ready_after true run.2 = true
   /\ run.1.1 = Ret tt
   /\ List.length (List.filter (fun e => match e with
                                         | Writeto _ [] false => true
                                         | _ => false
                                         end) run.2) = 4%nat)
  /\ wait.1.1 = Exc (RuntimeError "Write cycle timeout")
  /\ (probes wait.2 <= 30)%nat.
Proof.
  cbv zeta.
  pose proof (write_waits_for_completion 31 chip 10 10
                (List.map Z.of_nat (List.seq 0 20)) idle) as [_ H].
  pose proof (write_waits_for_completion 31 chip 10 10 [] dead) as [Hw _].
  destruct (write_bytes 31 chip 10 (List.map Z.of_nat (List.seq 0 20)) idle)
    as [[o w'] tr] eqn:E.
  destruct (_wait_write_complete 31 chip 10 dead) as [[ow w''] trw] eqn:Ew.
  assert (Eo : o = Ret tt).
  { apply (f_equal (fun x => x.1.1)) in E. vm_compute in E. congruence. }
  assert (Et : List.length (List.filter (fun e => match e with
                                                  | Writeto _ [] false => true
                                                  | _ => false
                                                  end) tr) = 4%nat).
  { apply (f_equal (fun x => x.2)) in E. cbn [snd] in E. rewrite <- E.
    vm_compute. reflexivity. }
  assert (Eow : ow = Exc (RuntimeError "Write cycle timeout")).
  { apply (f_equal (fun x => x.1.1)) in Ew. vm_compute in Ew. congruence. }
  destruct H as (H1 & H2 & _).
  destruct Hw as (_ & t0 & tr' & _ & _ & _ & Hb).
  destruct (Hb clock bench_clock_steady (le_n 31)) as [_ Hn].
  cbn [fst snd].
  split; [split; [exact H1 | split; [exact (H2 Eo) | split; [exact Eo | exact Et]]]|].
  split; [exact Eow | exact Hn].
Defined.

End WriteCompletionBench.

(** ** Text fields *)

Section Text.
Import Py config_serializer.

(** C7: a text field of more than 255 bytes is refused with [ValueError];
    one of exactly 255 bytes is packed as the byte 255 followed by the
    255 bytes of the text. *)
Theorem pack_string_limit (s : string) :
  (len (encode s) > 255 ->
   pack_string s = Raise (ValueError "String too long for 1-byte length prefix"))
  /\ (len (encode s) = 255 -> pack_string s = Ok (255 :: encode s)).
Proof.
  unfold pack_string. split; intros H.
  - destruct (Z.gtb_spec (len (encode s)) 255); [reflexivity | lia].
  - destruct (Z.gtb_spec (len (encode s)) 255); [lia |].
    rewrite H. reflexivity.
Qed.

Lemma pack_string_limit_witness :
  pack_string (letters 256)
    = Raise (ValueError "String too long for 1-byte length prefix")
  /\ pack_string (letters 255) = Ok (255 :: encode (letters 255)).
Proof.
  split.
  - apply (proj1 (pack_string_limit (letters 256))). vm_compute. reflexivity.
  - apply (proj2 (pack_string_limit (letters 255))). vm_compute. reflexivity.
Defined.

End Text.

(** ** The codec *)

Section Codec.
Import Py config_serializer.

Lemma bind_Ok {A B} (a : A) (k : A -> res B) : (Ok a ≫= k) = k a.
Proof. reflexivity. Qed.

Lemma bind_Raise {A B} (e : exn) (k : A -> res B) : (Raise e ≫= k) = Raise e.
Proof. reflexivity. Qed.

(** Splits a successful sequence at its first call. *)
Lemma bind_inv {A B} (m : res A) (k : A -> res B) (b : B) :
  (m ≫= k) = Ok b -> exists a, m = Ok a /\ k a = Ok b.
Proof. destruct m as [a|e]; [eauto | discriminate]. Qed.

Lemma Ok_inj {A} (a b : A) : Ok a = Ok b -> a = b.
Proof. intros [= ->]. reflexivity. Qed.

Lemma len_nonneg {A} (l : list A) : 0 <= len l.
Proof. unfold len. lia. Qed.

Lemma len_app {A} (l1 l2 : list A) : len (l1 ++ l2) = len l1 + len l2.
Proof. unfold len. rewrite length_app. lia. Qed.

Lemma getitem_inv (buf : bytes) (o b : Z) :
  0 <= o -> getitem buf o = Ok b ->
  o + 1 <= len buf
  /\ (Forall is_byte buf -> is_byte b)
  /\ forall tail, getitem (buf ++ tail) o = Ok b.
Proof.
  intros Ho. unfold getitem. destruct (Z.ltb_spec o 0) as [|_]; [lia|].
  destruct (Z.leb_spec 0 o) as [_|]; [|lia].
  destruct (Z.ltb_spec o (len buf)) as [Hlt|]; [|discriminate].
  cbn [andb]. intros [= <-]. split; [lia|]. split.
  - intros HF. rewrite List.Forall_forall in HF. apply HF, nth_In. unfold len in Hlt. lia.
  - intros tail. rewrite len_app. pose proof (len_nonneg tail).
    destruct (Z.ltb_spec o (len buf + len tail)); [|lia].
    rewrite app_nth1 by (unfold len in Hlt; lia). reflexivity.
Qed.

Lemma unpack_adc_addrs_length (n : nat) (buf : bytes) :
  forall o addrs o',
    unpack_adc_addrs n buf o = Ok (addrs, o') -> List.length addrs = n.
Proof.
  induction n as [|n IH]; intros o addrs o' H; cbn [unpack_adc_addrs] in H.
  - injection H as <- _. reflexivity.
  - apply bind_inv in H as (b & _ & H).
    apply bind_inv in H as ([rest o1] & E & H).
    injection H as <- _. cbn. f_equal. eapply IH, E.
Qed.

Lemma getitem_In (buf : bytes) (o b : Z) : getitem buf o = Ok b -> In b buf.
Proof.
  unfold getitem. set (j := if o <? 0 then o + len buf else o).
  destruct (Z.leb_spec 0 j); [|discriminate].
  destruct (Z.ltb_spec j (len buf)) as [Hlt|]; [|discriminate].
  cbn [andb]. intros [= <-]. apply nth_In. unfold len in Hlt. lia.
Qed.

(** Splits a successful run at every call, naming what each returned. *)
Ltac split_run H :=
  cbv beta iota zeta in H;
  repeat (let a := fresh "r" in
          let E := fresh "E" in
          apply bind_inv in H as (a & E & H);
          try (destruct a as [? ?]);
          cbv beta iota zeta in H).

(** C10 (amended): in every record [unpack_config] returns, the hardware
    section has [num_of_adcs], equal to the number of decoded ADC addresses;
    [pack_config] does not look at that key; so a record without it comes
    back from a round trip with a hardware key it did not have. *)
Theorem num_of_adcs_added :
  (forall buf cfg,
      Forall is_byte buf -> unpack_config buf = Ok cfg ->
      exists addrs,
        adc_i2c_addrs (hardware cfg) = Some addrs
        /\ num_of_adcs (hardware cfg) = Some (len addrs))
  /\ (forall cfg v, pack_config (with_num_of_adcs v cfg) = pack_config cfg)
  /\ (forall cfg buf cfg',
        num_of_adcs (hardware cfg) = None ->
        pack_config cfg = Ok buf -> unpack_config buf = Ok cfg' ->
        In "num_of_adcs"%string (hardware_keys (hardware cfg'))
        /\ ~ In "num_of_adcs"%string (hardware_keys (hardware cfg))).
Proof.
  assert (Hkey : forall buf cfg, unpack_config buf = Ok cfg ->
            exists addrs n o o',
              adc_i2c_addrs (hardware cfg) = Some addrs
              /\ num_of_adcs (hardware cfg) = Some n
              /\ getitem buf o = Ok n
              /\ unpack_adc_addrs (Z.to_nat n) buf (o + 1) = Ok (addrs, o')).
  { intros buf cfg H. unfold unpack_config in H.
    apply bind_inv in H as ([c off] & H & [= ->]).
    unfold unpack_config_at in H. split_run H. injection H as <- _.
    cbn [hardware adc_i2c_addrs num_of_adcs]. eauto 8. }
  split; [|split].
  - intros buf cfg HF H. destruct (Hkey _ _ H) as (addrs & n & o & o' & -> & -> & E1 & E2).
    exists addrs. split; [reflexivity|]. f_equal.
    apply unpack_adc_addrs_length in E2. apply getitem_In in E1.
    rewrite List.Forall_forall in HF. specialize (HF _ E1). unfold is_byte in HF.
    unfold len. lia.
  - reflexivity.
  - intros cfg buf cfg' Hn _ H. destruct (Hkey _ _ H) as (addrs & n & o & o' & Ha & Hb & _).
    unfold hardware_keys. rewrite Hn, Hb. cbn [has_key]. split.
    + rewrite !in_app_iff. right. right. right. left.
      destruct (has_key (eeprom_size (hardware cfg'))),
               (has_key (adc_i2c_addrs (hardware cfg'))); cbn; auto.
    + rewrite !in_app_iff. cbn.
      destruct (has_key (eeprom_size (hardware cfg))),
               (has_key (adc_i2c_addrs (hardware cfg))),
               (has_key (adc_sampling_rate (hardware cfg))); cbn;
        intuition discriminate.
Qed.

(** C10 (counterexample): the test configuration has [num_of_adcs]; every
    hardware key of its round trip is a key it had. *)
Lemma round_trip_adds_no_key :
  exists buf cfg',
    pack_config test_cfg = Ok buf /\ unpack_config buf = Ok cfg'
    /\ incl (hardware_keys (hardware cfg')) (hardware_keys (hardware test_cfg)).
Proof.
  eexists. eexists. split; [vm_compute; reflexivity|].
  split; [vm_compute; reflexivity|].
  intros k Hk. vm_compute in Hk |- *. intuition.
Qed.

(** Decides the tests of the presence flags. *)
Ltac eval_flags :=
  repeat match goal with
         | |- context [Z.land ?p ?m =? 0] =>
             let b := eval vm_compute in (Z.land p m =? 0) in
             change (Z.land p m =? 0) with b
         end.

(** [pack_channel], field group by field group. *)
Lemma pack_channel_parts (ch : Channel) :
  pack_channel ch =
  (head ← pack_channel_head ch;
   b_shunt ← pack_optional_fixed_point (shunt_resistance ch);
   b_offset ← pack_optional_fixed_point (adc_offset ch);
   Ok (head ++ b_shunt ++ b_offset)).
Proof.
  destruct ch as [nm ct it cn ac mr g sh off].
  unfold pack_channel, pack_channel_head, adc_fields_present.
  cbn [name channel_type interface_type channel_number actions
       measurement_range adc_hardware_gain shunt_resistance adc_offset
       pack_optional_fixed_point].
  destruct mr as [r|], g as [g|], sh as [sh|], off as [off|];
    cbn [has_key getkey pack_optional_fixed_point]; eval_flags; unfold mbind, res_bind; cbv beta iota;
    repeat (match goal with
            | |- context [match ?m with Ok _ => _ | Raise _ => _ end] =>
                lazymatch m with
                | context [match _ with Ok _ => _ | Raise _ => _ end] => fail
                | _ => destruct m; cbv beta iota
                end
            end);
    rewrite <- ?app_assoc, ?app_nil_r; reflexivity.
Qed.

Lemma pack_H_value (n : Z) : be_value (pack_H n) = n mod 65536.
Proof.
  unfold pack_H, be_value. cbn [fold_left].
  pose proof (Z.div_mod n 256 ltac:(lia)).
  pose proof (Z.div_mod (n / 256) 256 ltac:(lia)).
  pose proof (Z.mod_pos_bound n 256 ltac:(lia)).
  pose proof (Z.mod_pos_bound (n / 256) 256 ltac:(lia)).
  apply (Z.mod_unique_pos _ _ (n / 256 / 256)); lia.
Qed.

(** The integer part of the thousandfold of a negative float is not
    positive. *)
Lemma negative_scaled_int (v : float) (n : Z) :
  PrimFloat.ltb v 0 = true ->
  int_of_float (PrimFloat.mul v 1000) = Ok n ->
  n <= 0.
Proof.
  intros Hneg Hn. rewrite ltb_spec in Hneg. unfold int_of_float in Hn.
  rewrite mul_spec in Hn.
  let x := eval vm_compute in (Prim2SF 1000) in change (Prim2SF 1000) with x in Hn.
  let x := eval vm_compute in (Prim2SF 0) in change (Prim2SF 0) with x in Hneg.
  destruct (Prim2SF v) as [s|s| |s m e]; cbn in Hneg; try discriminate;
    destruct s; try discriminate.
  unfold SF64mul, SFmul in Hn. cbn [xorb] in Hn.
  unfold binary_round_aux in Hn.
  destruct (shr_fexp _ _ _ _ _) as [mrs1 e1].
  destruct (shr_fexp _ _ _ _ _) as [mrs2 e2].
  destruct (shr_m mrs2) as [|p|p]; [injection Hn as <-; lia| |discriminate].
  destruct (e2 <=? _)%Z; [|discriminate].
  injection Hn as <-. destruct (Z.leb_spec 0 e2).
  - pose proof (Z.pow_nonneg 2 e2 ltac:(lia)). nia.
  - pose proof (Z.pow_pos_nonneg 2 (- e2) ltac:(lia) ltac:(lia)).
    pose proof (Z.div_pos (Z.pos p) (2 ^ (- e2)) ltac:(lia) ltac:(lia)). lia.
Qed.

(** A channel whose fixed-point field holds [v] is packed as it is with
    0.0 in that field, with the bytes of [v] in place of the two zero
    bytes; if [v] cannot be packed, neither can the channel. *)
Lemma fixed_point_in_channel (ch : Channel) (v : float) :
  (shunt_resistance ch = Some v ->
   forall c0,
     pack_channel (with_shunt_resistance (Some 0%float) ch) = Ok c0 ->
     exists pre post,
       c0 = pre ++ [0; 0] ++ post
       /\ pack_channel ch = (b ← pack_fixed_point v; Ok (pre ++ b ++ post)))
  /\ (adc_offset ch = Some v ->
      forall c0,
        pack_channel (with_adc_offset (Some 0%float) ch) = Ok c0 ->
        exists pre,
          c0 = pre ++ [0; 0] ++ []
          /\ pack_channel ch = (b ← pack_fixed_point v; Ok (pre ++ b ++ []))).
Proof.
  split.
  - intros Hs c0 H. rewrite pack_channel_parts in H |- *.
    assert (Hh : pack_channel_head (with_shunt_resistance (Some 0%float) ch)
                 = pack_channel_head ch).
    { unfold pack_channel_head, adc_fields_present.
      cbn [with_shunt_resistance name channel_type interface_type channel_number
           actions measurement_range adc_hardware_gain shunt_resistance adc_offset].
      rewrite Hs. reflexivity. }
    rewrite Hh in H. cbn [with_shunt_resistance shunt_resistance adc_offset] in H.
    rewrite Hs. cbn [pack_optional_fixed_point] in H |- *.
    apply bind_inv in H as (head & -> & H). cbv beta in H. rewrite !bind_Ok.
    change (pack_fixed_point 0) with (Ok (A := bytes) [0; 0]) in H.
    rewrite bind_Ok in H.
    apply bind_inv in H as (b_offset & -> & [= <-]).
    exists head, b_offset. split; [reflexivity|].
    destruct (pack_fixed_point v); reflexivity.
  - intros Hs c0 H. rewrite pack_channel_parts in H |- *.
    assert (Hh : pack_channel_head (with_adc_offset (Some 0%float) ch)
                 = pack_channel_head ch).
    { unfold pack_channel_head, adc_fields_present.
      cbn [with_adc_offset name channel_type interface_type channel_number
           actions measurement_range adc_hardware_gain shunt_resistance adc_offset].
      rewrite Hs. reflexivity. }
    rewrite Hh in H. cbn [with_adc_offset shunt_resistance adc_offset] in H.
    rewrite Hs. cbn [pack_optional_fixed_point] in H |- *.
    apply bind_inv in H as (head & -> & H). cbv beta in H.
    apply bind_inv in H as (b_shunt & -> & H). cbv beta in H. rewrite !bind_Ok.
    change (pack_fixed_point 0) with (Ok (A := bytes) [0; 0]) in H.
    rewrite bind_Ok in H. apply Ok_inj in H as <-.
    exists (head ++ b_shunt). rewrite <- !app_assoc, !app_nil_r.
    split; [reflexivity|].
    destruct (pack_fixed_point v); rewrite ?bind_Ok, <- ?app_assoc, ?app_nil_r;
      reflexivity.
Qed.

Lemma pack_channels_app (chs1 chs2 : list Channel) :
  pack_channels (chs1 ++ chs2) =
  (b1 ← pack_channels chs1; b2 ← pack_channels chs2; Ok (b1 ++ b2)).
Proof.
  induction chs1 as [|ch chs1 IH]; cbn [app pack_channels].
  - rewrite bind_Ok. destruct (pack_channels chs2); reflexivity.
  - rewrite IH. destruct (pack_channel ch) as [b|e]; [|reflexivity].
    rewrite !bind_Ok.
    destruct (pack_channels chs1) as [b1|e]; [|reflexivity]. rewrite !bind_Ok.
    destruct (pack_channels chs2) as [b2|e]; [|reflexivity]. rewrite !bind_Ok.
    rewrite app_assoc. reflexivity.
Qed.

(** The bytes of one channel inside the packed configuration: whatever
    stands in its place is packed between the same bytes, or refused with
    its exception. *)
Lemma pack_config_channel (cfg : Config) (before after : list Channel)
    (ch0 : Channel) (out0 : bytes) :
  pack_config (with_channels (before ++ ch0 :: after) cfg) = Ok out0 ->
  exists c0 pre post,
    pack_channel ch0 = Ok c0
    /\ out0 = pre ++ c0 ++ post
    /\ forall ch,
        channels cfg = before ++ ch :: after ->
        pack_config cfg = (c ← pack_channel ch; Ok (pre ++ c ++ post)).
Proof.
  intros H. unfold pack_config in H.
  cbn [with_channels module_type mezzanine_type channels network mqtt hardware
       pin_config status_update_interval_s] in H.
  apply bind_inv in H as (b_module & E1 & H).
  apply bind_inv in H as (b_mezz & E2 & H).
  apply bind_inv in H as (b_chs & E3 & H).
  apply bind_inv in H as (b_ssid & E4 & H).
  apply bind_inv in H as (b_pwd & E5 & H).
  apply bind_inv in H as (b_broker & E6 & H).
  apply bind_inv in H as (b_client & E7 & H).
  apply bind_inv in H as (b_topic & E8 & H).
  apply bind_inv in H as (b_hw & E9 & H).
  apply bind_inv in H as (pc & E10 & H).
  apply Ok_inj in H. subst out0.
  rewrite pack_channels_app in E3. apply bind_inv in E3 as (b1 & Eb & E3).
  apply bind_inv in E3 as (b2 & E3 & H). apply Ok_inj in H. subst b_chs.
  cbn [pack_channels] in E3. apply bind_inv in E3 as (c0 & Ec & E3).
  apply bind_inv in E3 as (b3 & Ea & H). apply Ok_inj in H. subst b2.
  exists c0, (b_module ++ b_mezz ++ pack_B (len (before ++ ch0 :: after)) ++ b1).
  eexists. split; [exact Ec|]. split.
  { rewrite <- !app_assoc. reflexivity. }
  intros ch Hch. unfold pack_config.
  rewrite Hch, E1, E2, !bind_Ok, pack_channels_app, Eb, bind_Ok.
  cbn [pack_channels]. rewrite Ea.
  replace (len (before ++ ch :: after)) with (len (before ++ ch0 :: after))
    by (unfold len; rewrite !length_app; reflexivity).
  destruct (pack_channel ch) as [c|e]; [|reflexivity].
  rewrite !bind_Ok, E4, E5, E6, E7, E8, E9, E10, !bind_Ok.
  rewrite <- !app_assoc. reflexivity.
Qed.

(** C9 (amended): a negative [shunt_resistance] or [adc_offset] is not
    refused when its thousandfold has an integer part [n]: [n] is zero or
    negative, and [pack_config] writes the record as it writes it with 0.0
    in that field, with the two bytes of [n] modulo 65536, most significant
    first, in place of the two zero bytes.  When the thousandfold has no
    integer part (it is infinite), [pack_config] raises the exception of
    the conversion. *)
Theorem negative_fixed_point_wraps (cfg : Config) (before after : list Channel)
    (ch : Channel) (v : float) :
  channels cfg = before ++ ch :: after ->
  PrimFloat.ltb v 0 = true ->
  let zeroed ch0 := with_channels (before ++ ch0 :: after) cfg in
  let packed r := forall ch0 out0,
    (shunt_resistance ch = Some v
     /\ ch0 = with_shunt_resistance (Some 0%float) ch)
    \/ (adc_offset ch = Some v /\ ch0 = with_adc_offset (Some 0%float) ch) ->
    pack_config (zeroed ch0) = Ok out0 ->
    exists pre post,
      out0 = pre ++ [0; 0] ++ post
      /\ pack_config cfg = (b ← r; Ok (pre ++ b ++ post)) in
  match int_of_float (PrimFloat.mul v 1000) with
  | Ok n =>
      n <= 0
      /\ pack_fixed_point v = Ok [(n / 256) mod 256; n mod 256]
      /\ be_value [(n / 256) mod 256; n mod 256] = n mod 65536
      /\ packed (Ok [(n / 256) mod 256; n mod 256])
  | Raise e => pack_fixed_point v = Raise e /\ packed (Raise e)
  end.
Proof.
  intros Hch Hneg. cbv zeta.
  assert (Hp : forall r, pack_fixed_point v = r ->
            forall ch0 out0,
              (shunt_resistance ch = Some v
               /\ ch0 = with_shunt_resistance (Some 0%float) ch)
              \/ (adc_offset ch = Some v
                  /\ ch0 = with_adc_offset (Some 0%float) ch) ->
              pack_config (with_channels (before ++ ch0 :: after) cfg) = Ok out0 ->
              exists pre post,
                out0 = pre ++ [0; 0] ++ post
                /\ pack_config cfg = (b ← r; Ok (pre ++ b ++ post))).
  { intros r Hr ch0 out0 Hf H.
    apply pack_config_channel in H as (c0 & pre & post & Ec & -> & Hcfg).
    rewrite (Hcfg ch Hch).
    destruct (fixed_point_in_channel ch v) as [Hs Ho].
    destruct Hf as [[Hf ->]|[Hf ->]].
    - destruct (Hs Hf c0 Ec) as (p & q & -> & ->).
      exists (pre ++ p), (q ++ post). rewrite Hr.
      split; [rewrite <- !app_assoc; reflexivity|].
      destruct r as [b|e]; [|reflexivity].
      rewrite !bind_Ok, <- !app_assoc. reflexivity.
    - destruct (Ho Hf c0 Ec) as (p & -> & ->).
      exists (pre ++ p), post. rewrite Hr.
      split; [rewrite <- !app_assoc; reflexivity|].
      destruct r as [b|e]; [|reflexivity].
      rewrite !bind_Ok, <- !app_assoc. reflexivity. }
  destruct (int_of_float (PrimFloat.mul v 1000)) as [n|e] eqn:Hn.
  - assert (Hv : pack_fixed_point v = Ok [(n / 256) mod 256; n mod 256]).
    { unfold pack_fixed_point. rewrite Hn. reflexivity. }
    split; [exact (negative_scaled_int v n Hneg Hn)|].
    split; [exact Hv|]. split; [apply (pack_H_value n)|]. exact (Hp _ Hv).
  - assert (Hv : pack_fixed_point v = Raise e).
    { unfold pack_fixed_point. rewrite Hn. reflexivity. }
    split; [exact Hv | exact (Hp _ Hv)].
Qed.

(** The second test channel with a shunt resistance of -0.249: the field
    holds 65536 - 249. *)
Lemma negative_fixed_point_wraps_witness :
  pack_fixed_point (-0x1.fdf3b645a1cacp-3)%float = Ok [255; 7]
  /\ be_value [255; 7] = 65536 - 249
  /\ exists pre post,
      pack_config zeroed_cfg = Ok (pre ++ [0; 0] ++ post)
      /\ pack_config negated_cfg = Ok (pre ++ [255; 7] ++ post).
Proof.
  pose proof (negative_fixed_point_wraps negated_cfg
                [sensor "Sensor A" "0b10000011" 0]
                [sensor "Sensor C" "0b10000011" 2;
                 sensor "Sensor D" "0b10100001" 3]
                (with_shunt_resistance (Some (-0x1.fdf3b645a1cacp-3)%float)
                   (sensor "Sensor B" "0b10100001" 1))
                (-0x1.fdf3b645a1cacp-3)%float eq_refl
                ltac:(vm_compute; reflexivity)) as H.
  cbv zeta in H.
  change (int_of_float (PrimFloat.mul (-0x1.fdf3b645a1cacp-3) 1000))
    with (Ok (-249)) in H.
  destruct H as (_ & H1 & H2 & H3).
  split; [exact H1|]. split; [exact H2|].
  assert (P : pack_config zeroed_cfg = Ok packed_zeroed_cfg)
    by (vm_compute; reflexivity).
  destruct (H3 (with_shunt_resistance (Some 0%float)
                  (sensor "Sensor B" "0b10100001" 1))
              packed_zeroed_cfg (or_introl (conj eq_refl eq_refl)) P)
    as (pre & post & E0 & E).
  exists pre, post. split; [rewrite P, E0; reflexivity | exact E].
Defined.

(** C9 (counterexample): a shunt resistance of -1e306 is refused.  Its
    thousandfold overflows to minus infinity, [int] raises [OverflowError]
    and so does [pack_config], which packs the same record with 0.0 in that
    field. *)
Lemma negative_fixed_point_refused :
  shunt_resistance steep = Some (-0x1.6c8e5ca239029p+1016)%float
  /\ PrimFloat.ltb (-0x1.6c8e5ca239029p+1016) 0 = true
  /\ pack_fixed_point (-0x1.6c8e5ca239029p+1016) = Raise OverflowError
  /\ pack_config (with_channels [steep] test_cfg) = Raise OverflowError
  /\ is_ok (pack_config
              (with_channels [with_shunt_resistance (Some 0%float) steep]
                 test_cfg)) = true.
Proof. repeat split; vm_compute; reflexivity. Qed.

(** *** Truncated streams *)

Lemma slice_app_within (buf tail : bytes) (a b : Z) :
  0 <= a -> b <= len buf -> slice (buf ++ tail) a b = slice buf a b.
Proof.
  intros Ha Hb. unfold slice, len in *.
  destruct (Z.le_gt_cases b a) as [Hle|Hlt].
  { replace (Z.to_nat (b - a)) with O by lia. reflexivity. }
  rewrite skipn_app, firstn_app.
  replace (Z.to_nat (b - a) - List.length (skipn (Z.to_nat a) buf))%nat with O
    by (rewrite length_skipn; lia).
  cbn [firstn]. apply app_nil_r.
Qed.

Lemma read_exact_inv (buf : bytes) (o n : Z) (bs : bytes) :
  read_exact buf o n = Ok bs -> 0 <= o -> 0 <= n ->
  o + n <= len buf /\ forall tail, read_exact (buf ++ tail) o n = Ok bs.
Proof.
  intros H Ho Hn. unfold read_exact in *.
  destruct (Z.ltb_spec o 0) as [|_]; [lia|].
  destruct (Z.leb_spec 0 o) as [_|]; [|lia].
  destruct (Z.leb_spec (o + n) (len buf)) as [Hle|]; [|discriminate].
  cbn [andb] in H. injection H as <-. split; [exact Hle|].
  intros tail. rewrite len_app. pose proof (len_nonneg tail).
  destruct (Z.leb_spec (o + n) (len buf + len tail)); [|lia].
  cbn [andb]. rewrite slice_app_within by lia. reflexivity.
Qed.

Lemma getitem_ext (buf : bytes) (o b : Z) :
  getitem buf o = Ok b -> 0 <= o ->
  o + 1 <= len buf /\ forall tail, getitem (buf ++ tail) o = Ok b.
Proof.
  intros H Ho. destruct (getitem_inv buf o b Ho H) as (H1 & _ & H2). auto.
Qed.

Lemma getitem_byte (buf : bytes) (o b : Z) :
  Forall is_byte buf -> getitem buf o = Ok b -> 0 <= b < 256.
Proof.
  intros HF H. apply getitem_In in H. rewrite List.Forall_forall in HF.
  apply (HF _ H).
Qed.

Lemma unpack_H_inv (buf : bytes) (o v : Z) :
  unpack_H buf o = Ok v -> 0 <= o ->
  o + 2 <= len buf /\ forall tail, unpack_H (buf ++ tail) o = Ok v.
Proof.
  intros H Ho. unfold unpack_H in *.
  apply bind_inv in H as (b & E & H).
  destruct (read_exact_inv _ _ _ _ E Ho ltac:(lia)) as [H1 H2].
  split; [exact H1|]. intros tail. rewrite H2. exact H.
Qed.

Lemma unpack_fixed_point_inv (buf : bytes) (o : Z) (v : float) :
  unpack_fixed_point buf o = Ok v -> 0 <= o ->
  o + 2 <= len buf /\ forall tail, unpack_fixed_point (buf ++ tail) o = Ok v.
Proof.
  intros H Ho. unfold unpack_fixed_point in *.
  apply bind_inv in H as (b & E & H).
  destruct (unpack_H_inv _ _ _ E Ho) as [H1 H2].
  split; [exact H1|]. intros tail. rewrite H2. exact H.
Qed.

Lemma unpack_string_inv (buf : bytes) (o : Z) (s : string) (o' : Z) :
  unpack_string buf o = Ok (s, o') -> Forall is_byte buf -> 0 <= o ->
  stays unpack_string buf o s o'.
Proof.
  intros H HF Ho. unfold unpack_string in H.
  apply bind_inv in H as (n & E & H). apply bind_inv in H as (s' & D & H).
  injection H as -> <-.
  pose proof (getitem_byte _ _ _ HF E) as Hn.
  destruct (getitem_ext _ _ _ E Ho) as [H1 H2].
  split; [lia|]. intros Hle tail. unfold unpack_string.
  rewrite H2, bind_Ok, slice_app_within, D by lia. reflexivity.
Qed.

(** Splits a successful run [H] at every call and records, for each call,
    how far it read and that a longer buffer gives the same. *)
Ltac learn HF E :=
  lazymatch type of E with
  | getitem _ _ = Ok _ =>
      let B := fresh "B" in
      pose proof (getitem_byte _ _ _ HF E) as B;
      apply getitem_ext in E as [? ?]; [|lia]
  | read_exact _ _ _ = Ok _ => apply read_exact_inv in E as [? ?]; [|lia|lia]
  | unpack_H _ _ = Ok _ => apply unpack_H_inv in E as [? ?]; [|lia]
  | unpack_fixed_point _ _ = Ok _ =>
      apply unpack_fixed_point_inv in E as [? ?]; [|lia]
  | unpack_string _ _ = Ok _ =>
      apply unpack_string_inv in E as [? ?]; [|exact HF|lia]
  end.

Ltac run HF H :=
  cbv beta iota zeta in H;
  lazymatch type of H with
  | (mbind _ _) = Ok _ =>
      let a := fresh "r" in
      let E := fresh "E" in
      apply bind_inv in H as (a & E & H);
      try (destruct a as [? ?]);
      run HF E; run HF H
  | (if ?c then _ else _) = Ok _ =>
      let C := fresh "C" in
      destruct c eqn:C; run HF H
  | Ok _ = Ok _ => injection H as ?; subst
  | _ => first [learn HF H | idtac]
  end.

(** Replays on a longer buffer what [run] recorded. *)
Ltac replay :=
  repeat (first
    [ match goal with
      | X : forall tail, _ = Ok _ |- _ => rewrite X
      | X : _ -> forall tail, _ = Ok _ |- _ => rewrite X by lia
      | C : ?c = _ |- context [if ?c then _ else _] => rewrite C
      end
    | rewrite bind_Ok ];
    cbv beta iota zeta).

Lemma unpack_channel_inv (buf : bytes) (o : Z) (ch : Channel) (o' : Z) :
  unpack_channel buf o = Ok (ch, o') -> Forall is_byte buf -> 0 <= o ->
  stays unpack_channel buf o ch o'.
Proof.
  intros H HF Ho. unfold unpack_channel in H. run HF H.
  all: (split; [lia|]; intros Hle tail; unfold unpack_channel; replay; reflexivity).
Qed.

Lemma unpack_channels_inv (buf : bytes) (n : nat) :
  Forall is_byte buf ->
  forall o chs o',
    unpack_channels n buf o = Ok (chs, o') -> 0 <= o ->
    stays (unpack_channels n) buf o chs o'.
Proof.
  intros HF. induction n as [|n IH]; intros o chs o' H Ho;
    cbn [unpack_channels] in H.
  - injection H as <- <-. split; [lia|]. reflexivity.
  - apply bind_inv in H as ([ch o1] & E1 & H).
    apply bind_inv in H as ([rest o2] & E2 & H). injection H as <- <-.
    apply unpack_channel_inv in E1 as [? X1]; [|exact HF|lia].
    apply IH in E2 as [? X2]; [|lia].
    split; [lia|]. intros Hle tail. cbn [unpack_channels].
    rewrite X1, bind_Ok by lia. rewrite X2 by lia. reflexivity.
Qed.

Lemma unpack_gpio_inv (buf : bytes) (range : list Z) :
  Forall is_byte buf ->
  forall gpio o pins o',
    unpack_gpio range gpio buf o = Ok (pins, o') -> 0 <= o ->
    stays (unpack_gpio range gpio) buf o pins o'.
Proof.
  intros HF. induction range as [|i range IH]; intros gpio o pins o' H Ho;
    cbn [unpack_gpio] in H.
  - injection H as <- <-. split; [lia|]. reflexivity.
  - apply bind_inv in H as (packed & E & H). cbv zeta in H.
    apply getitem_ext in E as [? X]; [|lia].
    apply IH in H as [? X2]; [|lia].
    split; [lia|]. intros Hle tail. cbn [unpack_gpio].
    rewrite X, bind_Ok. cbv zeta. apply X2. lia.
Qed.

Lemma unpack_adc_addrs_inv (buf : bytes) (n : nat) :
  forall o addrs o',
    unpack_adc_addrs n buf o = Ok (addrs, o') -> 0 <= o ->
    stays (unpack_adc_addrs n) buf o addrs o'.
Proof.
  induction n as [|n IH]; intros o addrs o' H Ho; cbn [unpack_adc_addrs] in H.
  - injection H as <- <-. split; [lia|]. reflexivity.
  - apply bind_inv in H as (addr & E & H). cbv zeta in H.
    apply bind_inv in H as ([rest o2] & E2 & H). injection H as <- <-.
    apply getitem_ext in E as [? X]; [|lia].
    apply IH in E2 as [? X2]; [|lia].
    split; [lia|]. intros Hle tail. cbn [unpack_adc_addrs].
    rewrite X, bind_Ok. cbv zeta. rewrite X2 by lia. reflexivity.
Qed.

(** Whatever [unpack_config] accepts, it read inside the buffer, and it
    reads the same from any longer buffer. *)
Lemma unpack_config_at_inv (buf : bytes) (cfg : Config) (off : Z) :
  Forall is_byte buf -> unpack_config_at buf = Ok (cfg, off) ->
  0 <= off <= len buf
  /\ forall tail, unpack_config_at (buf ++ tail) = Ok (cfg, off).
Proof.
  intros HF H. unfold unpack_config_at in H.
  cbv beta iota zeta in H.
  repeat (let a := fresh "r" in
          let E := fresh "E" in
          apply bind_inv in H as (a & E & H);
          try (destruct a as [? ?]);
          cbv beta iota zeta in H;
          first [ learn HF E
                | apply unpack_channels_inv in E as [? ?]; [|exact HF|lia]
                | apply unpack_gpio_inv in E as [? ?]; [|exact HF|lia]
                | apply unpack_adc_addrs_inv in E as [? ?]; [|lia] ]).
  injection H as <- <-. split; [lia|].
  intros tail. unfold unpack_config_at. cbv beta iota zeta.
  replay. reflexivity.
Qed.

Lemma bind_raise_inv {A B} (m : res A) (k : A -> res B) (e : exn) :
  (m ≫= k) = Raise e -> m = Raise e \/ exists a, m = Ok a /\ k a = Raise e.
Proof.
  destruct m as [a|e']; intros H; [right; eauto | left].
  change (Raise (A := B) e' = Raise e) in H. injection H as ->. reflexivity.
Qed.

Lemma getitem_raise (buf : bytes) (o : Z) (e : exn) :
  getitem buf o = Raise e -> decoding_error e.
Proof.
  unfold getitem. destruct (_ && _); [discriminate|].
  intros [= <-]. left. reflexivity.
Qed.

Lemma read_exact_raise (buf : bytes) (o n : Z) (e : exn) :
  read_exact buf o n = Raise e -> decoding_error e.
Proof.
  unfold read_exact. destruct (_ && _); [discriminate|].
  intros [= <-]. right. left. reflexivity.
Qed.

Lemma decode_raise (b : bytes) (e : exn) : decode b = Raise e -> decoding_error e.
Proof.
  unfold decode. destruct (utf8_check 0 b); [discriminate|].
  intros [= <-]. right. right. reflexivity.
Qed.

(** Finds the call that raised in a run that failed. *)
Ltac fails H :=
  cbv beta iota zeta in H;
  lazymatch type of H with
  | mbind _ _ = Raise _ =>
      let a := fresh "a" in
      apply bind_raise_inv in H as [H|(a & _ & H)];
      [fails H | try (destruct a as [? ?]); fails H]
  | (if ?c then _ else _) = Raise _ => destruct c; fails H
  | Ok _ = Raise _ => discriminate H
  | getitem _ _ = Raise _ => exact (getitem_raise _ _ _ H)
  | read_exact _ _ _ = Raise _ => exact (read_exact_raise _ _ _ _ H)
  | decode _ = Raise _ => exact (decode_raise _ _ H)
  | unpack_H _ _ = Raise _ => unfold unpack_H in H; fails H
  | unpack_fixed_point _ _ = Raise _ => unfold unpack_fixed_point in H; fails H
  | unpack_string _ _ = Raise _ => unfold unpack_string in H; fails H
  | unpack_channel _ _ = Raise _ => unfold unpack_channel in H; fails H
  | _ => eauto
  end.

Lemma unpack_channels_raise (n : nat) (buf : bytes) (e : exn) :
  forall o, unpack_channels n buf o = Raise e -> decoding_error e.
Proof.
  induction n as [|n IH]; intros o H; cbn [unpack_channels] in H; fails H.
Qed.

Lemma unpack_gpio_raise (range : list Z) (buf : bytes) (e : exn) :
  forall gpio o, unpack_gpio range gpio buf o = Raise e -> decoding_error e.
Proof.
  induction range as [|i range IH]; intros gpio o H; cbn [unpack_gpio] in H;
    fails H.
Qed.

Lemma unpack_adc_addrs_raise (n : nat) (buf : bytes) (e : exn) :
  forall o, unpack_adc_addrs n buf o = Raise e -> decoding_error e.
Proof.
  induction n as [|n IH]; intros o H; cbn [unpack_adc_addrs] in H; fails H.
Qed.

Lemma unpack_config_raise (buf : bytes) (e : exn) :
  unpack_config buf = Raise e -> decoding_error e.
Proof.
  intros H. unfold unpack_config, unpack_config_at in H.
  pose proof unpack_channels_raise. pose proof unpack_gpio_raise.
  pose proof unpack_adc_addrs_raise. fails H.
Qed.

Lemma firstn_is_byte (k : nat) (buf : bytes) :
  Forall is_byte buf -> Forall is_byte (firstn k buf).
Proof. intros H. apply Forall_take. exact H. Qed.

(** C3: whatever [unpack_config] accepts, the fields it read lie inside the
    buffer, up to the offset [off] it stopped at; and a stream cut anywhere
    before [off] is refused, with an exception, never decoded with a field
    built from the bytes that are left. *)
Theorem unpack_config_truncated (buf : bytes) (cfg : Config) (off : Z) :
  Forall is_byte buf ->
  unpack_config_at buf = Ok (cfg, off) ->
  unpack_config buf = Ok cfg
  /\ 0 <= off <= len buf
  /\ forall k, (Z.of_nat k < off) ->
       exists e, unpack_config (firstn k buf) = Raise e /\ decoding_error e.
Proof.
  intros HF H. split; [unfold unpack_config; rewrite H; reflexivity|].
  destruct (unpack_config_at_inv buf cfg off HF H) as [Hoff _].
  split; [exact Hoff|]. intros k Hk.
  destruct (unpack_config (firstn k buf)) as [cfg'|e] eqn:E';
    [|exists e; split; [reflexivity | exact (unpack_config_raise _ _ E')]].
  exfalso. unfold unpack_config in E'.
  apply bind_inv in E' as ([cfg'' off'] & E & _).
  destruct (unpack_config_at_inv _ _ _ (firstn_is_byte k buf HF) E) as [Hoff' Hext].
  specialize (Hext (skipn k buf)). rewrite firstn_skipn, H in Hext.
  injection Hext as _ ->.
  unfold len in Hoff'. rewrite length_firstn in Hoff'. lia.
Qed.

(** *** Round trip *)

Lemma cursor_start (buf : bytes) : cursor buf 0 buf.
Proof. exists []. split; reflexivity. Qed.

Lemma cursor_app (buf : bytes) (o : Z) (bs rest : bytes) :
  cursor buf o (bs ++ rest) -> cursor buf (o + len bs) rest.
Proof.
  intros (pre & -> & ->). exists (pre ++ bs).
  rewrite <- app_assoc, len_app. split; reflexivity.
Qed.

Lemma cursor_cons (buf : bytes) (o b : Z) (rest : bytes) :
  cursor buf o (b :: rest) -> cursor buf (o + 1) rest.
Proof. intros H. apply (cursor_app buf o [b] rest H). Qed.

Lemma cursor_getitem (buf : bytes) (o b : Z) (rest : bytes) :
  cursor buf o (b :: rest) -> getitem buf o = Ok b.
Proof.
  intros (pre & -> & ->). unfold getitem.
  pose proof (len_nonneg pre). pose proof (len_nonneg rest).
  destruct (Z.ltb_spec (len pre) 0); [lia|].
  assert (E : len (pre ++ b :: rest) = len pre + 1 + len rest)
    by (unfold len; rewrite length_app; cbn [List.length]; lia).
  rewrite E. destruct (Z.leb_spec 0 (len pre)); [|lia].
  destruct (Z.ltb_spec (len pre) (len pre + 1 + len rest)); [|lia].
  cbn [andb]. unfold len. rewrite Nat2Z.id, nth_middle. reflexivity.
Qed.

Lemma cursor_slice (buf : bytes) (o : Z) (bs rest : bytes) :
  cursor buf o (bs ++ rest) -> slice buf o (o + len bs) = bs.
Proof.
  intros (pre & -> & ->). unfold slice, len.
  replace (Z.to_nat (Z.of_nat (List.length pre) + Z.of_nat (List.length bs)
                     - Z.of_nat (List.length pre))) with (List.length bs) by lia.
  rewrite Nat2Z.id, drop_app_length, take_app_length. reflexivity.
Qed.

Lemma cursor_read_exact (buf : bytes) (o n : Z) (bs rest : bytes) :
  cursor buf o (bs ++ rest) -> len bs = n -> read_exact buf o n = Ok bs.
Proof.
  intros C <-. pose proof (cursor_slice _ _ _ _ C) as Hs.
  destruct C as (pre & -> & ->). unfold read_exact.
  pose proof (len_nonneg pre). pose proof (len_nonneg rest).
  destruct (Z.ltb_spec (len pre) 0); [lia|].
  rewrite !len_app. destruct (Z.leb_spec 0 (len pre)); [|lia].
  destruct (Z.leb_spec (len pre + len bs) (len pre + (len bs + len rest))); [|lia].
  cbn [andb]. rewrite Hs. reflexivity.
Qed.

Lemma ascii_byte_round (a : ascii) : ascii_of_byte (byte_of_ascii a) = a.
Proof.
  unfold ascii_of_byte, byte_of_ascii. rewrite N2Z.id. apply ascii_N_embedding.
Qed.

Lemma decode_encode (s : string) :
  utf8_check 0 (encode s) = true -> decode (encode s) = Ok s.
Proof.
  intros H. unfold decode. rewrite H. f_equal. unfold encode.
  rewrite List.map_map.
  rewrite (List.map_ext _ (fun a => a) ascii_byte_round), List.map_id.
  apply string_of_list_ascii_of_string.
Qed.

Lemma pack_B_small (v : Z) : 0 <= v <= 255 -> pack_B v = [v].
Proof. intros H. unfold pack_B. rewrite Z.mod_small by lia. reflexivity. Qed.

Lemma pack_H_small (v : Z) : 0 <= v <= 65535 -> be_value (pack_H v) = v.
Proof. intros H. rewrite pack_H_value. apply Z.mod_small. lia. Qed.

Lemma pack_string_inv (s : string) (bs : bytes) :
  pack_string s = Ok bs ->
  bs = len (encode s) :: encode s /\ 0 <= len (encode s) <= 255.
Proof.
  unfold pack_string. pose proof (len_nonneg (encode s)).
  destruct (Z.gtb_spec (len (encode s)) 255); [discriminate|].
  intros [= <-]. rewrite Z.mod_small by lia. split; [reflexivity | lia].
Qed.

(** A packed text is read back. *)
Lemma unpack_string_of_pack (s : string) (bs : bytes) (buf : bytes) (o : Z)
    (rest : bytes) :
  pack_string s = Ok bs -> utf8_check 0 (encode s) = true ->
  cursor buf o (bs ++ rest) ->
  unpack_string buf o = Ok (s, o + 1 + len (encode s))
  /\ cursor buf (o + 1 + len (encode s)) rest.
Proof.
  intros P U C. apply pack_string_inv in P as [-> Hl]. cbn [app] in C.
  unfold unpack_string. rewrite (cursor_getitem _ _ _ _ C), bind_Ok.
  apply cursor_cons in C.
  rewrite (cursor_slice _ _ _ _ C), (decode_encode s U), bind_Ok.
  split; [reflexivity|]. apply cursor_app. exact C.
Qed.

Lemma unpack_H_cursor (v : Z) (buf : bytes) (o : Z) (rest : bytes) :
  cursor buf o (pack_H v ++ rest) ->
  unpack_H buf o = Ok (v mod 65536) /\ cursor buf (o + 2) rest.
Proof.
  intros C. unfold unpack_H.
  rewrite (cursor_read_exact _ _ 2 _ _ C) by reflexivity.
  rewrite bind_Ok, pack_H_value. split; [reflexivity|].
  apply (cursor_app _ _ (pack_H v)). exact C.
Qed.


Lemma byte_ok_inv (v : Z) : byte_ok v = true -> 0 <= v <= 255.
Proof. unfold byte_ok. lia. Qed.

Lemma word_ok_inv (v : Z) : word_ok v = true -> 0 <= v <= 65535.
Proof. unfold word_ok. lia. Qed.

Lemma text_ok_inv (s : string) :
  text_ok s = true ->
  utf8_check 0 (encode s) = true
  /\ pack_string s = Ok (len (encode s) :: encode s).
Proof.
  unfold text_ok. intros [U L]%andb_true_iff. split; [exact U|].
  unfold pack_string. destruct (Z.gtb_spec (len (encode s)) 255); [lia|].
  pose proof (len_nonneg (encode s)). rewrite pack_B_small by lia. reflexivity.
Qed.

Lemma rendered_inv (base : Z) (render : Z -> string) (s : string) :
  rendered base render s = true ->
  exists a, int_of_str base s = Ok a /\ 0 <= a <= 255 /\ render a = s.
Proof.
  unfold rendered. destruct (int_of_str base s) as [a|]; [|discriminate].
  intros [B E]%andb_true_iff. exists a. split; [reflexivity|].
  split; [apply byte_ok_inv, B | apply String.eqb_eq, E].
Qed.

Lemma fixed_ok_inv (v : float) :
  fixed_ok v = true ->
  exists n, pack_fixed_point v = Ok (pack_H n) /\ 0 <= n <= 65535
            /\ stored_fixed_point v = PrimFloat.div (float_of_int n) 1000.
Proof.
  unfold fixed_ok, pack_fixed_point, stored_fixed_point.
  destruct (int_of_float _) as [n|]; [|discriminate].
  intros H%word_ok_inv. exists n. rewrite Z.mod_small by lia. auto.
Qed.

Lemma unpack_fixed_point_cursor (n : Z) (buf : bytes) (o : Z) (rest : bytes) :
  0 <= n <= 65535 -> cursor buf o (pack_H n ++ rest) ->
  unpack_fixed_point buf o = Ok (PrimFloat.div (float_of_int n) 1000)
  /\ cursor buf (o + 2) rest.
Proof.
  intros Hn C. unfold unpack_fixed_point.
  destruct (unpack_H_cursor n buf o rest C) as [-> C'].
  rewrite bind_Ok, Z.mod_small by lia. auto.
Qed.

Lemma unpack_string_cursor (s : string) (buf : bytes) (o : Z) (rest : bytes) :
  utf8_check 0 (encode s) = true ->
  cursor buf o (len (encode s) :: encode s ++ rest) ->
  unpack_string buf o = Ok (s, o + 1 + len (encode s))
  /\ cursor buf (o + 1 + len (encode s)) rest.
Proof.
  intros U C. unfold unpack_string. rewrite (cursor_getitem _ _ _ _ C), bind_Ok.
  apply cursor_cons in C.
  rewrite (cursor_slice _ _ _ _ C), (decode_encode s U), bind_Ok.
  split; [reflexivity|]. apply cursor_app. exact C.
Qed.

(** Reads the next field at the cursor [C]. *)
Ltac advance C :=
  match goal with
  | |- context [unpack_string ?buf ?o] =>
      match type of C with
      | cursor buf o (len (encode ?s) :: encode ?s ++ ?rest) =>
          let C' := fresh "C" in
          destruct (unpack_string_cursor s buf o rest ltac:(assumption) C)
            as [-> C'];
          clear C; rename C' into C
      end
  | |- context [unpack_fixed_point ?buf ?o] =>
      match type of C with
      | cursor buf o (pack_H ?n ++ ?rest) =>
          let C' := fresh "C" in
          destruct (unpack_fixed_point_cursor n buf o rest ltac:(lia) C) as [-> C'];
          clear C; rename C' into C
      end
  | |- context [unpack_H ?buf ?o] =>
      match type of C with
      | cursor buf o (pack_H ?n ++ ?rest) =>
          let C' := fresh "C" in
          destruct (unpack_H_cursor n buf o rest C) as [-> C'];
          clear C; rename C' into C
      end
  | |- context [read_exact ?buf ?o 4] =>
      match type of C with
      | cursor buf o (?a :: ?b :: ?c :: ?d :: ?rest) =>
          rewrite (cursor_read_exact buf o 4 [a; b; c; d] rest C eq_refl);
          apply (cursor_app buf o [a; b; c; d] rest) in C;
          change (len [a; b; c; d]) with 4 in C
      end
  | |- context [getitem ?buf ?o] =>
      match type of C with
      | cursor buf o (?b :: ?rest) =>
          rewrite (cursor_getitem buf o b rest C);
          apply cursor_cons in C
      end
  end;
  rewrite ?bind_Ok; cbv beta iota zeta.

Lemma unpack_channel_of_pack (ch : Channel) (b : bytes) (buf : bytes) (o : Z)
    (rest : bytes) :
  channel_ok ch = true -> pack_channel ch = Ok b -> cursor buf o (b ++ rest) ->
  exists o',
    unpack_channel buf o = Ok (stored_channel ch, o') /\ cursor buf o' rest.
Proof.
  intros Hok P C. rewrite pack_channel_parts in P.
  unfold channel_ok in Hok. repeat rewrite andb_true_iff in Hok.
  destruct Hok as (((((((Hn & Hct) & Hit) & Hcn%byte_ok_inv) & Hac%byte_ok_inv)
                      & Hmr) & Hsh) & Hoff).
  unfold pack_channel_head, stored_channel in *.
  destruct ch as [nm ct it cn ac mr g sh off].
  cbn [name channel_type interface_type channel_number actions measurement_range
       adc_hardware_gain shunt_resistance adc_offset] in *.
  apply text_ok_inv in Hn as [U Hn].
  apply rendered_inv in Hct as (a_ct & Hct & Bct & <-).
  apply rendered_inv in Hit as (a_it & Hit & Bit & <-).
  rewrite Hn, Hct, Hit, !bind_Ok in P.
  destruct mr as [r|], g as [g|], sh as [sh|], off as [off|];
    cbn [option_ok has_key pack_optional_fixed_point fmap option_fmap option_map] in *;
    try (apply rendered_inv in Hmr as (a_r & Hmr & Br & <-); rewrite Hmr in P);
    try (apply fixed_ok_inv in Hsh as (n_sh & Hsh & Bsh & ->); rewrite Hsh in P);
    try (apply fixed_ok_inv in Hoff as (n_off & Hoff & Boff & ->); rewrite Hoff in P);
    rewrite ?bind_Ok in P; apply Ok_inj in P; subst b;
    match type of C with
    | context [adc_fields_present ?c] =>
        let v := eval vm_compute in (adc_fields_present c) in
        change (adc_fields_present c) with v in C
    end;
    cbn [app] in C; rewrite <- ?app_assoc in C;
    rewrite ?pack_B_small in C by lia;
    unfold pack_f in C; cbn [app] in C;
    unfold unpack_channel;
    advance C;
    advance C; cbn [nth]; advance C; eval_flags; cbv beta iota zeta;
    rewrite ?bind_Ok; cbv beta iota zeta.
  all: try (advance C; cbv beta iota zeta; rewrite ?bind_Ok; cbv beta iota zeta).
  all: try (advance C; cbv beta iota zeta; rewrite ?bind_Ok; cbv beta iota zeta).
  all: try (advance C; cbv beta iota zeta; rewrite ?bind_Ok; cbv beta iota zeta).
  all: try (advance C; cbv beta iota zeta; rewrite ?bind_Ok; cbv beta iota zeta).
  all: eexists; split; [reflexivity | try exact C].
Qed.

Lemma pack_channel_ok (ch : Channel) :
  channel_ok ch = true -> exists b, pack_channel ch = Ok b.
Proof.
  intros Hok. rewrite pack_channel_parts.
  unfold channel_ok in Hok. repeat rewrite andb_true_iff in Hok.
  destruct Hok as (((((((Hn & Hct) & Hit) & _) & _) & Hmr) & Hsh) & Hoff).
  unfold pack_channel_head.
  apply text_ok_inv in Hn as [_ ->].
  apply rendered_inv in Hct as (a_ct & -> & _).
  apply rendered_inv in Hit as (a_it & -> & _).
  rewrite !bind_Ok.
  destruct (measurement_range ch) as [r|], (shunt_resistance ch) as [sh|],
    (adc_offset ch) as [off|];
    cbn [option_ok pack_optional_fixed_point] in *;
    try (apply rendered_inv in Hmr as (a_r & -> & _));
    try (apply fixed_ok_inv in Hsh as (n_sh & -> & _));
    try (apply fixed_ok_inv in Hoff as (n_off & -> & _));
    rewrite ?bind_Ok; eexists; reflexivity.
Qed.

Lemma channels_round_trip (chs : list Channel) :
  forallb channel_ok chs = true ->
  exists b,
    pack_channels chs = Ok b
    /\ forall buf o rest,
        cursor buf o (b ++ rest) ->
        exists o',
          unpack_channels (List.length chs) buf o
          = Ok (List.map stored_channel chs, o')
          /\ cursor buf o' rest.
Proof.
  induction chs as [|ch chs IH]; intros Hok.
  - exists []. split; [reflexivity|]. intros buf o rest C. exists o. auto.
  - cbn [forallb] in Hok. apply andb_true_iff in Hok as [Hch Hchs].
    destruct (pack_channel_ok ch Hch) as [b1 P1].
    destruct (IH Hchs) as (b2 & P2 & U2).
    exists (b1 ++ b2). cbn [pack_channels]. rewrite P1, bind_Ok, P2, bind_Ok.
    split; [reflexivity|]. intros buf o rest C. rewrite <- app_assoc in C.
    destruct (unpack_channel_of_pack ch b1 buf o _ Hch P1 C) as (o1 & E1 & C1).
    destruct (U2 buf o1 rest C1) as (o2 & E2 & C2).
    exists o2. cbn [List.length unpack_channels List.map].
    rewrite E1, bind_Ok, E2, bind_Ok. auto.
Qed.

Lemma adc_addrs_round_trip (addrs : list string) :
  forallb (rendered 16 hex) addrs = true ->
  exists b,
    pack_adc_addrs addrs = Ok b
    /\ forall buf o rest,
        cursor buf o (b ++ rest) ->
        exists o',
          unpack_adc_addrs (List.length addrs) buf o = Ok (addrs, o')
          /\ cursor buf o' rest.
Proof.
  induction addrs as [|addr addrs IH]; intros Hok.
  - exists []. split; [reflexivity|]. intros buf o rest C. exists o. auto.
  - cbn [forallb] in Hok. apply andb_true_iff in Hok as [Ha Hs].
    apply rendered_inv in Ha as (a & Ea & Ba & <-).
    destruct (IH Hs) as (b2 & P2 & U2).
    exists (pack_B a ++ b2). cbn [pack_adc_addrs]. rewrite Ea, bind_Ok, P2, bind_Ok.
    split; [reflexivity|]. intros buf o rest C.
    rewrite <- app_assoc, pack_B_small in C by lia. cbn [app] in C.
    cbn [List.length unpack_adc_addrs].
    rewrite (cursor_getitem _ _ _ _ C), bind_Ok. cbv zeta.
    apply cursor_cons in C. destruct (U2 buf (o + 1) rest C) as (o2 & E2 & C2).
    exists o2. rewrite E2, bind_Ok. auto.
Qed.


Lemma nibbles (hi lo : Z) :
  0 <= hi <= 15 -> 0 <= lo <= 15 ->
  let p := Z.lor (Z.shiftl (Z.land hi 0x0F) 4) (Z.land lo 0x0F) in
  pack_B p = [p] /\ Z.land (Z.shiftr p 4) 0x0F = hi /\ Z.land p 0x0F = lo.
Proof.
  intros Hh Hl.
  assert (Hc : forallb (fun h => forallb (fun l =>
            let p := Z.lor (Z.shiftl (Z.land h 0x0F) 4) (Z.land l 0x0F) in
            (p mod 256 =? p) && (Z.land (Z.shiftr p 4) 0x0F =? h)
            && (Z.land p 0x0F =? l))
            (List.map Z.of_nat (List.seq 0 16)))
            (List.map Z.of_nat (List.seq 0 16)) = true)
    by (vm_compute; reflexivity).
  rewrite forallb_forall in Hc.
  assert (Hin : forall x, 0 <= x <= 15 -> In x (List.map Z.of_nat (List.seq 0 16))).
  { intros x Hx. apply in_map_iff. exists (Z.to_nat x). split; [lia|].
    apply in_seq. lia. }
  specialize (Hc hi (Hin hi Hh)). rewrite forallb_forall in Hc.
  specialize (Hc lo (Hin lo Hl)). cbv zeta in Hc |- *.
  apply andb_true_iff in Hc as [[H1 H2]%andb_true_iff H3].
  unfold pack_B. rewrite (proj1 (Z.eqb_eq _ _) H1). split; [reflexivity|]. lia.
Qed.

Ltac eval_keys :=
  repeat match goal with
         | |- context [str_of_int (?a + ?b)] =>
             let v := eval vm_compute in (str_of_int (a + b)) in
             change (str_of_int (a + b)) with v
         | H : context [str_of_int ?k] |- _ =>
             let v := eval vm_compute in (str_of_int k) in
             change (str_of_int k) with v in H
         end.

Lemma gpio_round_trip (pins : gmap string Z) :
  gpio_ok pins = true ->
  exists b,
    pack_gpio pins [0; 2; 4; 6] = Ok b
    /\ forall buf o rest,
        cursor buf o (b ++ rest) ->
        exists o',
          unpack_gpio [0; 2; 4; 6] ∅ buf o = Ok (pins, o')
          /\ cursor buf o' rest.
Proof.
  unfold gpio_ok. intros [Hk Hs]%andb_true_iff. cbn [forallb] in Hk.
  repeat rewrite andb_true_iff in Hk.
  destruct Hk as (K1 & K2 & K3 & K4 & K5 & K6 & K7 & K8 & _).
  unfold pin_ok in *. eval_keys.
  destruct (pins !! "1"%string) as [v1|] eqn:E1; [|discriminate].
  destruct (pins !! "2"%string) as [v2|] eqn:E2; [|discriminate].
  destruct (pins !! "3"%string) as [v3|] eqn:E3; [|discriminate].
  destruct (pins !! "4"%string) as [v4|] eqn:E4; [|discriminate].
  destruct (pins !! "5"%string) as [v5|] eqn:E5; [|discriminate].
  destruct (pins !! "6"%string) as [v6|] eqn:E6; [|discriminate].
  destruct (pins !! "7"%string) as [v7|] eqn:E7; [|discriminate].
  destruct (pins !! "8"%string) as [v8|] eqn:E8; [|discriminate].
  destruct (nibbles v1 v2 ltac:(lia) ltac:(lia)) as (P12 & A1 & A2).
  destruct (nibbles v3 v4 ltac:(lia) ltac:(lia)) as (P34 & A3 & A4).
  destruct (nibbles v5 v6 ltac:(lia) ltac:(lia)) as (P56 & A5 & A6).
  destruct (nibbles v7 v8 ltac:(lia) ltac:(lia)) as (P78 & A7 & A8).
  cbv zeta in *.
  eexists. split.
  { cbn [pack_gpio]. unfold pack_gpio_pair. eval_keys.
    rewrite E1, E2, E3, E4, E5, E6, E7, E8. cbn [getkey].
    rewrite !bind_Ok, P12, P34, P56, P78. reflexivity. }
  intros buf o rest C. cbn [app] in C. cbn [unpack_gpio].
  rewrite (cursor_getitem _ _ _ _ C), bind_Ok. cbv zeta. apply cursor_cons in C.
  rewrite (cursor_getitem _ _ _ _ C), bind_Ok. cbv zeta. apply cursor_cons in C.
  rewrite (cursor_getitem _ _ _ _ C), bind_Ok. cbv zeta. apply cursor_cons in C.
  rewrite (cursor_getitem _ _ _ _ C), bind_Ok. cbv zeta. apply cursor_cons in C.
  eval_keys. rewrite A1, A2, A3, A4, A5, A6, A7, A8.
  eexists. split; [|exact C]. f_equal. f_equal.
  apply map_subseteq_size_eq.
  - apply map_subseteq_spec. intros k v Hkv.
    repeat (apply lookup_insert_Some in Hkv as [[<- <-]|[_ Hkv]]; [assumption|]).
    rewrite lookup_empty in Hkv. discriminate.
  - apply Nat.eqb_eq in Hs. rewrite Hs.
    repeat (rewrite map_size_insert_None;
            [|repeat (rewrite lookup_insert_ne by discriminate);
              apply lookup_empty]).
    rewrite map_size_empty. lia.
Qed.


Ltac advance_more C :=
  first
    [ advance C
    | match goal with
      | |- context [read_exact ?buf ?o 5] =>
          match type of C with
          | cursor buf o (?a :: ?b :: ?c :: ?d :: ?e :: ?rest) =>
              rewrite (cursor_read_exact buf o 5 [a; b; c; d; e] rest C eq_refl);
              apply (cursor_app buf o [a; b; c; d; e] rest) in C;
              change (len [a; b; c; d; e]) with 5 in C
          end
      | |- context [read_exact ?buf ?o 2] =>
          match type of C with
          | cursor buf o (?a :: ?b :: ?rest) =>
              rewrite (cursor_read_exact buf o 2 [a; b] rest C eq_refl);
              apply (cursor_app buf o [a; b] rest) in C;
              change (len [a; b]) with 2 in C
          end
      end; rewrite ?bind_Ok; cbv beta iota zeta ].

(** C2 (amended): a record in the form [unpack_config] produces is packed,
    and unpacking the result gives the record back field for field, except
    that a gain comes back as its nearest 32-bit float and a fixed-point
    field as [int(v * 1000) / 1000.0]. *)
Theorem round_trip (cfg : Config) :
  config_ok cfg = true ->
  exists buf, pack_config cfg = Ok buf /\ unpack_config buf = Ok (stored cfg).
Proof.
  intros Hok. unfold config_ok in Hok. repeat rewrite andb_true_iff in Hok.
  destruct Hok as ((((((((((((Hmod & Hmez) & Hnch) & Hchs) & Hssid) & Hpwd) & Hbrk)
    & Hport%word_ok_inv) & Hcid) & Htop) & Hhw) & Hpc) & Hst%byte_ok_inv).
  unfold hardware_ok in Hhw. repeat rewrite andb_true_iff in Hhw.
  destruct Hhw as (((((((((Hmode & Hbus%byte_ok_inv) & Hsda%byte_ok_inv)
    & Hscl%byte_ok_inv) & Hdev) & Hee) & Hsize) & Hgpio) & Hadc) & Hrate).
  unfold stored, pack_config, pack_hardware.
  destruct cfg as [mod_ mez chs [ssid pwd] [brk prt cid top]
                     [md bus sda scl dev ee size pins adc nadc rate] pc st].
  cbn [module_type mezzanine_type channels network mqtt hardware pin_config
       status_update_interval_s wifi_ssid wifi_password broker port client_id
       base_topic mode i2c_bus_id i2c_sda_pin i2c_scl_pin i2c_device_addr
       eeprom_i2c_addr eeprom_size gpio_host_pins adc_i2c_addrs num_of_adcs
       adc_sampling_rate] in *.
  destruct size as [size|]; [apply word_ok_inv in Hsize|discriminate].
  destruct rate as [rate|]; [apply word_ok_inv in Hrate|discriminate].
  destruct adc as [addrs|]; [|discriminate].
  destruct nadc as [nadc|]; [|rewrite andb_false_r in Hadc; discriminate].
  apply andb_true_iff in Hadc as [[Hnadc Haddrs]%andb_true_iff Hn].
  apply Z.eqb_eq in Hn. subst nadc. apply Z.leb_le in Hnadc, Hnch.
  apply text_ok_inv in Hmod as [Umod Pmod], Hmez as [Umez Pmez],
    Hssid as [Ussid Pssid], Hpwd as [Upwd Ppwd], Hbrk as [Ubrk Pbrk],
    Hcid as [Ucid Pcid], Htop as [Utop Ptop], Hmode as [Umode Pmode].
  apply rendered_inv in Hdev as (a_dev & Pdev & Bdev & <-).
  apply rendered_inv in Hee as (a_ee & Pee & Bee & <-).
  apply rendered_inv in Hpc as (a_pc & Ppc & Bpc & <-).
  destruct (channels_round_trip chs Hchs) as (b_chs & Pchs & Uchs).
  destruct (gpio_round_trip pins Hgpio) as (b_gpio & Pgpio & Ugpio).
  destruct (adc_addrs_round_trip addrs Haddrs) as (b_adc & Padc & Uadc).
  pose proof (len_nonneg chs) as Lchs. pose proof (len_nonneg addrs) as Laddrs.
  cbv zeta. cbn [default from_option id].
  rewrite Pmod, Pmez, Pchs, Pssid, Ppwd, Pbrk, Pcid, Ptop, Pmode, Pdev, Pee,
    Pgpio, Padc, Ppc. rewrite !bind_Ok.
  eexists. split; [reflexivity|].
  unfold unpack_config, unpack_config_at. cbv beta iota zeta.
  match goal with
  | |- context [unpack_string ?buf 0] =>
      pose proof (cursor_start buf) as C;
      remember buf as whole eqn:Hwhole in C at 1 |- *; clear Hwhole
  end.
  cbn [app] in C. rewrite <- ?app_assoc in C. cbn [app] in C.
  rewrite ?pack_B_small in C by lia. rewrite Z.min_l in C by lia.
  rewrite ?pack_B_small in C by lia. cbn [app] in C.
  advance_more C.
  advance_more C.
  advance_more C.
  replace (Z.to_nat (len chs)) with (List.length chs) by (unfold len; lia).
  destruct (Uchs _ _ _ C) as (o1 & -> & C1). clear C.
  rewrite bind_Ok. cbv beta iota zeta.
  advance_more C1.
  advance_more C1.
  advance_more C1.
  advance_more C1.
  advance_more C1.
  advance_more C1.
  advance_more C1.
  advance_more C1. cbn [nth].
  advance_more C1.
  destruct (Ugpio _ _ _ C1) as (o2 & -> & C2). clear C1.
  rewrite bind_Ok. cbv beta iota zeta.
  advance_more C2.
  replace (Z.to_nat (len addrs)) with (List.length addrs) by (unfold len; lia).
  destruct (Uadc _ _ _ C2) as (o3 & -> & C3). clear C2.
  rewrite bind_Ok. cbv beta iota zeta.
  advance_more C3.
  change (@nil Z) with (@nil Z ++ []) in C3.
  advance_more C3. cbn [nth].
  rewrite !Z.mod_small by lia. reflexivity.
Qed.

(** *** The codec on the test configuration *)

(** C2 (counterexample): the round trip of the test configuration changes
    [interface_type] from "01" to "1" (and pins 18 and 19, the address
    "0x4B" and the gains); and in a record written the way the decoder
    writes it, a shunt resistance of 0.0009 comes back as 0.0. *)
Lemma round_trip_changes_test_cfg :
  (exists buf cfg',
      pack_config test_cfg = Ok buf /\ unpack_config buf = Ok cfg'
      /\ agrees tolerance test_cfg cfg' = false
      /\ interface_type <$> channels cfg' = ["1"; "1"; "1"; "1"]%string)
  /\ (exists buf cfg',
        config_ok fine_cfg = true
        /\ pack_config fine_cfg = Ok buf /\ unpack_config buf = Ok cfg'
        /\ agrees tolerance fine_cfg cfg' = false
        /\ shunt_resistance <$> channels cfg' = [Some 0%float]).
Proof.
  split.
  - eexists. eexists. split; [vm_compute; reflexivity|].
    split; [vm_compute; reflexivity|]. split; vm_compute; reflexivity.
  - eexists. eexists. split; [vm_compute; reflexivity|].
    split; [vm_compute; reflexivity|].
    split; [vm_compute; reflexivity|]. split; vm_compute; reflexivity.
Qed.

Lemma round_trip_witness :
  exists buf,
    pack_config fine_cfg = Ok buf /\ unpack_config buf = Ok (stored fine_cfg).
Proof. apply (round_trip fine_cfg). vm_compute. reflexivity. Defined.

Lemma bytes_ok_spec (b : bytes) : bytes_ok b = true -> Forall is_byte b.
Proof.
  unfold bytes_ok. rewrite forallb_forall, List.Forall_forall.
  intros H x Hx. specialize (H x Hx). unfold is_byte. lia.
Qed.

Lemma unpack_config_truncated_witness :
  (exists cfg, unpack_config packed_test_cfg = Ok cfg)
  /\ exists e,
      unpack_config (firstn 100 packed_test_cfg) = Raise e /\ decoding_error e.
Proof.
  eassert (H : unpack_config_at packed_test_cfg = Ok (_, 244))
    by (vm_compute; reflexivity).
  destruct (unpack_config_truncated _ _ _
              (bytes_ok_spec packed_test_cfg ltac:(vm_compute; reflexivity)) H)
    as (H1 & _ & H3).
  split; [eexists; exact H1|]. apply (H3 100%nat). lia.
Defined.

Lemma num_of_adcs_added_witness :
  pack_config bare_cfg = Ok packed_test_cfg
  /\ unpack_config packed_test_cfg = Ok decoded_test_cfg
  /\ In "num_of_adcs"%string (hardware_keys (hardware decoded_test_cfg))
  /\ ~ In "num_of_adcs"%string (hardware_keys (hardware bare_cfg)).
Proof.
  assert (P : pack_config bare_cfg = Ok packed_test_cfg)
    by (vm_compute; reflexivity).
  assert (U : unpack_config packed_test_cfg = Ok decoded_test_cfg)
    by (vm_compute; reflexivity).
  split; [exact P|]. split; [exact U|].
  exact (proj2 (proj2 num_of_adcs_added) bare_cfg packed_test_cfg
           decoded_test_cfg eq_refl P U).
Defined.

(** ** More of the codec *)

(** *** Texts *)

Lemma byte_of_ascii_byte (a : ascii) : is_byte (byte_of_ascii a).
Proof.
  unfold is_byte, byte_of_ascii. pose proof (N_ascii_bounded a). lia.
Qed.

Lemma encode_bytes (s : string) : Forall is_byte (encode s).
Proof.
  unfold encode. apply List.Forall_forall. intros b Hb.
  apply in_map_iff in Hb as (a & <- & _). apply byte_of_ascii_byte.
Qed.

Lemma byte_ascii_round (b : Z) : is_byte b -> byte_of_ascii (ascii_of_byte b) = b.
Proof.
  intros Hb. unfold is_byte in Hb. unfold byte_of_ascii, ascii_of_byte.
  rewrite N_ascii_embedding by lia. lia.
Qed.

Lemma encode_decode (b : bytes) (s : string) :
  Forall is_byte b -> decode b = Ok s -> encode s = b.
Proof.
  intros Hb. unfold decode. destruct (utf8_check 0 b); [|discriminate].
  intros [= <-]. unfold encode. rewrite list_ascii_of_string_of_list_ascii.
  rewrite List.map_map. rewrite <- (List.map_id b) at 2.
  apply List.map_ext_in. intros x Hx. apply byte_ascii_round.
  exact (proj1 (List.Forall_forall _ _) Hb x Hx).
Qed.

Lemma len_slice (buf : bytes) (a b : Z) :
  0 <= a <= b -> len (slice buf a b) = Z.max 0 (Z.min (b - a) (len buf - a)).
Proof.
  intros H. unfold slice, len. rewrite length_firstn, length_skipn. lia.
Qed.

Lemma slice_bytes (buf : bytes) (a b : Z) :
  Forall is_byte buf -> Forall is_byte (slice buf a b).
Proof. intros H. unfold slice. apply Forall_take, Forall_drop, H. Qed.

(** X8: a text that [pack_string] accepts is read back by [unpack_string]
    wherever its bytes lie in a buffer, and the offset returned is that of
    the byte after them. *)
Theorem string_round_trip (s : string) (pre rest : bytes) :
  utf8_check 0 (encode s) = true -> len (encode s) <= 255 ->
  exists bs,
    pack_string s = Ok bs
    /\ unpack_string (pre ++ bs ++ rest) (len pre) = Ok (s, len pre + len bs).
Proof.
  intros Hu Hl.
  assert (Hok : text_ok s = true)
    by (unfold text_ok; rewrite Hu; cbn [andb]; lia).
  apply text_ok_inv in Hok as [_ P]. eexists. split; [exact P|].
  assert (C : cursor (pre ++ (len (encode s) :: encode s) ++ rest) (len pre)
                ((len (encode s) :: encode s) ++ rest))
    by (eexists; split; reflexivity).
  destruct (unpack_string_of_pack s _ _ _ _ P Hu C) as [-> _].
  do 2 f_equal. unfold len. cbn [List.length]. lia.
Qed.

Lemma string_round_trip_witness :
  exists bs,
    pack_string "i2c" = Ok bs
    /\ unpack_string ([9; 9] ++ bs ++ [7]) (len [9; 9])
       = Ok ("i2c"%string, len [9; 9] + len bs).
Proof.
  apply (string_round_trip "i2c" [9; 9] [7]); [reflexivity | vm_compute; discriminate].
Defined.

(** X9: [unpack_string] does not notice a text that is cut short.  It
    returns the bytes that follow the length byte, as many as there are,
    and the offset the length byte announces: when the buffer ends before
    that offset the text is shorter than announced and no exception is
    raised. *)
Theorem unpack_string_short_read (buf : bytes) (o : Z) (s : string) (o' : Z) :
  Forall is_byte buf -> 0 <= o ->
  unpack_string buf o = Ok (s, o') ->
  exists n,
    getitem buf o = Ok n /\ o' = o + 1 + n
    /\ encode s = slice buf (o + 1) o'
    /\ (len buf < o' ->
        len (encode s) = len buf - (o + 1) /\ len (encode s) < n).
Proof.
  intros HF Ho H. unfold unpack_string in H.
  apply bind_inv in H as (n & E & H). apply bind_inv in H as (s' & D & H).
  injection H as -> <-.
  pose proof (getitem_byte _ _ _ HF E) as Hn.
  destruct (getitem_ext _ _ _ E Ho) as [Hlen _].
  exists n. split; [exact E|]. split; [reflexivity|].
  apply encode_decode in D; [|apply slice_bytes, HF].
  split; [exact D|]. intros Hshort.
  rewrite D, len_slice by lia. lia.
Qed.

Lemma unpack_string_short_read_witness :
  unpack_string [5; 104; 105] 0 = Ok ("hi"%string, 6)
  /\ exists n,
      getitem [5; 104; 105] 0 = Ok n /\ 6 = 0 + 1 + n
      /\ encode "hi" = slice [5; 104; 105] (0 + 1) 6
      /\ (len [5; 104; 105] < 6 ->
          len (encode "hi") = len [5; 104; 105] - (0 + 1)
          /\ len (encode "hi") < n).
Proof.
  split; [reflexivity|].
  apply (unpack_string_short_read [5; 104; 105] 0 "hi" 6).
  - apply bytes_ok_spec. reflexivity.
  - lia.
  - reflexivity.
Defined.

(** *** Whole buffers *)

(** X10: [unpack_config] never looks past the last field: bytes that follow
    a stream it accepts change nothing, whatever they are. *)
Theorem unpack_config_ignores_tail (buf tail : bytes) (cfg : Config) :
  Forall is_byte buf -> unpack_config buf = Ok cfg ->
  unpack_config (buf ++ tail) = Ok cfg.
Proof.
  intros HF H. unfold unpack_config in *.
  apply bind_inv in H as ([cfg' off] & E & H). injection H as ->.
  destruct (unpack_config_at_inv buf cfg off HF E) as [_ Hext].
  rewrite Hext. reflexivity.
Qed.

Lemma unpack_config_ignores_tail_witness :
  unpack_config (packed_test_cfg ++ [1; 2; 3]) = Ok decoded_test_cfg.
Proof.
  apply (unpack_config_ignores_tail packed_test_cfg [1; 2; 3] decoded_test_cfg).
  - apply bytes_ok_spec. vm_compute. reflexivity.
  - vm_compute. reflexivity.
Defined.

(** X16: whatever the buffer, [unpack_config] raises nothing but
    [IndexError], [ValueError] "buffer too small" and [UnicodeError]. *)
Theorem unpack_config_errors (buf : bytes) (e : exn) :
  unpack_config buf = Raise e -> decoding_error e.
Proof. exact (unpack_config_raise buf e). Qed.

Lemma unpack_config_errors_witness :
  unpack_config [3; 104] = Raise IndexError /\ decoding_error IndexError.
Proof.
  split; [reflexivity|]. apply (unpack_config_errors [3; 104]). reflexivity.
Defined.

Lemma cursor_end (buf : bytes) (o : Z) : cursor buf o [] -> o = len buf.
Proof. intros (pre & -> & ->). rewrite app_nil_r. reflexivity. Qed.

(** *** What [pack_config] writes *)

Lemma pack_B_bytes (v : Z) : Forall is_byte (pack_B v).
Proof.
  unfold pack_B. repeat constructor; apply Z.mod_pos_bound; lia.
Qed.

Lemma pack_H_bytes (v : Z) : Forall is_byte (pack_H v).
Proof.
  unfold pack_H. repeat constructor; apply Z.mod_pos_bound; lia.
Qed.

Lemma pack_f_bytes (x : float) : Forall is_byte (pack_f x).
Proof.
  unfold pack_f. cbv zeta. repeat constructor; apply Z.mod_pos_bound; lia.
Qed.

Lemma pack_string_bytes (s : string) (b : bytes) :
  pack_string s = Ok b -> Forall is_byte b.
Proof.
  intros H. apply pack_string_inv in H as [-> Hl].
  constructor; [unfold is_byte; lia | apply encode_bytes].
Qed.

Lemma pack_fixed_point_bytes (v : float) (b : bytes) :
  pack_fixed_point v = Ok b -> Forall is_byte b.
Proof.
  unfold pack_fixed_point. intros H. apply bind_inv in H as (n & _ & H).
  apply Ok_inj in H as <-. apply pack_H_bytes.
Qed.

(** Splits a successful run of the serializer [H] at every call. *)
Ltac pieces H :=
  cbv beta iota zeta in H;
  lazymatch type of H with
  | (mbind _ _) = Ok _ =>
      let a := fresh "a" in
      let E := fresh "E" in
      apply bind_inv in H as (a & E & H); pieces E; pieces H
  | (if ?c then _ else _) = Ok _ => destruct c; pieces H
  | Ok _ = Ok _ => apply Ok_inj in H; subst
  | pack_string _ = Ok _ => apply pack_string_bytes in H
  | pack_fixed_point _ = Ok _ => apply pack_fixed_point_bytes in H
  | _ => idtac
  end.

Ltac all_bytes :=
  repeat apply Forall_app_2;
  first [ assumption | apply pack_B_bytes | apply pack_H_bytes
        | apply pack_f_bytes | constructor ].

Lemma pack_channel_bytes (ch : Channel) (b : bytes) :
  pack_channel ch = Ok b -> Forall is_byte b.
Proof.
  intros H. unfold pack_channel in H. pieces H; all_bytes.
Qed.

Lemma pack_channels_bytes (chs : list Channel) :
  forall b, pack_channels chs = Ok b -> Forall is_byte b.
Proof.
  induction chs as [|ch chs IH]; intros b H; cbn [pack_channels] in H.
  - apply Ok_inj in H as <-. constructor.
  - apply bind_inv in H as (b1 & E1 & H). apply bind_inv in H as (b2 & E2 & H).
    apply Ok_inj in H as <-. apply Forall_app_2;
      [exact (pack_channel_bytes _ _ E1) | exact (IH _ E2)].
Qed.

Lemma pack_gpio_bytes (pins : gmap string Z) (range : list Z) :
  forall b, pack_gpio pins range = Ok b -> Forall is_byte b.
Proof.
  induction range as [|i range IH]; intros b H; cbn [pack_gpio] in H.
  - apply Ok_inj in H as <-. constructor.
  - apply bind_inv in H as (b1 & E1 & H). apply bind_inv in H as (b2 & E2 & H).
    apply Ok_inj in H as <-. apply Forall_app_2; [|exact (IH _ E2)].
    unfold pack_gpio_pair in E1. pieces E1. apply pack_B_bytes.
Qed.

Lemma pack_adc_addrs_bytes (addrs : list string) :
  forall b, pack_adc_addrs addrs = Ok b -> Forall is_byte b.
Proof.
  induction addrs as [|addr addrs IH]; intros b H; cbn [pack_adc_addrs] in H.
  - apply Ok_inj in H as <-. constructor.
  - apply bind_inv in H as (a & _ & H). apply bind_inv in H as (b2 & E2 & H).
    apply Ok_inj in H as <-. apply Forall_app_2; [apply pack_B_bytes | exact (IH _ E2)].
Qed.

Lemma pack_hardware_bytes (hw : Hardware) (b : bytes) :
  pack_hardware hw = Ok b -> Forall is_byte b.
Proof.
  intros H. unfold pack_hardware in H.
  apply bind_inv in H as (b_mode & Em & H). apply pack_string_bytes in Em.
  apply bind_inv in H as (dev & _ & H). apply bind_inv in H as (ee & _ & H).
  cbv zeta in H.
  apply bind_inv in H as (b_gpio & Eg & H). apply pack_gpio_bytes in Eg.
  apply bind_inv in H as (b_adc & Ea & H). apply pack_adc_addrs_bytes in Ea.
  apply Ok_inj in H as <-. all_bytes.
Qed.

Lemma pack_config_bytes (cfg : Config) (buf : bytes) :
  pack_config cfg = Ok buf -> Forall is_byte buf.
Proof.
  intros H. unfold pack_config in H.
  apply bind_inv in H as (b1 & E1 & H). apply pack_string_bytes in E1.
  apply bind_inv in H as (b2 & E2 & H). apply pack_string_bytes in E2.
  apply bind_inv in H as (b3 & E3 & H). apply pack_channels_bytes in E3.
  apply bind_inv in H as (b4 & E4 & H). apply pack_string_bytes in E4.
  apply bind_inv in H as (b5 & E5 & H). apply pack_string_bytes in E5.
  apply bind_inv in H as (b6 & E6 & H). apply pack_string_bytes in E6.
  apply bind_inv in H as (b7 & E7 & H). apply pack_string_bytes in E7.
  apply bind_inv in H as (b8 & E8 & H). apply pack_string_bytes in E8.
  apply bind_inv in H as (b9 & E9 & H). apply pack_hardware_bytes in E9.
  apply bind_inv in H as (pc & _ & H).
  apply Ok_inj in H as <-. all_bytes.
Qed.

(** The round trip, with the offset the decoder stops at. *)
Lemma round_trip_at (cfg : Config) :
  config_ok cfg = true ->
  exists buf,
    pack_config cfg = Ok buf /\ unpack_config_at buf = Ok (stored cfg, len buf).
Proof.
  intros Hok. unfold config_ok in Hok. repeat rewrite andb_true_iff in Hok.
  destruct Hok as ((((((((((((Hmod & Hmez) & Hnch) & Hchs) & Hssid) & Hpwd) & Hbrk)
    & Hport%word_ok_inv) & Hcid) & Htop) & Hhw) & Hpc) & Hst%byte_ok_inv).
  unfold hardware_ok in Hhw. repeat rewrite andb_true_iff in Hhw.
  destruct Hhw as (((((((((Hmode & Hbus%byte_ok_inv) & Hsda%byte_ok_inv)
    & Hscl%byte_ok_inv) & Hdev) & Hee) & Hsize) & Hgpio) & Hadc) & Hrate).
  unfold stored, pack_config, pack_hardware.
  destruct cfg as [mod_ mez chs [ssid pwd] [brk prt cid top]
                     [md bus sda scl dev ee size pins adc nadc rate] pc st].
  cbn [module_type mezzanine_type channels network mqtt hardware pin_config
       status_update_interval_s wifi_ssid wifi_password broker port client_id
       base_topic mode i2c_bus_id i2c_sda_pin i2c_scl_pin i2c_device_addr
       eeprom_i2c_addr eeprom_size gpio_host_pins adc_i2c_addrs num_of_adcs
       adc_sampling_rate] in *.
  destruct size as [size|]; [apply word_ok_inv in Hsize|discriminate].
  destruct rate as [rate|]; [apply word_ok_inv in Hrate|discriminate].
  destruct adc as [addrs|]; [|discriminate].
  destruct nadc as [nadc|]; [|rewrite andb_false_r in Hadc; discriminate].
  apply andb_true_iff in Hadc as [[Hnadc Haddrs]%andb_true_iff Hn].
  apply Z.eqb_eq in Hn. subst nadc. apply Z.leb_le in Hnadc, Hnch.
  apply text_ok_inv in Hmod as [Umod Pmod], Hmez as [Umez Pmez],
    Hssid as [Ussid Pssid], Hpwd as [Upwd Ppwd], Hbrk as [Ubrk Pbrk],
    Hcid as [Ucid Pcid], Htop as [Utop Ptop], Hmode as [Umode Pmode].
  apply rendered_inv in Hdev as (a_dev & Pdev & Bdev & <-).
  apply rendered_inv in Hee as (a_ee & Pee & Bee & <-).
  apply rendered_inv in Hpc as (a_pc & Ppc & Bpc & <-).
  destruct (channels_round_trip chs Hchs) as (b_chs & Pchs & Uchs).
  destruct (gpio_round_trip pins Hgpio) as (b_gpio & Pgpio & Ugpio).
  destruct (adc_addrs_round_trip addrs Haddrs) as (b_adc & Padc & Uadc).
  pose proof (len_nonneg chs) as Lchs. pose proof (len_nonneg addrs) as Laddrs.
  cbv zeta. cbn [default from_option id].
  rewrite Pmod, Pmez, Pchs, Pssid, Ppwd, Pbrk, Pcid, Ptop, Pmode, Pdev, Pee,
    Pgpio, Padc, Ppc. rewrite !bind_Ok.
  eexists. split; [reflexivity|].
  unfold unpack_config_at. cbv beta iota zeta.
  match goal with
  | |- context [unpack_string ?buf 0] =>
      pose proof (cursor_start buf) as C;
      remember buf as whole eqn:Hwhole in C at 1 |- *; clear Hwhole
  end.
  cbn [app] in C. rewrite <- ?app_assoc in C. cbn [app] in C.
  rewrite ?pack_B_small in C by lia. rewrite Z.min_l in C by lia.
  rewrite ?pack_B_small in C by lia. cbn [app] in C.
  advance_more C.
  advance_more C.
  advance_more C.
  replace (Z.to_nat (len chs)) with (List.length chs) by (unfold len; lia).
  destruct (Uchs _ _ _ C) as (o1 & -> & C1). clear C.
  rewrite bind_Ok. cbv beta iota zeta.
  advance_more C1.
  advance_more C1.
  advance_more C1.
  advance_more C1.
  advance_more C1.
  advance_more C1.
  advance_more C1.
  advance_more C1. cbn [nth].
  advance_more C1.
  destruct (Ugpio _ _ _ C1) as (o2 & -> & C2). clear C1.
  rewrite bind_Ok. cbv beta iota zeta.
  advance_more C2.
  replace (Z.to_nat (len addrs)) with (List.length addrs) by (unfold len; lia).
  destruct (Uadc _ _ _ C2) as (o3 & -> & C3). clear C2.
  rewrite bind_Ok. cbv beta iota zeta.
  advance_more C3.
  change (@nil Z) with (@nil Z ++ []) in C3.
  advance_more C3. cbn [nth].
  apply cursor_end in C3. rewrite <- C3.
  rewrite !Z.mod_small by lia. reflexivity.
Qed.

Lemma prefix_refused (buf : bytes) (cfg : Config) (off : Z) (k : nat) :
  Forall is_byte buf -> unpack_config_at buf = Ok (cfg, off) ->
  Z.of_nat k < off ->
  exists e, unpack_config (firstn k buf) = Raise e /\ decoding_error e.
Proof.
  intros HF H Hk.
  destruct (unpack_config (firstn k buf)) as [cfg'|e] eqn:E';
    [|exists e; split; [reflexivity | exact (unpack_config_raise _ _ E')]].
  exfalso. unfold unpack_config in E'.
  apply bind_inv in E' as ([cfg'' off'] & E & _).
  destruct (unpack_config_at_inv _ _ _ (firstn_is_byte k buf HF) E) as [Hoff' Hext].
  specialize (Hext (skipn k buf)). rewrite firstn_skipn, H in Hext.
  injection Hext as _ ->.
  unfold len in Hoff'. rewrite length_firstn in Hoff'. lia.
Qed.

(** X11: the decoder reads a packed record to its last byte and no
    further: [pack_config] writes bytes only, [unpack_config] stops at the
    end of what was written, and every proper prefix of it is refused. *)
Theorem packed_config_read_to_the_end (cfg : Config) :
  config_ok cfg = true ->
  exists buf,
    pack_config cfg = Ok buf
    /\ Forall is_byte buf
    /\ unpack_config_at buf = Ok (stored cfg, len buf)
    /\ forall k, (k < List.length buf)%nat ->
         exists e, unpack_config (firstn k buf) = Raise e /\ decoding_error e.
Proof.
  intros Hok. destruct (round_trip_at cfg Hok) as (buf & P & U).
  pose proof (pack_config_bytes cfg buf P) as HF.
  exists buf. split; [exact P|]. split; [exact HF|]. split; [exact U|].
  intros k Hk. apply (prefix_refused buf (stored cfg) (len buf) k HF U).
  unfold len. lia.
Qed.

Lemma packed_config_read_to_the_end_witness :
  exists buf,
    pack_config fine_cfg = Ok buf
    /\ Forall is_byte buf
    /\ unpack_config_at buf = Ok (stored fine_cfg, len buf)
    /\ forall k, (k < List.length buf)%nat ->
         exists e, unpack_config (firstn k buf) = Raise e /\ decoding_error e.
Proof.
  apply (packed_config_read_to_the_end fine_cfg). vm_compute. reflexivity.
Defined.

(** X12: the status interval is stored in one byte and saturates: every
    interval of 255 s or more is written, and read back, as 255. *)
Theorem status_interval_saturates (cfg : Config) (v : Z) :
  config_ok cfg = true -> 255 <= v ->
  exists buf,
    pack_config (with_status_update_interval_s v cfg) = Ok buf
    /\ unpack_config buf = Ok (stored (with_status_update_interval_s 255 cfg)).
Proof.
  intros Hok Hv.
  assert (Hok' : config_ok (with_status_update_interval_s 255 cfg) = true).
  { unfold config_ok in *. repeat rewrite andb_true_iff in Hok.
    destruct Hok as [Hrest _].
    cbn [with_status_update_interval_s module_type mezzanine_type channels
         network mqtt hardware pin_config status_update_interval_s].
    repeat rewrite andb_true_iff. split; [exact Hrest | reflexivity]. }
  destruct (round_trip_at _ Hok') as (buf & P & U).
  exists buf. split.
  - rewrite <- P. unfold pack_config.
    cbn [with_status_update_interval_s module_type mezzanine_type channels
         network mqtt hardware pin_config status_update_interval_s].
    rewrite (Z.min_r v 255) by lia. reflexivity.
  - unfold unpack_config. rewrite U. reflexivity.
Qed.

Lemma status_interval_saturates_witness :
  exists buf,
    pack_config (with_status_update_interval_s 3600 fine_cfg) = Ok buf
    /\ unpack_config buf = Ok (stored (with_status_update_interval_s 255 fine_cfg)).
Proof.
  apply (status_interval_saturates fine_cfg 3600); [vm_compute; reflexivity | lia].
Defined.

(** *** Pins *)

Lemma low_nibbles (hi lo : Z) :
  let p := Z.lor (Z.shiftl (Z.land hi 0x0F) 4) (Z.land lo 0x0F) in
  pack_B p = [p]
  /\ Z.land (Z.shiftr p 4) 0x0F = low_nibble hi
  /\ Z.land p 0x0F = low_nibble lo.
Proof.
  assert (B : forall x, 0 <= Z.land x 0x0F <= 15).
  { intros x.
    assert (H : Z.land x 0x0F = x mod 16) by apply (Z.land_ones x 4 ltac:(lia)).
    rewrite H. pose proof (Z.mod_pos_bound x 16). lia. }
  assert (I : forall x, Z.land (Z.land x 0x0F) 0x0F = Z.land x 0x0F).
  { intros x. rewrite <- Z.land_assoc. reflexivity. }
  pose proof (nibbles (Z.land hi 0x0F) (Z.land lo 0x0F) (B hi) (B lo)) as H.
  cbv zeta in H |- *. rewrite !I in H. exact H.
Qed.

(** X13: a pin number is stored in four bits: whatever the eight pins
    are, packing them and unpacking the result gives each pin's low four
    bits, so only pins 0 to 15 come back unchanged. *)
Theorem gpio_keeps_low_nibbles (pins : gmap string Z) (b : bytes) (buf : bytes)
    (o : Z) (rest : bytes) :
  pack_gpio pins [0; 2; 4; 6] = Ok b -> cursor buf o (b ++ rest) ->
  exists pins',
    unpack_gpio [0; 2; 4; 6] ∅ buf o = Ok (pins', o + 4)
    /\ forall k, In k [1; 2; 3; 4; 5; 6; 7; 8] ->
         pins' !! str_of_int k = low_nibble <$> pins !! str_of_int k.
Proof.
  intros P C. cbn [pack_gpio] in P. unfold pack_gpio_pair in P.
  eval_keys.
  destruct (pins !! "1"%string) as [v1|] eqn:E1; [|discriminate].
  destruct (pins !! "2"%string) as [v2|] eqn:E2; [|discriminate].
  cbn [getkey] in P. rewrite !bind_Ok in P.
  destruct (pins !! "3"%string) as [v3|] eqn:E3; [|discriminate].
  destruct (pins !! "4"%string) as [v4|] eqn:E4; [|discriminate].
  cbn [getkey] in P. rewrite !bind_Ok in P.
  destruct (pins !! "5"%string) as [v5|] eqn:E5; [|discriminate].
  destruct (pins !! "6"%string) as [v6|] eqn:E6; [|discriminate].
  cbn [getkey] in P. rewrite !bind_Ok in P.
  destruct (pins !! "7"%string) as [v7|] eqn:E7; [|discriminate].
  destruct (pins !! "8"%string) as [v8|] eqn:E8; [|discriminate].
  cbn [getkey] in P. rewrite !bind_Ok in P.
  destruct (low_nibbles v1 v2) as (P12 & A1 & A2).
  destruct (low_nibbles v3 v4) as (P34 & A3 & A4).
  destruct (low_nibbles v5 v6) as (P56 & A5 & A6).
  destruct (low_nibbles v7 v8) as (P78 & A7 & A8).
  cbv zeta in *.
  rewrite P12, P34, P56, P78 in P. apply Ok_inj in P. subst b.
  cbn [app] in C. cbn [unpack_gpio].
  rewrite (cursor_getitem _ _ _ _ C), bind_Ok. cbv zeta. apply cursor_cons in C.
  rewrite (cursor_getitem _ _ _ _ C), bind_Ok. cbv zeta. apply cursor_cons in C.
  rewrite (cursor_getitem _ _ _ _ C), bind_Ok. cbv zeta. apply cursor_cons in C.
  rewrite (cursor_getitem _ _ _ _ C), bind_Ok. cbv zeta. apply cursor_cons in C.
  eval_keys. rewrite A1, A2, A3, A4, A5, A6, A7, A8.
  eexists. split; [do 2 f_equal; lia|].
  intros k Hk. cbn [In] in Hk.
  destruct Hk as [<-|[<-|[<-|[<-|[<-|[<-|[<-|[<-|[]]]]]]]]];
    match goal with
    | |- context [str_of_int ?k] =>
        let v := eval vm_compute in (str_of_int k) in
        change (str_of_int k) with v
    end;
    repeat (rewrite lookup_insert_ne by discriminate); rewrite lookup_insert_eq;
    match goal with
    | E : pins !! _ = Some _ |- Some _ = _ <$> pins !! _ => rewrite E; reflexivity
    end.
Qed.

Lemma gpio_keeps_low_nibbles_witness :
  exists pins',
    unpack_gpio [0; 2; 4; 6] ∅ ([171; 205; 239; 35] ++ []) 0 = Ok (pins', 0 + 4)
    /\ gpio_host_pins (hardware test_cfg) !! "7"%string = Some 18
    /\ pins' !! "7"%string = Some 2.
Proof.
  destruct (gpio_keeps_low_nibbles (gpio_host_pins (hardware test_cfg))
             [171; 205; 239; 35] _ 0 [] ltac:(vm_compute; reflexivity)
             (cursor_start _)) as (pins' & U & H).
  exists pins'. split; [exact U|]. split; [vm_compute; reflexivity|].
  pose proof (H 7 ltac:(cbn; tauto)) as H7.
  change (str_of_int 7) with "7"%string in H7.
  rewrite H7. vm_compute. reflexivity.
Defined.

End Codec.

(** ** The analog driver *)

Section Analog.
Import Py analog_driver.
Context {A : Type}.

Lemma list_getitem_inv (l : list A) (i : Z) (a : A) :
  list_getitem l i = Ok a ->
  let j := if i <? 0 then i + len l else i in
  0 <= j < len l /\ List.nth_error l (Z.to_nat j) = Some a.
Proof.
  unfold list_getitem. cbv zeta.
  set (j := if i <? 0 then i + len l else i).
  destruct (Z.ltb_spec j 0) as [|Hj]; [discriminate|].
  destruct (List.nth_error l (Z.to_nat j)) as [x|] eqn:E; [|discriminate].
  intros [= ->]. split; [|reflexivity].
  assert (Z.to_nat j < List.length l)%nat
    by (apply List.nth_error_Some; rewrite E; discriminate).
  unfold len. lia.
Qed.

Lemma adc_for_channel_inv (adcs : list A) (c : Z) (adc : A) (pair : Z * Z) :
  0 <= c -> _get_adc_for_channel adcs c = Ok (Some (adc, pair)) ->
  List.nth_error adcs (Z.to_nat (c / 2)) = Some adc
  /\ c / 2 < len adcs
  /\ pair = if c mod 2 =? 0 then (0, 1) else (2, 3).
Proof.
  intros Hc. unfold _get_adc_for_channel. cbv zeta.
  destruct (Z.geb_spec (c / 2) (len adcs)) as [|Hlt]; [discriminate|].
  destruct (list_getitem adcs (c / 2)) as [a|e] eqn:E; [|discriminate].
  apply list_getitem_inv in E. cbv zeta in E.
  assert (0 <= c / 2) by (apply Z.div_pos; lia).
  destruct (Z.ltb_spec (c / 2) 0) as [|_]; [lia|]. destruct E as [_ E].
  change (Ok a ≫= _) with
    (if c mod 2 =? 0 then Ok (Some (a, (0, 1))) else Ok (Some (a, (2, 3)))).
  destruct (c mod 2 =? 0); intros [= <- <-]; auto.
Qed.

Lemma adc_for_channel_inj (adcs : list A) (c1 c2 : Z) (r : A * (Z * Z)) :
  List.NoDup adcs -> 0 <= c1 -> 0 <= c2 ->
  _get_adc_for_channel adcs c1 = Ok (Some r) ->
  _get_adc_for_channel adcs c2 = Ok (Some r) ->
  c1 = c2.
Proof.
  intros Hnd H1 H2 E1 E2. destruct r as [adc pair].
  apply adc_for_channel_inv in E1 as (N1 & L1 & P1); [|exact H1].
  apply adc_for_channel_inv in E2 as (N2 & L2 & P2); [|exact H2].
  assert (Hi : Z.to_nat (c1 / 2) = Z.to_nat (c2 / 2)).
  { apply (proj1 (List.NoDup_nth_error adcs) Hnd).
    - apply List.nth_error_Some. rewrite N1. discriminate.
    - rewrite N1, N2. reflexivity. }
  assert (0 <= c1 / 2) by (apply Z.div_pos; lia).
  assert (0 <= c2 / 2) by (apply Z.div_pos; lia).
  assert (Hm : c1 mod 2 = c2 mod 2).
  { pose proof (Z.mod_pos_bound c1 2 ltac:(lia)).
    pose proof (Z.mod_pos_bound c2 2 ltac:(lia)).
    rewrite P1 in P2.
    destruct (Z.eqb_spec (c1 mod 2) 0), (Z.eqb_spec (c2 mod 2) 0);
      try discriminate; lia. }
  rewrite (Z.div_mod c1 2), (Z.div_mod c2 2) by lia. lia.
Qed.

(** X14: two different channels are never measured on the same input pair
    of the same ADC. *)
Theorem adc_for_channel_distinct (adcs : list A) (c1 c2 : Z)
    (r1 r2 : A * (Z * Z)) :
  List.NoDup adcs -> 0 <= c1 -> 0 <= c2 -> c1 <> c2 ->
  _get_adc_for_channel adcs c1 = Ok (Some r1) ->
  _get_adc_for_channel adcs c2 = Ok (Some r2) ->
  r1 <> r2.
Proof.
  intros Hnd H1 H2 Hne E1 E2 ->. apply Hne.
  exact (adc_for_channel_inj adcs c1 c2 r2 Hnd H1 H2 E1 E2).
Qed.

(** X15: a channel past the last ADC gets no ADC, but a negative channel
    number is not refused: it counts from the last ADC backwards, and
    only below that range does the indexing raise. *)
Theorem adc_for_channel_range (adcs : list A) (c : Z) :
  (2 * len adcs <= c -> _get_adc_for_channel adcs c = Ok None)
  /\ (- 2 * len adcs <= c < 0 ->
      _get_adc_for_channel adcs c
      = _get_adc_for_channel adcs (c + 2 * len adcs)
      /\ exists r, _get_adc_for_channel adcs c = Ok (Some r))
  /\ (c < - 2 * len adcs -> _get_adc_for_channel adcs c = Raise IndexError).
Proof.
  pose proof (Z.div_mod c 2 ltac:(lia)) as Hd.
  pose proof (Z.mod_pos_bound c 2 ltac:(lia)) as Hm.
  assert (HL : 0 <= len adcs) by (unfold len; lia).
  unfold _get_adc_for_channel. cbv zeta. split; [|split].
  - intros Hc. destruct (Z.geb_spec (c / 2) (len adcs)); [reflexivity | lia].
  - intros Hc.
    replace (c + 2 * len adcs) with (c + len adcs * 2) by lia.
    rewrite Z.div_add, Z_mod_plus_full by lia.
    destruct (Z.geb_spec (c / 2) (len adcs)); [lia|].
    destruct (Z.geb_spec (c / 2 + len adcs) (len adcs)); [lia|].
    unfold list_getitem. cbv zeta.
    assert (E1 : (c / 2 <? 0) = true) by lia.
    assert (E2 : (c / 2 + len adcs <? 0) = false) by lia.
    rewrite E1, E2, E2.
    split; [reflexivity|].
    destruct (List.nth_error adcs (Z.to_nat (c / 2 + len adcs))) as [a|] eqn:E.
    + cbn. destruct (c mod 2 =? 0); eauto.
    + apply List.nth_error_None in E. unfold len in *. lia.
  - intros Hc. destruct (Z.geb_spec (c / 2) (len adcs)); [lia|].
    unfold list_getitem. cbv zeta.
    assert (E1 : (c / 2 <? 0) = true) by lia.
    assert (E2 : (c / 2 + len adcs <? 0) = true) by lia.
    rewrite E1, E2. reflexivity.
Qed.

End Analog.

Section AnalogBench.
Import Py analog_driver.

Lemma adc_for_channel_distinct_witness :
  _get_adc_for_channel [0x49; 0x4B] 2 = Ok (Some (0x4B, (0, 1)))
  /\ _get_adc_for_channel [0x49; 0x4B] 3 = Ok (Some (0x4B, (2, 3)))
  /\ (0x4B, (0, 1)) <> (0x4B, (2, 3)).
Proof.
  split; [reflexivity|]. split; [reflexivity|].
  apply (adc_for_channel_distinct [0x49; 0x4B] 2 3).
  - repeat constructor; cbn; intuition discriminate.
  - lia.
  - lia.
  - discriminate.
  - reflexivity.
  - reflexivity.
Defined.

End AnalogBench.
